(** * Feature-engineering dashboard: the feature workflow dialog, the formula
    builder, the relevance-analysis dialog and the pipeline engine they drive.

    The front-end components are TypeScript/React; their state is a tuple of
    [useState] cells and every handler is a function from the state of the
    current render to the next state.  The embedding below keeps that shape:
    JavaScript values are a small inductive type, objects are insertion-ordered
    association lists, and handlers are state transformers. *)

From Stdlib Require Import List String Ascii ZArith QArith Bool Lia Arith DecimalString.
Close Scope Q_scope.
Import ListNotations.
Open Scope string_scope.
Open Scope list_scope.

(* ===================================================================== *)
(** ** JavaScript values and objects *)
(* ===================================================================== *)

Module Js.

Set Warnings "-register-all".

(** The values that flow through the dialogs ([any] in the source).  Numbers
    are the integers the code produces ([periods: i]) plus [NaN], the result
    of a failed [parseInt]. *)
Inductive JVal : Type :=
| JUndefined
| JNull
| JBool (b : bool)
| JNum (z : Z)
| JNaN
| JStr (s : string)
| JArr (items : list JVal)
| JObj (fields : list (string * JVal)).

(** An object: its own enumerable properties in insertion order.  It stands for
    a JavaScript object when its keys are pairwise distinct ([obj_wf]). *)
Definition JsObj : Type := list (string * JVal).

Definition keys (o : JsObj) : list string := map fst o.

Definition obj_wf (o : JsObj) : Prop := NoDup (keys o).

(** [o.k]: the value stored under [k], [undefined] when there is none. *)
Fixpoint obj_get (k : string) (o : JsObj) : JVal :=
  match o with
  | [] => JUndefined
  | (k', v) :: o' => if String.eqb k' k then v else obj_get k o'
  end.

Fixpoint obj_has (k : string) (o : JsObj) : bool :=
  match o with
  | [] => false
  | (k', _) :: o' => String.eqb k' k || obj_has k o'
  end.

(** Defining a property: an existing key keeps its position and takes the new
    value, a new key goes last. *)
Fixpoint obj_set (k : string) (v : JVal) (o : JsObj) : JsObj :=
  match o with
  | [] => [(k, v)]
  | (k', v') :: o' =>
      if String.eqb k' k then (k', v) :: o' else (k', v') :: obj_set k v o'
  end.

(** [{ ...base, ...ext }]: the properties of [ext] are defined on [base] in
    order. *)
Definition obj_spread (base ext : JsObj) : JsObj :=
  fold_left (fun acc kv => obj_set (fst kv) (snd kv) acc) ext base.

(** The rest of a destructuring pattern: every property but [k]. *)
Definition obj_remove (k : string) (o : JsObj) : JsObj :=
  filter (fun kv => negb (String.eqb (fst kv) k)) o.

(** [a === b] on primitive values; [NaN] equals nothing.  Two arrays or two
    objects are equal only when they are the same reference, which a value
    does not record: the comparison answers [false] on them, as it does for
    the separately parsed records of a stored feature set. *)
Definition js_strict_eq (a b : JVal) : bool :=
  match a, b with
  | JUndefined, JUndefined => true
  | JNull, JNull => true
  | JBool x, JBool y => Bool.eqb x y
  | JNum x, JNum y => Z.eqb x y
  | JStr x, JStr y => String.eqb x y
  | _, _ => false
  end.

(** Truthiness, as [||], [&&] and [if] see a value. *)
Definition js_truthy (v : JVal) : bool :=
  match v with
  | JUndefined | JNull | JNaN => false
  | JBool b => b
  | JNum z => negb (Z.eqb z 0)
  | JStr s => negb (String.eqb s "")
  | JArr _ | JObj _ => true
  end.

(** [a || b] *)
Definition js_or (a b : JVal) : JVal := if js_truthy a then a else b.

Definition is_string (v : JVal) : Prop := exists s, v = JStr s.

Definition is_stringb (v : JVal) : bool :=
  match v with JStr _ => true | _ => false end.

(** *** Conversions the handlers rely on *)

Definition string_of_Z (z : Z) : string := NilZero.string_of_int (Z.to_int z).

(** [String(v)] / [v.toString()] / a template-literal hole. *)
Fixpoint js_to_string (v : JVal) : string :=
  match v with
  | JUndefined => "undefined"
  | JNull => "null"
  | JBool true => "true"
  | JBool false => "false"
  | JNum z => string_of_Z z
  | JNaN => "NaN"
  | JStr s => s
  | JArr items =>
      (fix join (l : list JVal) : string :=
         match l with
         | [] => ""
         | [x] => match x with JUndefined | JNull => "" | _ => js_to_string x end
         | x :: rest =>
             (match x with JUndefined | JNull => "" | _ => js_to_string x end
              ++ "," ++ join rest)%string
         end) items
  | JObj _ => "[object Object]"
  end.

Definition is_ws (c : ascii) : bool :=
  match nat_of_ascii c with
  | 9 | 10 | 11 | 12 | 13 | 32 => true
  | _ => false
  end.

Fixpoint skip_ws (s : string) : string :=
  match s with
  | String c s' => if is_ws c then skip_ws s' else s
  | EmptyString => s
  end.

Definition digit_val (radix : Z) (c : ascii) : option Z :=
  let n := Z.of_nat (nat_of_ascii c) in
  let d :=
    if (48 <=? n)%Z && (n <=? 57)%Z then Some (n - 48)%Z
    else if (97 <=? n)%Z && (n <=? 122)%Z then Some (n - 87)%Z
    else if (65 <=? n)%Z && (n <=? 90)%Z then Some (n - 55)%Z
    else None in
  match d with
  | Some v => if (v <? radix)%Z then Some v else None
  | None => None
  end.

(** The longest prefix of digits of the radix, [None] when it is empty. *)
Fixpoint parse_digits (radix : Z) (s : string) (acc : option Z) : option Z :=
  match s with
  | String c s' =>
      match digit_val radix c with
      | Some d =>
          parse_digits radix s'
            (Some (match acc with Some a => a * radix + d | None => d end)%Z)
      | None => acc
      end
  | EmptyString => acc
  end.

(** [parseInt(s)] without a radix: leading (ASCII) white space, a sign, an
    optional [0x] prefix, then digits; [NaN] when there is no digit.  (Exact
    on the integers a double represents exactly.) *)
Definition parseInt_string (s : string) : JVal :=
  let s1 := skip_ws s in
  let '(neg, s2) :=
    match s1 with
    | String "-"%char r => (true, r)
    | String "+"%char r => (false, r)
    | _ => (false, s1)
    end in
  let '(radix, s3) :=
    match s2 with
    | String "0"%char (String "x"%char r) => (16%Z, r)
    | String "0"%char (String "X"%char r) => (16%Z, r)
    | _ => (10%Z, s2)
    end in
  match parse_digits radix s3 None with
  | Some v => JNum (if neg then - v else v)%Z
  | None => JNaN
  end.

(** [parseInt(v)]: the argument is converted to a string first. *)
Definition parseInt (v : JVal) : JVal := parseInt_string (js_to_string v).

(** [xs.includes(x)] on an array of strings. *)
Definition includes (xs : list string) (x : string) : bool :=
  existsb (String.eqb x) xs.

(** The items [...v] spreads into an array literal; [None] when [v] is not
    iterable and the spread throws. *)
Definition spread_items (v : JVal) : option (list JVal) :=
  match v with
  | JArr items => Some items
  | JStr s => Some (map (fun c => JStr (String c EmptyString)) (list_ascii_of_string s))
  | _ => None
  end.

(** [v.length > 0] for a truthy [v]. *)
Definition length_positive (v : JVal) : bool :=
  match v with
  | JArr items => (0 <? List.length items)%nat
  | JStr s => (0 <? String.length s)%nat
  | JObj o => match obj_get "length" o with JNum z => (0 <? z)%Z | _ => false end
  | _ => false
  end.

(** [hay.includes(needle)] on strings. *)
Fixpoint str_includes (hay needle : string) : bool :=
  String.prefix needle hay
  || match hay with
     | String _ hay' => str_includes hay' needle
     | EmptyString => false
     end.

(** [s.substring(a, b)]: both ends are clamped to the length and swapped when
    out of order. *)
Definition js_substring (s : string) (a b : nat) : string :=
  let len := String.length s in
  let a' := Nat.min a len in
  let b' := Nat.min b len in
  String.substring (Nat.min a' b') (Nat.max a' b' - Nat.min a' b') s.

(** [s.substring(a)] *)
Definition js_substring_from (s : string) (a : nat) : string :=
  js_substring s a (String.length s).

End Js.

(* ===================================================================== *)
(** ** The REST objects the dialogs exchange with the registry *)
(* ===================================================================== *)

Module Api.
Import Js.

(** A feature set as the registry returns it; [None] is a missing or [null]
    property. *)
Record FeatureSet : Type := mkFeatureSet {
  id : JVal;
  name : JVal;
  dataset_version_id : JVal;
  version : JVal;
  transformations : option (list JsObj);
  active_features : option (list string);
  target_column : option string
}.

Inductive Method : Type := PUT | POST.

Record Request : Type := mkRequest {
  method : Method;
  url : string;
  body : JsObj
}.

Definition strings (xs : list string) : JVal := JArr (map JStr xs).

Definition objects (os : list JsObj) : JVal := JArr (map JObj os).


(** The property names that reach the server: JSON serialization leaves out
    a property that holds [undefined]. *)
Definition serialized_keys (o : JsObj) : list string :=
  keys (filter (fun kv => match snd kv with JUndefined => false | _ => true end) o).

End Api.

(* ===================================================================== *)
(** ** FeatureWorkflowDialog.tsx *)
(* ===================================================================== *)

Module Workflow.
Import Js.
Import Api.

(** An entry of [pipelineSteps]: [{ id, op, cols, args }]. *)
Record Step : Type := mkStep {
  id : string;
  op : JVal;
  cols : list JVal;
  args : JsObj
}.

(** What is left of a step once the random [id] is put aside. *)
Definition content (s : Step) : JVal * list JVal * JsObj := (op s, cols s, args s).

(** [{ op: step.op, col: col, ...step.args }] *)
Definition flat_record (s : Step) (col : JVal) : JsObj :=
  obj_spread [("op", op s); ("col", col)] (args s).

(** [pipelineSteps.flatMap(step => step.cols.map(col => ({ op, col, ...args })))],
    the expression shared by [handleBuilderSubmit] and
    [handleSaveActiveFeatures]. *)
Definition flatTransformations (pipelineSteps : list Step) : list JsObj :=
  flat_map (fun step => map (flat_record step) (cols step)) pipelineSteps.

(** The (step, column) pairs of a pipeline, in step order then column order. *)
Definition step_col_pairs (pipelineSteps : list Step) : list (Step * JVal) :=
  flat_map (fun step => map (fun col => (step, col)) (cols step)) pipelineSteps.

(** [newOp : { op: string, args: any }] *)
Record NewOp : Type := mkNewOp {
  newOp_op : string;
  newOp_args : JsObj
}.

(** The [useState] cells of the dialog that the builder and the manage tab
    read and write, the [featuresInitializedRef] flag, and the number of
    random ids drawn so far. *)
Record Dialog : Type := mkDialog {
  columns : list string;
  selectedVersionId : string;
  builderVersionTag : JVal;
  pipelineSteps : list Step;
  newOp : NewOp;
  selectedCols : list string;
  activeFeatureSelection : list string;
  activeTargetCol : string;
  leftSelection : list string;
  rightSelection : list string;
  currentFeatureSet : option FeatureSet;
  featuresInitialized : bool;
  ids_drawn : nat
}.

Definition setColumns v (d : Dialog) : Dialog :=
  mkDialog v (selectedVersionId d) (builderVersionTag d) (pipelineSteps d) (newOp d)
    (selectedCols d) (activeFeatureSelection d) (activeTargetCol d) (leftSelection d)
    (rightSelection d) (currentFeatureSet d) (featuresInitialized d) (ids_drawn d).

Definition setSelectedVersionId v (d : Dialog) : Dialog :=
  mkDialog (columns d) v (builderVersionTag d) (pipelineSteps d) (newOp d)
    (selectedCols d) (activeFeatureSelection d) (activeTargetCol d) (leftSelection d)
    (rightSelection d) (currentFeatureSet d) (featuresInitialized d) (ids_drawn d).

Definition setBuilderVersionTag v (d : Dialog) : Dialog :=
  mkDialog (columns d) (selectedVersionId d) v (pipelineSteps d) (newOp d)
    (selectedCols d) (activeFeatureSelection d) (activeTargetCol d) (leftSelection d)
    (rightSelection d) (currentFeatureSet d) (featuresInitialized d) (ids_drawn d).

(** [setPipelineSteps], together with the count of ids the handler drew. *)
Definition setPipelineSteps v (drawn : nat) (d : Dialog) : Dialog :=
  mkDialog (columns d) (selectedVersionId d) (builderVersionTag d) v (newOp d)
    (selectedCols d) (activeFeatureSelection d) (activeTargetCol d) (leftSelection d)
    (rightSelection d) (currentFeatureSet d) (featuresInitialized d) (ids_drawn d + drawn).

Definition setNewOp v (d : Dialog) : Dialog :=
  mkDialog (columns d) (selectedVersionId d) (builderVersionTag d) (pipelineSteps d) v
    (selectedCols d) (activeFeatureSelection d) (activeTargetCol d) (leftSelection d)
    (rightSelection d) (currentFeatureSet d) (featuresInitialized d) (ids_drawn d).

Definition setSelectedCols v (d : Dialog) : Dialog :=
  mkDialog (columns d) (selectedVersionId d) (builderVersionTag d) (pipelineSteps d) (newOp d)
    v (activeFeatureSelection d) (activeTargetCol d) (leftSelection d)
    (rightSelection d) (currentFeatureSet d) (featuresInitialized d) (ids_drawn d).

Definition setActiveFeatureSelection v (d : Dialog) : Dialog :=
  mkDialog (columns d) (selectedVersionId d) (builderVersionTag d) (pipelineSteps d) (newOp d)
    (selectedCols d) v (activeTargetCol d) (leftSelection d)
    (rightSelection d) (currentFeatureSet d) (featuresInitialized d) (ids_drawn d).

Definition setActiveTargetCol v (d : Dialog) : Dialog :=
  mkDialog (columns d) (selectedVersionId d) (builderVersionTag d) (pipelineSteps d) (newOp d)
    (selectedCols d) (activeFeatureSelection d) v (leftSelection d)
    (rightSelection d) (currentFeatureSet d) (featuresInitialized d) (ids_drawn d).

Definition setLeftSelection v (d : Dialog) : Dialog :=
  mkDialog (columns d) (selectedVersionId d) (builderVersionTag d) (pipelineSteps d) (newOp d)
    (selectedCols d) (activeFeatureSelection d) (activeTargetCol d) v
    (rightSelection d) (currentFeatureSet d) (featuresInitialized d) (ids_drawn d).

Definition setRightSelection v (d : Dialog) : Dialog :=
  mkDialog (columns d) (selectedVersionId d) (builderVersionTag d) (pipelineSteps d) (newOp d)
    (selectedCols d) (activeFeatureSelection d) (activeTargetCol d) (leftSelection d)
    v (currentFeatureSet d) (featuresInitialized d) (ids_drawn d).

Definition setCurrentFeatureSet v (d : Dialog) : Dialog :=
  mkDialog (columns d) (selectedVersionId d) (builderVersionTag d) (pipelineSteps d) (newOp d)
    (selectedCols d) (activeFeatureSelection d) (activeTargetCol d) (leftSelection d)
    (rightSelection d) v (featuresInitialized d) (ids_drawn d).

Definition setFeaturesInitialized v (d : Dialog) : Dialog :=
  mkDialog (columns d) (selectedVersionId d) (builderVersionTag d) (pipelineSteps d) (newOp d)
    (selectedCols d) (activeFeatureSelection d) (activeTargetCol d) (leftSelection d)
    (rightSelection d) (currentFeatureSet d) v (ids_drawn d).

(** The dialog before it is first opened: the initial values of the cells. *)
Definition initialDialog : Dialog :=
  mkDialog [] "" (JStr "") [] (mkNewOp "log" []) [] [] "" [] [] None false 0.

Section Handlers.

(** [JSON.stringify] is a built-in of the host; grouping only compares its
    results, so it is taken as given. *)
Variable JSON_stringify : JsObj -> string.

(** The successive results of [Math.random().toString(36).substr(2, 9)]. *)
Variable random_id : nat -> string.

(** *** [groupTransformations] *)

(** The accumulator of the [forEach]: the groups closed so far, the open
    group, and the number of ids drawn. *)
Definition GroupAcc : Type := (list Step * option Step * nat)%type.

Definition isMatch (currentGroup : option Step) (op0 : JVal) (args0 : JsObj) : bool :=
  match currentGroup with
  | None => false
  | Some g =>
      js_strict_eq (op g) op0
      && String.eqb (JSON_stringify (args g)) (JSON_stringify args0)
  end.

Definition close_group (grouped : list Step) (currentGroup : option Step) : list Step :=
  match currentGroup with
  | Some g => grouped ++ [g]
  | None => grouped
  end.

(** The body of the [forEach]: [const { op, col, ...args } = t], then either
    push [col] on the open group or close it and open a new one. *)
Definition group_step (acc : GroupAcc) (t : JsObj) : GroupAcc :=
  let '(grouped, currentGroup, n) := acc in
  let op0 := obj_get "op" t in
  let col0 := obj_get "col" t in
  let args0 := obj_remove "col" (obj_remove "op" t) in
  if isMatch currentGroup op0 args0 then
    match currentGroup with
    | Some g =>
        (grouped, Some (mkStep (id g) (op g) (cols g ++ [col0]) (args g)), n)
    | None => acc
    end
  else
    (close_group grouped currentGroup,
     Some (mkStep (random_id n) op0 [col0] args0),
     S n).

(** [groupTransformations(flat)], with [None] for a missing ([null] or
    [undefined]) list; [n] ids were drawn before the call and the second
    component is the count after it. *)
Definition groupTransformations_from (n : nat) (flat : option (list JsObj))
  : list Step * nat :=
  match flat with
  | None => ([], n)
  | Some ts =>
      let '(grouped, currentGroup, n') := fold_left group_step ts ([], None, n) in
      (close_group grouped currentGroup, n')
  end.

Definition groupTransformations (n : nat) (flat : option (list JsObj)) : list Step :=
  fst (groupTransformations_from n flat).

(** Two neighbouring steps that grouping would merge: same [op] and
    JSON-equal [args]. *)
Definition same_group (s1 s2 : Step) : bool :=
  js_strict_eq (op s1) (op s2)
  && String.eqb (JSON_stringify (args s1)) (JSON_stringify (args s2)).

Fixpoint adjacent_distinct (steps : list Step) : bool :=
  match steps with
  | s1 :: ((s2 :: _) as rest) => negb (same_group s1 s2) && adjacent_distinct rest
  | _ => true
  end.

(** *** Builder actions *)

(** [setNewOp({ ...newOp, args: { ...newOp.args, [key]: value } })] *)
Definition handleArgChange (key : string) (value : JVal) (d : Dialog) : Dialog :=
  setNewOp
    (mkNewOp (newOp_op (newOp d))
       (obj_set key value (obj_spread [] (newOp_args (newOp d)))))
    d.

(** The steps pushed by the [for (let i = 1; i <= maxLag; i++)] loop; the
    [k]-th of them draws the [k]-th id. *)
Definition lag_steps (d : Dialog) (maxLag : JVal) : list Step :=
  let count := match maxLag with JNum n => Z.to_nat n | _ => 0%nat end in
  map (fun i =>
         mkStep (random_id (ids_drawn d + (i - 1)))
           (JStr "lag")
           (map JStr (selectedCols d))
           [("group_col", obj_get "group_col" (newOp_args (newOp d)));
            ("sort_col", obj_get "sort_col" (newOp_args (newOp d)));
            ("periods", JNum (Z.of_nat i))])
      (seq 1 count).

(** [finalGroupCol] of the [groupby_agg] branch; [None] when spreading
    [group_filters] throws. *)
Definition finalGroupCol (a : JsObj) : option JVal :=
  let gf := obj_get "group_filters" a in
  if js_truthy gf && length_positive gf then
    match spread_items gf with
    | Some fs => Some (JArr (obj_get "group_col" a :: fs))
    | None => None
    end
  else Some (obj_get "group_col" a).

Definition addStep (d : Dialog) : Dialog :=
  match selectedCols d with
  | [] => d
  | _ :: _ =>
      let a := newOp_args (newOp d) in
      if String.eqb (newOp_op (newOp d)) "lag" then
        let maxLag := parseInt (js_or (obj_get "max_lag" a) (JStr "1")) in
        let newSteps := lag_steps d maxLag in
        setSelectedCols []
          (setPipelineSteps (pipelineSteps d ++ newSteps) (List.length newSteps) d)
      else if String.eqb (newOp_op (newOp d)) "groupby_agg" then
        match finalGroupCol a with
        | Some g =>
            setSelectedCols []
              (setPipelineSteps
                 (pipelineSteps d ++
                  [mkStep (random_id (ids_drawn d))
                     (JStr (newOp_op (newOp d)))
                     (map JStr (selectedCols d))
                     (obj_set "group_filters" JUndefined
                        (obj_set "group_col" g (obj_spread [] a)))])
                 1 d)
        | None => d
        end
      else
        setSelectedCols []
          (setPipelineSteps
             (pipelineSteps d ++
              [mkStep (random_id (ids_drawn d))
                 (JStr (newOp_op (newOp d)))
                 (map JStr (selectedCols d))
                 (obj_spread [] a)])
             1 d)
  end.

Definition removeStep (i : string) (d : Dialog) : Dialog :=
  setPipelineSteps (filter (fun s => negb (String.eqb (id s) i)) (pipelineSteps d)) 0 d.

(** The select "Add Filter Column..." of the [groupby_agg] form: a non-empty
    choice that is not yet among [group_filters] is put last. *)
Definition addGroupFilter (value : string) (d : Dialog) : Dialog :=
  if String.eqb value "" then d
  else
    match js_or (obj_get "group_filters" (newOp_args (newOp d))) (JArr []) with
    | JArr current =>
        if existsb (js_strict_eq (JStr value)) current then d
        else handleArgChange "group_filters" (JArr (current ++ [JStr value])) d
    | JStr current =>
        if str_includes current value then d
        else
          match spread_items (JStr current) with
          | Some items => handleArgChange "group_filters" (JArr (items ++ [JStr value])) d
          | None => d
          end
    | _ => d
    end.

(** *** The transfer list of the manage tab *)

Definition moveRight (d : Dialog) : Dialog :=
  setLeftSelection []
    (setActiveFeatureSelection (activeFeatureSelection d ++ leftSelection d) d).

Definition moveLeft (d : Dialog) : Dialog :=
  setRightSelection []
    (setActiveFeatureSelection
       (filter (fun f => negb (includes (rightSelection d) f)) (activeFeatureSelection d))
       d).

Definition moveAllRight (d : Dialog) : Dialog :=
  let allLeft := filter (fun c => negb (String.eqb c (activeTargetCol d))) (columns d) in
  setLeftSelection [] (setActiveFeatureSelection allLeft d).

Definition moveAllLeft (d : Dialog) : Dialog :=
  setRightSelection [] (setActiveFeatureSelection [] d).

Inductive ListType : Type := left | right.

Definition toggle (item : string) (prev : list string) : list string :=
  if includes prev item
  then filter (fun i => negb (String.eqb i item)) prev
  else prev ++ [item].

Definition toggleSelection (item : string) (listType : ListType) (d : Dialog) : Dialog :=
  match listType with
  | left => setLeftSelection (toggle item (leftSelection d)) d
  | right => setRightSelection (toggle item (rightSelection d)) d
  end.

(** The "Available" box of the manage tab. *)
Definition leftList (d : Dialog) : list string :=
  filter (fun c => negb (includes (activeFeatureSelection d) c)
                   && negb (String.eqb c (activeTargetCol d)))
         (columns d).

(** *** Row filtering on the manage tab *)

Definition is_filter (s : Step) : bool := js_strict_eq (op s) (JStr "filter").

Fixpoint findIndex {A} (p : A -> bool) (l : list A) : option nat :=
  match l with
  | [] => None
  | x :: l' => if p x then Some 0%nat else option_map S (findIndex p l')
  end.

Fixpoint replace_at {A} (i : nat) (x : A) (l : list A) : list A :=
  match l, i with
  | [], _ => []
  | _ :: l', O => x :: l'
  | y :: l', S i' => y :: replace_at i' x l'
  end.

(** [{ col: columns[0], op: "eq", val: "" }] *)
Definition blank_condition (d : Dialog) : JVal :=
  JObj [("col", match columns d with c :: _ => JStr c | [] => JUndefined end);
        ("op", JStr "eq");
        ("val", JStr "")].

(** The click handler of "+ Add Global Filter". *)
Definition addGlobalFilter (d : Dialog) : Dialog :=
  match findIndex is_filter (pipelineSteps d) with
  | Some existingFilterIdx =>
      match nth_error (pipelineSteps d) existingFilterIdx with
      | Some step =>
          match spread_items (js_or (obj_get "conditions" (args step)) (JArr [])) with
          | Some current =>
              let newConditions := JArr (current ++ [blank_condition d]) in
              setPipelineSteps
                (replace_at existingFilterIdx
                   (mkStep (id step) (op step) (cols step)
                      (obj_set "conditions" newConditions (obj_spread [] (args step))))
                   (pipelineSteps d))
                0 d
          | None => d
          end
      | None => d
      end
  | None =>
      let newStep :=
        mkStep (random_id (ids_drawn d)) (JStr "filter") []
          [("conditions", JArr [blank_condition d])] in
      setPipelineSteps (newStep :: pipelineSteps d) 1 d
  end.

(** *** Opening the dialog and loading columns *)

(** The effect that runs when the dialog opens, in edit mode (a feature set
    is passed) or in create mode. *)
Definition openDialog (editFeatureSet : option FeatureSet) (d : Dialog) : Dialog :=
  match editFeatureSet with
  | Some fs =>
      let '(steps, n') :=
        groupTransformations_from (ids_drawn d)
          (Some (match transformations fs with Some ts => ts | None => [] end)) in
      mkDialog (columns d)
        (match dataset_version_id fs with
         | JUndefined | JNull => ""
         | v => js_to_string v
         end)
        (js_or (version fs) (JStr ""))
        steps
        (newOp d)
        (selectedCols d)
        (match active_features fs with Some fs' => fs' | None => [] end)
        (match target_column fs with Some t => t | None => "" end)
        (leftSelection d) (rightSelection d)
        (Some fs)
        (match active_features fs with Some _ => true | None => false end)
        n'
  | None =>
      mkDialog [] "" (JStr "") [] (mkNewOp "log" []) [] [] "" (leftSelection d) (rightSelection d)
        None false (ids_drawn d)
  end.

(** The answer to the preview request of [loadColumns] for an existing
    feature set, when it has at least one row: [cols] are the keys of that
    row. *)
Definition columnsLoaded (cols : list string) (d : Dialog) : Dialog :=
  let d1 := setColumns cols d in
  if featuresInitialized d1 then d1
  else setFeaturesInitialized true (setActiveFeatureSelection cols d1).

(** *** Submitters *)

Definition feature_set_url (fs : FeatureSet) : string :=
  ("/features/sets/" ++ js_to_string (Api.id fs))%string.

Definition handleBuilderSubmit (d : Dialog) : option Request :=
  if String.eqb (selectedVersionId d) "" then None
  else
    let flat := flatTransformations (pipelineSteps d) in
    match currentFeatureSet d with
    | Some fs =>
        Some (mkRequest PUT (feature_set_url fs)
                [("name", name fs);
                 ("dataset_version_id", parseInt_string (selectedVersionId d));
                 ("version", js_or (builderVersionTag d) JUndefined);
                 ("transformations", objects flat)])
    | None =>
        Some (mkRequest POST "/features/sets"
                [("dataset_version_id", parseInt_string (selectedVersionId d));
                 ("version", js_or (builderVersionTag d) JUndefined);
                 ("transformations", objects flat)])
    end.

(** "Save Selection" on the manage tab. *)
Definition handleSaveActiveFeatures (d : Dialog) : option Request :=
  match currentFeatureSet d with
  | None => None
  | Some fs =>
      let flat := flatTransformations (pipelineSteps d) in
      Some (mkRequest PUT (feature_set_url fs)
              [("name", name fs);
               ("dataset_version_id", dataset_version_id fs);
               ("version", version fs);
               ("transformations", objects flat);
               ("active_features", strings (activeFeatureSelection d));
               ("target_column", js_or (JStr (activeTargetCol d)) JNull)])
  end.

(** *** What the user can do on the manage tab *)

Inductive Action : Type :=
| ToggleSelection (item : string) (listType : ListType)
| MoveRight
| MoveLeft
| MoveAllRight
| MoveAllLeft
| SelectTarget (c : string)
| AddGlobalFilter.

(** What the rendered tab offers: an item can be clicked in the box that
    shows it, the two single-move buttons are disabled on an empty
    selection, and the target select lists the columns and the empty
    choice. *)
Definition enabled (d : Dialog) (a : Action) : bool :=
  match a with
  | ToggleSelection item left => includes (leftList d) item
  | ToggleSelection item right => includes (activeFeatureSelection d) item
  | MoveRight => negb (Nat.eqb (List.length (leftSelection d)) 0)
  | MoveLeft => negb (Nat.eqb (List.length (rightSelection d)) 0)
  | MoveAllRight | MoveAllLeft | AddGlobalFilter => true
  | SelectTarget c => String.eqb c "" || includes (columns d) c
  end.

Definition perform (d : Dialog) (a : Action) : Dialog :=
  if enabled d a then
    match a with
    | ToggleSelection item listType => toggleSelection item listType d
    | MoveRight => moveRight d
    | MoveLeft => moveLeft d
    | MoveAllRight => moveAllRight d
    | MoveAllLeft => moveAllLeft d
    | SelectTarget c => setActiveTargetCol c d
    | AddGlobalFilter => addGlobalFilter d
    end
  else d.

Definition run (d : Dialog) (actions : list Action) : Dialog :=
  fold_left perform actions d.

End Handlers.

(** A step as the builder makes them: [op] is a string ([newOp.op : string]),
    [args] is a proper object, and neither of the two keys the flat record
    reserves for itself is used as an argument name. *)
Definition step_wf (s : Step) : Prop :=
  is_string (op s) /\ obj_wf (args s)
  /\ obj_has "op" (args s) = false /\ obj_has "col" (args s) = false.

End Workflow.

(* ===================================================================== *)
(** ** FormulaBuilder: dragging a column into the expression *)
(* ===================================================================== *)

Module FormulaBuilder.
Import Js.

(** The controlled text area and the drag in flight: the [expression] prop,
    the selection of the text area ([None] while [textAreaRef.current] is
    not set), and the [text/plain] slot of the drag's data transfer. *)
Record Editor : Type := mkEditor {
  expression : string;
  textArea : option (nat * nat);
  dataTransfer : option string
}.

(** [const token = `\`${col}\``] *)
Definition token (col : string) : string := ("`" ++ col ++ "`")%string.

(** [e.dataTransfer.setData("text/plain", token)] *)
Definition handleDragStart (col : string) (ed : Editor) : Editor :=
  mkEditor (expression ed) (textArea ed) (Some (token col)).

(** [onExpressionChange(current.substring(0, start) + text + current.substring(end))] *)
Definition insertText (text : string) (ed : Editor) : Editor :=
  match textArea ed with
  | None => ed
  | Some (start, end_) =>
      let current := expression ed in
      mkEditor
        (js_substring current 0 start ++ text ++ js_substring_from current end_)%string
        (textArea ed) (dataTransfer ed)
  end.

(** [getData] answers the empty string when nothing was stored, and the
    handler inserts only a non-empty text. *)
Definition handleDrop (ed : Editor) : Editor :=
  let text := match dataTransfer ed with Some t => t | None => "" end in
  if String.eqb text "" then ed else insertText text ed.

(** A name is delimited in [s] when it occurs there between two backticks. *)
Definition delimited_in (col s : string) : Prop :=
  exists before after, s = (before ++ "`" ++ col ++ "`" ++ after)%string.

End FormulaBuilder.

(* ===================================================================== *)
(** ** FeatureAnalysisDialog.tsx *)
(* ===================================================================== *)

Module Analysis.
Import Js.
Import Api.

(** The cells of the analysis dialog that decide what "Save Selection"
    sends; [results] holds the records of the last analysis. *)
Record Dialog : Type := mkDialog {
  featureSet : option FeatureSet;
  targetCol : string;
  availableColumns : list string;
  selectedCols : list string;
  colFilter : string;
  results : list JsObj
}.

(** The columns a transformation record names as created: [t.new_col], else
    [t.args.new_col]. *)
Definition created_col (t : JsObj) : option JVal :=
  if js_truthy (obj_get "new_col" t) then Some (obj_get "new_col" t)
  else
    match obj_get "args" t with
    | JObj a => if js_truthy (obj_get "new_col" a) then Some (obj_get "new_col" a) else None
    | _ => None
    end.

Fixpoint createdCols (ts : list JsObj) : list JVal :=
  match ts with
  | [] => []
  | t :: ts' =>
      match created_col t with
      | Some c => c :: createdCols ts'
      | None => createdCols ts'
      end
  end.

(** [createdCols.filter(c => cols.includes(c))]: only a string can be found
    among the column names. *)
Fixpoint validCreated (cols : list string) (created : list JVal) : list string :=
  match created with
  | [] => []
  | JStr c :: rest => if includes cols c then c :: validCreated cols rest
                      else validCreated cols rest
  | _ :: rest => validCreated cols rest
  end.

(** The effect on opening with a feature set. *)
Definition openDialog (fs : FeatureSet) (d : Dialog) : Dialog :=
  mkDialog (Some fs)
    (match target_column fs with Some t => t | None => "" end)
    (availableColumns d) [] (colFilter d) [].

(** The answer to the preview request of [fetchColumns] when it has at least
    one row: "Active Features > Transformations > All", then the stored
    target is taken out. *)
Definition fetchColumns (cols : list string) (d : Dialog) : Dialog :=
  match featureSet d with
  | None =>
      (* [setAvailableColumns] has run when reading the target throws *)
      mkDialog None (targetCol d) cols (selectedCols d) (colFilter d) (results d)
  | Some fs =>
      let colsToSelect :=
        match active_features fs with
        | Some (a :: af) => filter (fun c => includes cols c) (a :: af)
        | _ =>
            let valid :=
              validCreated cols
                (match transformations fs with
                 | Some ts => createdCols ts
                 | None => []
                 end) in
            match valid with
            | _ :: _ => valid
            | [] => cols
            end
        end in
      let colsToSelect' :=
        match target_column fs with
        | Some t =>
            if String.eqb t "" then colsToSelect
            else filter (fun c => negb (String.eqb c t)) colsToSelect
        | None => colsToSelect
        end in
      mkDialog (featureSet d) (targetCol d) cols colsToSelect' (colFilter d) (results d)
  end.

Section Visible.

(** [String.prototype.toLowerCase] is a built-in of the host, which lowers
    every cased letter of Unicode; the dialog only compares its results. *)
Variable toLowerCase : string -> string.

Definition getVisibleColumns (d : Dialog) : list string :=
  let cols := filter (fun c => negb (String.eqb c (targetCol d))) (availableColumns d) in
  if String.eqb (colFilter d) "" then cols
  else filter (fun c => str_includes (toLowerCase c) (toLowerCase (colFilter d))) cols.

Definition setSelectedCols (v : list string) (d : Dialog) : Dialog :=
  mkDialog (featureSet d) (targetCol d) (availableColumns d) v (colFilter d) (results d).

Definition setTargetCol (v : string) (d : Dialog) : Dialog :=
  mkDialog (featureSet d) v (availableColumns d) (selectedCols d) (colFilter d) (results d).

Definition setResults (v : list JsObj) (d : Dialog) : Dialog :=
  mkDialog (featureSet d) (targetCol d) (availableColumns d) (selectedCols d) (colFilter d) v.

Definition toggleAll (checked : bool) (d : Dialog) : Dialog :=
  if checked then setSelectedCols (getVisibleColumns d) d else setSelectedCols [] d.

End Visible.

Definition toggleCol (col : string) (d : Dialog) : Dialog :=
  setSelectedCols
    (if includes (selectedCols d) col
     then filter (fun c => negb (String.eqb c col)) (selectedCols d)
     else selectedCols d ++ [col])
    d.

(** "Save Selection" of the analysis dialog. *)
Definition handleSaveFeatures (d : Dialog) : option Request :=
  match featureSet d with
  | None => None
  | Some fs =>
      match selectedCols d with
      | [] => None
      | _ :: _ =>
          Some (mkRequest PUT
                  ("/features/sets/" ++ js_to_string (Api.id fs))%string
                  [("active_features", strings (selectedCols d));
                   ("target_column", JStr (targetCol d))])
      end
  end.

End Analysis.

(* ===================================================================== *)
(** ** The pipeline engine behind the registry *)
(* ===================================================================== *)

(** The executor, the op catalog and the auto-generator run on the server;
    the dialogs above only call them.  Their definitions here follow the
    system specification. *)
Module Engine.

(** *** Pipeline executor and registry *)

Section Executor.

(** The table artifact, the step records and the failure reasons, with the op
    catalog as one function from a table and a step to the next table or the
    reason the step cannot run. *)
Variables (Table Step Reason : Type).
Variable apply_step : Table -> Step -> Table + Reason.

(** Modelled from the spec: the result of the executor, which is not part of
    the dashboard sources: "[Materialization | Error(step_index, reason)]". *)
Inductive Outcome : Type :=
| Materialization (t : Table)
| Error (step_index : nat) (reason : Reason).

(** Modelled from the spec: the executor of the registry is not part of the
    dashboard sources.  "Runs steps strictly in order, single pass, no
    retries of individual steps.  On any step failure execution aborts",
    answering [Error(step_index, reason)]. *)
Fixpoint execute_from (i : nat) (t : Table) (steps : list Step) : Outcome :=
  match steps with
  | [] => Materialization t
  | s :: rest =>
      match apply_step t s with
      | inl t' => execute_from (S i) t' rest
      | inr reason => Error i reason
      end
  end.

(** Modelled from the spec: "[execute(snapshot, steps) -> Materialization |
    Error(step_index, reason)]", the executor's entry point, with steps
    counted from 0. *)
Definition execute (snapshot : Table) (steps : list Step) : Outcome :=
  execute_from 0 snapshot steps.

(** The table after steps that all succeed, [None] when one of them fails:
    what [execute_from] computes, without the index. *)
Fixpoint run_steps (t : Table) (steps : list Step) : option Table :=
  match steps with
  | [] => Some t
  | s :: rest =>
      match apply_step t s with
      | inl t' => run_steps t' rest
      | inr _ => None
      end
  end.

(** Modelled from the spec: the registry entry, "a versioned binding between
    a dataset snapshot, its step list, its materialized table, and
    user-selected active features/target". *)
Record FeatureSet : Type := mkFeatureSet {
  dataset_snapshot : Table;
  steps : list Step;
  materialization : option Table;
  active_features : list string;
  target_column : option string
}.

(** Modelled from the spec: [update] of the registry with a step list,
    "re-run the Executor against the original snapshot and replace the
    Materialization wholesale"; the registry "never commits a failed run". *)
Definition update_steps (fs : FeatureSet) (new_steps : list Step)
  : FeatureSet * option (nat * Reason) :=
  match execute (dataset_snapshot fs) new_steps with
  | Materialization m =>
      (mkFeatureSet (dataset_snapshot fs) new_steps (Some m)
         (active_features fs) (target_column fs), None)
  | Error i reason => (fs, Some (i, reason))
  end.

End Executor.

Arguments Materialization {Table Reason} t.
Arguments Error {Table Reason} step_index reason.
Arguments mkFeatureSet {Table Step}.
Arguments dataset_snapshot {Table Step}.
Arguments steps {Table Step}.
Arguments materialization {Table Step}.
Arguments active_features {Table Step}.
Arguments target_column {Table Step}.
Arguments execute_from {Table Step Reason}.
Arguments execute {Table Step Reason}.
Arguments run_steps {Table Step Reason}.
Arguments update_steps {Table Step Reason}.

(** *** Tables *)

(** Modelled from the spec: the cells of "a row/column table" of numbers,
    dates (as numbers) and strings, with missing values; tables are stored
    on the server. *)
Inductive Cell : Type :=
| Missing
| Num (q : Q)
| Text (s : string).

(** A row gives a cell to each column it names; the others are missing. *)
Definition Row : Type := list (string * Cell).

Fixpoint cell (r : Row) (c : string) : Cell :=
  match r with
  | [] => Missing
  | (c', v) :: r' => if String.eqb c' c then v else cell r' c
  end.

Definition cell_eqb (a b : Cell) : bool :=
  match a, b with
  | Missing, Missing => true
  | Num x, Num y => Qeq_bool x y
  | Text s, Text t => String.eqb s t
  | _, _ => false
  end.

(** [a < b] on rationals. *)
Definition Qlt_bool (a b : Q) : bool := negb (Qle_bool b a).

(** *** A fragment of the op catalog *)

(** Modelled from the spec: a table, its column names and its rows. *)
Record Table : Type := mkTable {
  header : list string;
  rows : list Row
}.

(** Modelled from the spec: "[TransformationStep]:
    [{op: OpKind, col_or_cols, args: map<string, value>}]", for the ops of
    the fragment below, which take one column. *)
Record TransformationStep : Type := mkTransformationStep {
  op : string;
  col : string;
  args : list (string * Cell)
}.

(** Modelled from the spec: the step failures of the executor, "missing
    column, invalid op, invalid expression, malformed args". *)
Inductive Reason : Type :=
| MissingColumn (c : string)
| InvalidOp (name : string)
| InvalidExpression
| MalformedArgs.

Fixpoint set_cell (c : string) (v : Cell) (r : Row) : Row :=
  match r with
  | [] => [(c, v)]
  | (c', v') :: r' =>
      if String.eqb c' c then (c', v) :: r' else (c', v') :: set_cell c v r'
  end.

Definition map_column (f : Cell -> Cell) (c : string) (t : Table) : Table :=
  mkTable (header t) (map (fun r => set_cell c (f (cell r c)) r) (rows t)).

(** Modelled from the spec: two ops of the catalog, which is not part of the
    dashboard sources: [fillna(col, value)], "replace missing with
    [value]", and [clip(col, lower, upper)], "clamp to range".  A step on a
    column the table does not have fails with a missing-column error, a
    step whose arguments are not the numbers the op needs is malformed, and
    a name outside this fragment is answered as an invalid op. *)
Definition apply_op (t : Table) (s : TransformationStep) : Table + Reason :=
  if String.eqb (op s) "fillna" then
    if negb (existsb (String.eqb (col s)) (header t)) then inr (MissingColumn (col s))
    else
      match cell (args s) "value" with
      | Num v =>
          inl (map_column (fun x => match x with Missing => Num v | _ => x end) (col s) t)
      | _ => inr MalformedArgs
      end
  else if String.eqb (op s) "clip" then
    if negb (existsb (String.eqb (col s)) (header t)) then inr (MissingColumn (col s))
    else
      match cell (args s) "lower", cell (args s) "upper" with
      | Num lo, Num hi =>
          inl (map_column
                 (fun x =>
                    match x with
                    | Num q => if Qlt_bool q lo then Num lo
                               else if Qlt_bool hi q then Num hi else Num q
                    | _ => x
                    end)
                 (col s) t)
      | _, _ => inr MalformedArgs
      end
  else inr (InvalidOp (op s)).

(** *** groupby_agg *)

Section GroupByAgg.

(** The aggregate [func] (mean, max, min, std, count) of the observed values
    of a window, as the numeric library computes it. *)
Variable aggregate : string -> list Q -> Cell.

(** Modelled from the spec: a composite key is "AND-matched": two rows are
    in one group when they agree on every grouping column. *)
Definition same_group (group_col : list string) (r r' : Row) : bool :=
  forallb (fun g => cell_eqb (cell r g) (cell r' g)) group_col.

(** Modelled from the spec: "[date_col] strictly earlier than the row's own
    [date_col]"; dates are compared as numbers. *)
Definition strictly_earlier (date_col : string) (r' r : Row) : bool :=
  match cell r' date_col, cell r date_col with
  | Num a, Num b => Qlt_bool a b
  | _, _ => false
  end.

(** Modelled from the spec: "values of [cols] outside
    [[threshold_min, threshold_max]] are treated as missing before
    aggregation (rows are not dropped)". *)
Definition observed (threshold_min threshold_max : option Q) (v : Cell) : option Q :=
  match v with
  | Num q =>
      let above := match threshold_min with Some lo => Qle_bool lo q | None => true end in
      let below := match threshold_max with Some hi => Qle_bool q hi | None => true end in
      if above && below then Some q else None
  | _ => None
  end.

Fixpoint observed_values (threshold_min threshold_max : option Q)
    (col : string) (rows : list Row) : list Q :=
  match rows with
  | [] => []
  | r :: rest =>
      match observed threshold_min threshold_max (cell r col) with
      | Some q => q :: observed_values threshold_min threshold_max col rest
      | None => observed_values threshold_min threshold_max col rest
      end
  end.

(** Modelled from the spec: the rows a row's aggregate is taken over: its
    whole group when [date_col] is absent, and with [date_col] only "rows of
    the same group with [date_col] strictly earlier". *)
Definition window (group_col : list string) (date_col : option string)
    (table : list Row) (r : Row) : list Row :=
  filter (fun r' =>
            same_group group_col r r'
            && match date_col with
               | Some d => strictly_earlier d r' r
               | None => true
               end)
         table.

(** Modelled from the spec: the aggregate of one row, taken over the
    observed values of [col] in the row's window. *)
Definition row_aggregate (col : string) (group_col : list string) (func : string)
    (date_col : option string) (threshold_min threshold_max : option Q)
    (table : list Row) (r : Row) : Cell :=
  aggregate func
    (observed_values threshold_min threshold_max col (window group_col date_col table r)).

(** Modelled from the spec: the column [groupby_agg] computes for [col], one
    cell per row in row order. *)
Definition groupby_agg (col : string) (group_col : list string) (func : string)
    (date_col : option string) (threshold_min threshold_max : option Q)
    (table : list Row) : list Cell :=
  map (row_aggregate col group_col func date_col threshold_min threshold_max table) table.

End GroupByAgg.

(** Modelled from the spec: what "rows of the same group" says of two rows,
    whatever test the engine uses for it: on every grouping column both are
    missing, or hold equal numbers, or hold the same text. *)
Definition same_cell (a b : Cell) : Prop :=
  match a, b with
  | Missing, Missing => True
  | Num x, Num y => (x == y)%Q
  | Text s, Text t => s = t
  | _, _ => False
  end.

Definition in_same_group (group_col : list string) (r r' : Row) : Prop :=
  forall g, In g group_col -> same_cell (cell r g) (cell r' g).

(** Modelled from the spec: "[date_col] strictly earlier": both rows are
    dated and the date of [r'] is below that of [r]. *)
Definition dated_before (date_col : string) (r' r : Row) : Prop :=
  exists a b, cell r' date_col = Num a /\ cell r date_col = Num b /\ (a < b)%Q.

(** A row put in front of position [i]. *)
Definition insert_row (i : nat) (x : Row) (table : list Row) : list Row :=
  firstn i table ++ x :: skipn i table.

(** Where the row at position [j] is after an insertion in front of
    position [i]. *)
Definition shifted (i j : nat) : nat := if (j <? i)%nat then j else S j.

(** *** Auto-generation pruning *)

Section Pruning.

(** A generated column with the two statistics pruning looks at. *)
Variable Column : Type.
Variable variance : Column -> Q.
Variable abs_correlation : Column -> Column -> Q.

(** Modelled from the spec: "drop any generated column whose variance is
    below [variance_threshold] (including always dropping exact-zero-variance
    columns regardless of threshold)". *)
Definition keeps_variance (variance_threshold : Q) (c : Column) : bool :=
  Qle_bool variance_threshold (variance c) && negb (Qeq_bool (variance c) 0).

(** Modelled from the spec: the test of the second pruning pass, "absolute
    pairwise correlation with an already-kept column exceeds
    [correlation_threshold]". *)
Definition correlated (correlation_threshold : Q) (kept : list Column) (c : Column) : bool :=
  existsb (fun k => Qlt_bool correlation_threshold (abs_correlation k c)) kept.

(** Modelled from the spec: "iterating kept columns in generation order, drop
    any later column whose absolute pairwise correlation with an
    already-kept column exceeds [correlation_threshold]". *)
Fixpoint correlation_pass (correlation_threshold : Q) (kept cols : list Column)
  : list Column :=
  match cols with
  | [] => kept
  | c :: rest =>
      if correlated correlation_threshold kept c
      then correlation_pass correlation_threshold kept rest
      else correlation_pass correlation_threshold (kept ++ [c]) rest
  end.

(** Modelled from the spec: pruning of the auto-generator, which is not part
    of the dashboard sources: the variance rule first, "then" the
    correlation rule over the columns it kept, in generation order. *)
Definition prune (variance_threshold correlation_threshold : Q) (generated : list Column)
  : list Column :=
  correlation_pass correlation_threshold []
    (filter (keeps_variance variance_threshold) generated).

End Pruning.

End Engine.

(* ===================================================================== *)
(** ** Concrete data used to exercise the definitions *)
(* ===================================================================== *)

Module Samples.
Import Js.

Definition quote_char : ascii := ascii_of_nat 34.

Definition hex_digit (n : nat) : ascii :=
  if (n <? 10)%nat then ascii_of_nat (48 + n) else ascii_of_nat (87 + n).

(** A character inside a JSON string literal. *)
Definition json_escape (c : ascii) : string :=
  let n := nat_of_ascii c in
  if Nat.eqb n 34 then String "\" (String quote_char "")
  else if Nat.eqb n 92 then "\\"
  else if Nat.eqb n 8 then "\b"
  else if Nat.eqb n 9 then "\t"
  else if Nat.eqb n 10 then "\n"
  else if Nat.eqb n 12 then "\f"
  else if Nat.eqb n 13 then "\r"
  else if (n <? 32)%nat then
    ("\u00" ++ String (hex_digit (n / 16)) (String (hex_digit (n mod 16)) ""))%string
  else String c "".

Fixpoint json_chars (s : string) : string :=
  match s with
  | String c s' => (json_escape c ++ json_chars s')%string
  | EmptyString => ""
  end.

Definition json_string (s : string) : string :=
  (String quote_char (json_chars s) ++ String quote_char "")%string.

(** The text [JSON.stringify] gives for a value in an array or property
    position: [undefined] and [NaN] read [null] in an array, and a property
    holding [undefined] is left out. *)
Fixpoint json_value (v : JVal) : string :=
  match v with
  | JUndefined | JNull | JNaN => "null"
  | JBool true => "true"
  | JBool false => "false"
  | JNum z => string_of_Z z
  | JStr s => json_string s
  | JArr items =>
      ("[" ++
       (fix elements (first : bool) (l : list JVal) : string :=
          match l with
          | [] => ""
          | x :: rest =>
              (if first then "" else ",") ++ json_value x ++ elements false rest
          end) true items
       ++ "]")%string
  | JObj fields =>
      ("{" ++
       (fix members (first : bool) (l : list (string * JVal)) : string :=
          match l with
          | [] => ""
          | (_, JUndefined) :: rest => members first rest
          | (k, x) :: rest =>
              (if first then "" else ",") ++ json_string k ++ ":" ++ json_value x
              ++ members false rest
          end) true fields
       ++ "}")%string
  end.

Definition JSON_stringify (o : JsObj) : string := json_value (JObj o).

(** Ids in the order they are drawn. *)
Definition random_id (n : nat) : string := ("id" ++ string_of_Z (Z.of_nat n))%string.

Definition log_step : Workflow.Step :=
  Workflow.mkStep "k3x9" (JStr "log") [JStr "price"; JStr "volume"] [].

Definition lag_step : Workflow.Step :=
  Workflow.mkStep "p0q1" (JStr "lag") [JStr "price"]
    [("group_col", JStr "shop"); ("sort_col", JStr "day"); ("periods", JNum 1)].

(** The builder set up for lags 1 to 3 of [price] per shop, ordered by day. *)
Definition lag_dialog : Workflow.Dialog :=
  Workflow.mkDialog ["shop"; "day"; "price"; "volume"] "7" (JStr "v1")
    [log_step]
    (Workflow.mkNewOp "lag"
       [("group_col", JStr "shop"); ("sort_col", JStr "day"); ("max_lag", JStr "3")])
    ["price"] [] "" [] [] None false 1.

(** The builder set up to clip [price] and [volume]. *)
Definition clip_dialog : Workflow.Dialog :=
  Workflow.mkDialog ["shop"; "day"; "price"; "volume"] "7" (JStr "v1")
    [log_step]
    (Workflow.mkNewOp "clip" [("lower", JStr "-3"); ("upper", JStr "3")])
    ["price"; "volume"] [] "" [] [] None false 1.

(** The builder set up for a mean of [price] per shop, with two filter
    columns chosen. *)
Definition groupby_dialog : Workflow.Dialog :=
  Workflow.mkDialog ["shop"; "day"; "price"; "volume"; "region"] "7" (JStr "v1")
    []
    (Workflow.mkNewOp "groupby_agg"
       [("group_col", JStr "shop"); ("func", JStr "mean");
        ("group_filters", JArr [JStr "region"; JStr "day"])])
    ["price"] [] "" [] [] None false 0.

(** An editor with the caret after [total = ] and nothing dragged yet. *)
Definition editing : FormulaBuilder.Editor :=
  FormulaBuilder.mkEditor "total =  * 2" (Some (8, 8)%nat) None.

(** Three days of prices in two shops. *)
Definition prices : Engine.Table :=
  Engine.mkTable ["shop"; "day"; "price"]
    [[("shop", Engine.Text "north"); ("day", Engine.Num 1); ("price", Engine.Num 10)];
     [("shop", Engine.Text "south"); ("day", Engine.Num 1); ("price", Engine.Missing)];
     [("shop", Engine.Text "north"); ("day", Engine.Num 2); ("price", Engine.Num 20)];
     [("shop", Engine.Text "north"); ("day", Engine.Num 3); ("price", Engine.Num 30)]].

(** A row of the north shop dated after all the others, with an extreme
    price. *)
Definition future_row : Engine.Row :=
  [("shop", Engine.Text "north"); ("day", Engine.Num 9); ("price", Engine.Num 1000000)].

Definition fill_prices : Engine.TransformationStep :=
  Engine.mkTransformationStep "fillna" "price" [("value", Engine.Num 0)].

(** A clip on a column the table does not have. *)
Definition clip_volume : Engine.TransformationStep :=
  Engine.mkTransformationStep "clip" "volume"
    [("lower", Engine.Num 0); ("upper", Engine.Num 5)].

(** The registry entry of a feature set materialized with [fill_prices]. *)
Definition materialized_set : Engine.FeatureSet Engine.Table Engine.TransformationStep :=
  Engine.mkFeatureSet prices [fill_prices]
    (Engine.run_steps Engine.apply_op prices [fill_prices]) ["price"] None.

(** The funcs with an exact rational result; the others are the numeric
    library's. *)
Definition aggregate (func : string) (values : list Q) : Engine.Cell :=
  let total := fold_right Qplus 0%Q values in
  let n := Z.of_nat (List.length values) in
  if String.eqb func "count" then Engine.Num (inject_Z n)
  else
    match values with
    | [] => Engine.Missing
    | v :: rest =>
        if String.eqb func "mean" then Engine.Num (Qred (total / inject_Z n))
        else if String.eqb func "max" then
          Engine.Num (fold_right (fun a b => if Qle_bool a b then b else a) v rest)
        else if String.eqb func "min" then
          Engine.Num (fold_right (fun a b => if Qle_bool a b then a else b) v rest)
        else Engine.Missing
    end.

(** The statistics of three generated columns: [doubled] is twice [base], so
    their correlation is exactly 1; [flat] is constant. *)
Definition variance (c : string) : Q :=
  if String.eqb c "base" then 1%Q
  else if String.eqb c "doubled" then 4%Q
  else 0%Q.

Definition abs_correlation (a b : string) : Q :=
  if String.eqb a b then 1%Q
  else if (String.eqb a "base" && String.eqb b "doubled")
          || (String.eqb a "doubled" && String.eqb b "base") then 1%Q
  else 0%Q.

(** A stored feature set with one transformation, one active feature and a
    target. *)
Definition stored_set : Api.FeatureSet :=
  Api.mkFeatureSet (JNum 12) (JStr "sales") (JNum 7) (JStr "v1")
    (Some [[("op", JStr "log"); ("col", JStr "price")]])
    (Some ["price"]) (Some "sales").

(** The workflow dialog opened on [stored_set], its columns loaded, then, on
    the builder tab, [volume] selected and added under the default op. *)
Definition edited_dialog : Workflow.Dialog :=
  Workflow.addStep random_id
    (Workflow.setSelectedCols ["volume"]
       (Workflow.columnsLoaded ["price"; "volume"; "sales"]
          (Workflow.openDialog JSON_stringify random_id (Some stored_set)
             Workflow.initialDialog))).

(** A stored feature set for which neither active features nor a target
    were ever saved. *)
Definition fresh_set : Api.FeatureSet :=
  Api.mkFeatureSet (JNum 13) (JStr "sales") (JNum 7) (JStr "v2") None None None.

(** The workflow dialog opened on [fresh_set] with its columns loaded: every
    column starts active. *)
Definition fresh_dialog : Workflow.Dialog :=
  Workflow.columnsLoaded ["price"; "sales"]
    (Workflow.openDialog JSON_stringify random_id (Some fresh_set)
       Workflow.initialDialog).

(** A stored feature set with two active features and no target. *)
Definition untargeted_set : Api.FeatureSet :=
  Api.mkFeatureSet (JNum 14) (JStr "sales") (JNum 7) (JStr "v3") None
    (Some ["price"; "sales"]) None.

(** The analysis dialog opened on [untargeted_set], its columns fetched, then
    [sales] picked as target and an analysis run. *)
Definition analysed_dialog : Analysis.Dialog :=
  Analysis.setResults [[("feature", JStr "price")]; [("feature", JStr "sales")]]
    (Analysis.setTargetCol "sales"
       (Analysis.fetchColumns ["price"; "sales"]
          (Analysis.openDialog untargeted_set
             (Analysis.mkDialog None "" [] [] "" [])))).

End Samples.

(* ===================================================================== *)
(** ** FeatureWorkflowDialog.tsx: the remaining controls *)
(* ===================================================================== *)

(** The [groupby_agg] form: the "x" of a chosen filter column. *)
Module GroupFilters.
Import Js Api Workflow.

(** [handleArgChange("group_filters", current.filter(c => c !== f))] with
    [current = newOp.args.group_filters || []]; only an array has [filter],
    on anything else the handler throws and the state stays. *)
Definition removeGroupFilter (f : string) (d : Dialog) : Dialog :=
  match js_or (obj_get "group_filters" (newOp_args (newOp d))) (JArr []) with
  | JArr current =>
      handleArgChange "group_filters"
        (JArr (filter (fun c => negb (js_strict_eq c (JStr f))) current)) d
  | _ => d
  end.

End GroupFilters.

(** The row-filter editor of the manage tab: the inputs of one condition and
    its delete button. *)
Module RowFilter.
Import Js Api Workflow.

(** The own properties [{ ...v }] copies: those of an object, the indexed
    items of an array or a string, none of any other value. *)
Fixpoint indexed (i : nat) (items : list JVal) : JsObj :=
  match items with
  | [] => []
  | x :: rest => (string_of_Z (Z.of_nat i), x) :: indexed (S i) rest
  end.

Definition spread_props (v : JVal) : JsObj :=
  match v with
  | JObj o => obj_spread [] o
  | JArr items => indexed 0 items
  | JStr _ => match spread_items v with Some items => indexed 0 items | None => [] end
  | _ => []
  end.

(** [arr[i] = x]: an index past the end fills the gap with empty slots, which
    read [undefined]. *)
Definition array_set (i : nat) (x : JVal) (arr : list JVal) : list JVal :=
  if (i <? List.length arr)%nat then replace_at i x arr
  else arr ++ repeat JUndefined (i - List.length arr) ++ [x].

Fixpoint remove_at {A} (i : nat) (l : list A) : list A :=
  match l, i with
  | [], _ => []
  | _ :: l', O => l'
  | y :: l', S i' => y :: remove_at i' l'
  end.

(** The [onChange] of the three inputs of condition [idx], with [key] one of
    [col], [op], [val]:
    [updatedConds[idx] = { ...updatedConds[idx], [key]: value }] on a copy of
    the conditions of the first filter step. *)
Definition updateCondition (idx : nat) (key value : string) (d : Dialog) : Dialog :=
  match findIndex is_filter (pipelineSteps d) with
  | Some fIdx =>
      match nth_error (pipelineSteps d) fIdx with
      | Some step =>
          match spread_items (obj_get "conditions" (args step)) with
          | Some conds =>
              let updatedConds :=
                array_set idx
                  (JObj (obj_set key (JStr value) (spread_props (nth idx conds JUndefined))))
                  conds in
              setPipelineSteps
                (replace_at fIdx
                   (mkStep (id step) (op step) (cols step)
                      (obj_set "conditions" (JArr updatedConds) (args step)))
                   (pipelineSteps d))
                0 d
          | None => d
          end
      | None => d
      end
  | None => d
  end.

(** The delete button of condition [idx]:
    [conditions.filter((_, i) => i !== idx)], and the whole step is spliced
    out when no condition is left. *)
Definition removeCondition (idx : nat) (d : Dialog) : Dialog :=
  match findIndex is_filter (pipelineSteps d) with
  | Some fIdx =>
      match nth_error (pipelineSteps d) fIdx with
      | Some step =>
          match obj_get "conditions" (args step) with
          | JArr conds =>
              let updatedConds := remove_at idx conds in
              match updatedConds with
              | [] => setPipelineSteps (remove_at fIdx (pipelineSteps d)) 0 d
              | _ :: _ =>
                  setPipelineSteps
                    (replace_at fIdx
                       (mkStep (id step) (op step) (cols step)
                          (obj_set "conditions" (JArr updatedConds) (args step)))
                       (pipelineSteps d))
                    0 d
              end
          | _ => d
          end
      | None => d
      end
  | None => d
  end.

(** The conditions the editor shows: those of the first filter step. *)
Definition shownConditions (d : Dialog) : JVal :=
  match find is_filter (pipelineSteps d) with
  | Some filterStep => js_or (obj_get "conditions" (args filterStep)) (JArr [])
  | None => JArr []
  end.

End RowFilter.

(** The transfer list of the builder tab, which fills [selectedCols]. *)
Module BuilderTab.
Import Js.

Record Cells : Type := mkCells {
  columns : list string;
  selectedCols : list string;
  colFilter : string;
  builderLeftSelection : list string;
  builderRightSelection : list string
}.

Section Lists.

(** [String.prototype.toLowerCase], a built-in of the host. *)
Variable toLowerCase : string -> string.

(** The "Available" box: the columns not yet selected whose lower-cased name
    contains the lower-cased filter text. *)
Definition leftList (b : Cells) : list string :=
  filter (fun c => negb (includes (selectedCols b) c)
                   && str_includes (toLowerCase c) (toLowerCase (colFilter b)))
         (columns b).

Definition moveBuilderRight (b : Cells) : Cells :=
  mkCells (columns b) (selectedCols b ++ builderLeftSelection b) (colFilter b)
    [] (builderRightSelection b).

Definition moveBuilderLeft (b : Cells) : Cells :=
  mkCells (columns b)
    (filter (fun c => negb (includes (builderRightSelection b) c)) (selectedCols b))
    (colFilter b) (builderLeftSelection b) [].

Definition moveBuilderAllRight (b : Cells) : Cells :=
  mkCells (columns b) (selectedCols b ++ leftList b) (colFilter b)
    [] (builderRightSelection b).

Definition moveBuilderAllLeft (b : Cells) : Cells :=
  mkCells (columns b) [] (colFilter b) (builderLeftSelection b) [].

Definition toggleBuilderSelection (item : string) (listType : Workflow.ListType)
    (b : Cells) : Cells :=
  match listType with
  | Workflow.left =>
      mkCells (columns b) (selectedCols b) (colFilter b)
        (Workflow.toggle item (builderLeftSelection b)) (builderRightSelection b)
  | Workflow.right =>
      mkCells (columns b) (selectedCols b) (colFilter b)
        (builderLeftSelection b) (Workflow.toggle item (builderRightSelection b))
  end.

Definition setColFilter (v : string) (b : Cells) : Cells :=
  mkCells (columns b) (selectedCols b) v (builderLeftSelection b) (builderRightSelection b).

(** What the user can do on the transfer list. *)
Inductive Action : Type :=
| Toggle (item : string) (listType : Workflow.ListType)
| MoveRight
| MoveLeft
| MoveAllRight
| MoveAllLeft
| TypeFilter (text : string).

(** An item is clicked in the box that shows it; the single-move buttons are
    disabled on an empty selection. *)
Definition enabled (b : Cells) (a : Action) : bool :=
  match a with
  | Toggle item Workflow.left => includes (leftList b) item
  | Toggle item Workflow.right => includes (selectedCols b) item
  | MoveRight => negb (Nat.eqb (List.length (builderLeftSelection b)) 0)
  | MoveLeft => negb (Nat.eqb (List.length (builderRightSelection b)) 0)
  | MoveAllRight | MoveAllLeft | TypeFilter _ => true
  end.

Definition perform (b : Cells) (a : Action) : Cells :=
  if enabled b a then
    match a with
    | Toggle item listType => toggleBuilderSelection item listType b
    | MoveRight => moveBuilderRight b
    | MoveLeft => moveBuilderLeft b
    | MoveAllRight => moveBuilderAllRight b
    | MoveAllLeft => moveBuilderAllLeft b
    | TypeFilter text => setColFilter text b
    end
  else b.

Definition run (b : Cells) (actions : list Action) : Cells :=
  fold_left perform actions b.

End Lists.

End BuilderTab.

(** The auto-generation tab. *)
Module AutoTab.
Import Js Api.

Record Cells : Type := mkCells {
  columns : list string;
  selectedVersionId : string;
  currentFeatureSet : option FeatureSet;
  varianceThreshold : string;
  corrThreshold : string;
  includeArithmetic : bool;
  autoSelectedCols : list string;
  autoTargetCol : string;
  generationMethod : string;
  autoColFilter : string;
  autoLeftSelection : list string;
  autoRightSelection : list string
}.

Definition setAutoSelectedCols (v : list string) (left right : list string) (a : Cells)
  : Cells :=
  mkCells (columns a) (selectedVersionId a) (currentFeatureSet a) (varianceThreshold a)
    (corrThreshold a) (includeArithmetic a) v (autoTargetCol a) (generationMethod a)
    (autoColFilter a) left right.

Definition setAutoTargetCol (v : string) (a : Cells) : Cells :=
  mkCells (columns a) (selectedVersionId a) (currentFeatureSet a) (varianceThreshold a)
    (corrThreshold a) (includeArithmetic a) (autoSelectedCols a) v (generationMethod a)
    (autoColFilter a) (autoLeftSelection a) (autoRightSelection a).

Section Lists.

(** [String.prototype.toLowerCase], a built-in of the host. *)
Variable toLowerCase : string -> string.

(** The "Available" box: not the target, not yet selected, matching the
    filter text. *)
Definition leftList (a : Cells) : list string :=
  filter (fun c => negb (String.eqb c (autoTargetCol a))
                   && negb (includes (autoSelectedCols a) c)
                   && str_includes (toLowerCase c) (toLowerCase (autoColFilter a)))
         (columns a).

Definition moveAutoRight (a : Cells) : Cells :=
  setAutoSelectedCols (autoSelectedCols a ++ autoLeftSelection a) [] (autoRightSelection a) a.

Definition moveAutoLeft (a : Cells) : Cells :=
  setAutoSelectedCols
    (filter (fun c => negb (includes (autoRightSelection a) c)) (autoSelectedCols a))
    (autoLeftSelection a) [] a.

Definition moveAutoAllRight (a : Cells) : Cells :=
  setAutoSelectedCols (autoSelectedCols a ++ leftList a) [] (autoRightSelection a) a.

Definition moveAutoAllLeft (a : Cells) : Cells :=
  setAutoSelectedCols [] (autoLeftSelection a) [] a.

End Lists.

Section Submit.

(** [parseFloat] is a built-in of the host whose results are doubles; the
    request only carries them. *)
Variable parseFloat : string -> JVal.

(** "Generate Automatically (Append)". *)
Definition handleAutoSubmit (a : Cells) : option Request :=
  if String.eqb (selectedVersionId a) "" then None
  else
    Some (mkRequest POST "/features/auto-generate"
            [("dataset_version_id", parseInt_string (selectedVersionId a));
             ("feature_set_id",
              match currentFeatureSet a with Some fs => id fs | None => JUndefined end);
             ("variance_threshold", parseFloat (varianceThreshold a));
             ("correlation_threshold", parseFloat (corrThreshold a));
             ("include_arithmetic", JBool (includeArithmetic a));
             ("source_columns",
              match autoSelectedCols a with
              | _ :: _ => strings (autoSelectedCols a)
              | [] => JUndefined
              end);
             ("target_column", js_or (JStr (autoTargetCol a)) JUndefined);
             ("generation_method", JStr (generationMethod a))]).

End Submit.

End AutoTab.

(* ===================================================================== *)
(** ** Notions the properties are stated with *)
(* ===================================================================== *)

Module Notions.
Import Js Api.

(** What [const { op, col, ...args } = t] leaves in [args]. *)
Definition rest_of (t : JsObj) : JsObj := obj_remove "col" (obj_remove "op" t).

(** The groups an accumulator of [groupTransformations] stands for. *)
Definition groups_of (acc : Workflow.GroupAcc) : list Workflow.Step :=
  let '(grouped, cur, _) := acc in Workflow.close_group grouped cur.

(** The arguments of a step are an object that names neither [op] nor
    [col]. *)
Definition args_ok (s : Workflow.Step) : Prop :=
  obj_wf (Workflow.args s)
  /\ obj_has "op" (Workflow.args s) = false /\ obj_has "col" (Workflow.args s) = false.

(** What a flat record says to the server: its [op], its [col] and the JSON
    text of its remaining arguments. *)
Definition reading (JSON_stringify : JsObj -> string) (t : JsObj)
  : JVal * JVal * string :=
  (obj_get "op" t, obj_get "col" t, JSON_stringify (rest_of t)).

(** The number of filter steps of a pipeline. *)
Definition count_filters (steps : list Workflow.Step) : nat :=
  List.length (filter Workflow.is_filter steps).

(** A transfer list in good order: the right box has no duplicates and holds
    only existing columns, and the marked items of the left box are distinct
    existing columns that are not in the right box. *)
Definition transfer_ok (columns selected marked : list string) : Prop :=
  NoDup columns /\ NoDup selected /\ incl selected columns
  /\ NoDup marked /\ (forall x, In x marked -> In x columns /\ ~ In x selected).

(** The conditions of the first filter step, when they are an array. *)
Definition conditions_of (d : Workflow.Dialog) : option (list JVal) :=
  match find Workflow.is_filter (Workflow.pipelineSteps d) with
  | Some filterStep =>
      match obj_get "conditions" (Workflow.args filterStep) with
      | JArr conds => Some conds
      | _ => None
      end
  | None => None
  end.

End Notions.

(* ===================================================================== *)
(** ** More concrete data *)
(* ===================================================================== *)

Module MoreSamples.
Import Js.

(** [toLowerCase] on text whose letters are all ASCII, as the names below
    are: there the built-in lowers [A] to [Z] and keeps every other
    character. *)
Definition lower_char (c : ascii) : ascii :=
  let n := nat_of_ascii c in
  if (65 <=? n)%nat && (n <=? 90)%nat then ascii_of_nat (n + 32) else c.

Fixpoint toLowerCase (s : string) : string :=
  match s with
  | String c s' => String (lower_char c) (toLowerCase s')
  | EmptyString => EmptyString
  end.

(** A stored list: two logs in a row, then a lag. *)
Definition stored_list : list JsObj :=
  [[("op", JStr "log"); ("col", JStr "price")];
   [("op", JStr "log"); ("col", JStr "volume")];
   [("op", JStr "lag"); ("col", JStr "price"); ("periods", JNum 1)]].

(** The builder set up for a lag with a count of 0. *)
Definition lag_0_dialog : Workflow.Dialog :=
  Workflow.mkDialog ["shop"; "day"; "price"] "7" (JStr "v1")
    [Samples.log_step]
    (Workflow.mkNewOp "lag" [("max_lag", JStr "0")])
    ["price"] [] "" [] [] None false 1.

(** The [groupby_agg] form with a primary column and no filter chosen. *)
Definition groupby_form : Workflow.Dialog :=
  Workflow.mkDialog ["shop"; "day"; "price"; "region"] "7" (JStr "v1")
    []
    (Workflow.mkNewOp "groupby_agg" [("group_col", JStr "shop")])
    ["price"] [] "" [] [] None false 0.

(** The manage tab with every column put back to the left and [price]
    marked there. *)
Definition marked_dialog : Workflow.Dialog :=
  Workflow.toggleSelection "price" Workflow.left
    (Workflow.moveAllLeft Samples.fresh_dialog).

(** The builder's transfer list with one column selected and a filter
    typed. *)
Definition builder_cells : BuilderTab.Cells :=
  BuilderTab.mkCells ["shop"; "day"; "price"; "Price_eur"; "volume"] ["day"] "PRICE" [] [].

(** The auto tab with a target and nothing selected. *)
Definition auto_cells : AutoTab.Cells :=
  AutoTab.mkCells ["shop"; "day"; "price"; "sales"] "7" None "0.0" "0.95" false
    [] "sales" "arithmetic" "" [] [].

(** The analysis dialog on [stored_set] with its columns fetched and a filter
    typed. *)
Definition filtered_analysis : Analysis.Dialog :=
  Analysis.mkDialog (Some Samples.stored_set) "sales"
    ["price"; "Price_eur"; "volume"; "sales"] ["price"] "PRICE" [].

(** A pipeline with a filter step of two conditions between two other
    steps, shown on the manage tab. *)
Definition filter_step : Workflow.Step :=
  Workflow.mkStep "f1l7" (JStr "filter") []
    [("conditions",
      JArr [JObj [("col", JStr "shop"); ("op", JStr "eq"); ("val", JStr "north")];
            JObj [("col", JStr "day"); ("op", JStr "gte"); ("val", JStr "")]])].

Definition filtering_dialog : Workflow.Dialog :=
  Workflow.mkDialog ["shop"; "day"; "price"] "7" (JStr "v1")
    [Samples.log_step; filter_step; Samples.lag_step]
    (Workflow.mkNewOp "log" []) [] ["price"] "" [] [] (Some Samples.stored_set) true 3.

(** An editor with [old] selected in the expression. *)
Definition selecting : FormulaBuilder.Editor :=
  FormulaBuilder.mkEditor "a + old + b" (Some (4, 7)%nat) (Some "`new`").

End MoreSamples.

(* ===================================================================== *)
(** * Properties *)
(* ===================================================================== *)

Module JsFacts.
Import Js.


Lemma obj_has_In k o : obj_has k o = true <-> In k (keys o).
Proof.
  induction o as [|[k' v] o IH]; simpl.
  - split; [discriminate | tauto].
  - rewrite orb_true_iff, IH, String.eqb_eq. tauto.
Qed.

Lemma obj_has_false_In k o : obj_has k o = false <-> ~ In k (keys o).
Proof.
  rewrite <- obj_has_In. destruct (obj_has k o); split; congruence.
Qed.

Lemma obj_set_new k v o :
  obj_has k o = false -> obj_set k v o = o ++ [(k, v)].
Proof.
  induction o as [|[k' v'] o IH]; simpl; intros H; [reflexivity|].
  apply orb_false_iff in H as [H1 H2].
  rewrite H1, IH by assumption. reflexivity.
Qed.

Lemma obj_has_app k o1 o2 : obj_has k (o1 ++ o2) = obj_has k o1 || obj_has k o2.
Proof.
  induction o1 as [|[k' v'] o1 IH]; simpl; [reflexivity|].
  rewrite IH, orb_assoc. reflexivity.
Qed.

(** Spreading an object with distinct keys, none of which is already defined,
    appends it. *)
Lemma obj_spread_fresh ext : forall base,
  obj_wf ext ->
  (forall k, In k (keys ext) -> obj_has k base = false) ->
  obj_spread base ext = base ++ ext.
Proof.
  unfold obj_spread, obj_wf.
  induction ext as [|[k v] ext IH]; intros base Hwf Hfresh; simpl.
  - now rewrite app_nil_r.
  - simpl in Hwf. inversion Hwf as [|? ? Hk Hrest]; subst.
    rewrite obj_set_new by (apply Hfresh; simpl; auto).
    rewrite IH; [now rewrite <- app_assoc| assumption |].
    intros k' Hin. rewrite obj_has_app, Hfresh by (simpl; auto). simpl.
    rewrite orb_false_r. apply String.eqb_neq. intros ->. contradiction.
Qed.

Lemma obj_remove_absent k o : obj_has k o = false -> obj_remove k o = o.
Proof.
  induction o as [|[k' v'] o IH]; simpl; intros H; [reflexivity|].
  apply orb_false_iff in H as [H1 H2].
  rewrite H1; simpl. now rewrite IH.
Qed.

Lemma obj_get_absent k o : obj_has k o = false -> obj_get k o = JUndefined.
Proof.
  induction o as [|[k' v'] o IH]; simpl; intros H; [reflexivity|].
  apply orb_false_iff in H as [H1 H2]. rewrite H1. auto.
Qed.

Lemma obj_get_set_same k v o : obj_get k (obj_set k v o) = v.
Proof.
  induction o as [|[k' v'] o IH]; simpl.
  - now rewrite String.eqb_refl.
  - destruct (String.eqb k' k) eqn:E; simpl; rewrite E; auto.
Qed.

Lemma obj_get_set_other k k' v o :
  k' <> k -> obj_get k (obj_set k' v o) = obj_get k o.
Proof.
  intros Hne. induction o as [|[k0 v0] o IH]; simpl.
  - apply String.eqb_neq in Hne. now rewrite Hne.
  - destruct (String.eqb k0 k') eqn:E; simpl.
    + apply String.eqb_eq in E; subst k0.
      apply String.eqb_neq in Hne. now rewrite Hne.
    + now rewrite IH.
Qed.

Lemma js_strict_eq_string s : js_strict_eq (JStr s) (JStr s) = true.
Proof. simpl. apply String.eqb_refl. Qed.

Lemma obj_spread_nil o : obj_wf o -> obj_spread [] o = o.
Proof.
  intros Hwf. rewrite obj_spread_fresh; auto.
Qed.

End JsFacts.

(* ===================================================================== *)
(** ** Flattening and grouping of pipeline steps *)
(* ===================================================================== *)

Module FlattenFacts.
Import Js Api Workflow JsFacts.

Lemma flatTransformations_app s1 s2 :
  flatTransformations (s1 ++ s2) = flatTransformations s1 ++ flatTransformations s2.
Proof. unfold flatTransformations. apply flat_map_app. Qed.

Lemma flatTransformations_pairs steps :
  flatTransformations steps
  = map (fun p => flat_record (fst p) (snd p)) (step_col_pairs steps).
Proof.
  unfold flatTransformations, step_col_pairs.
  induction steps as [|s steps IH]; simpl; [reflexivity|].
  rewrite map_app, map_map, IH. reflexivity.
Qed.

Lemma flatTransformations_length steps :
  List.length (flatTransformations steps)
  = list_sum (map (fun s => List.length (cols s)) steps).
Proof.
  unfold flatTransformations.
  induction steps as [|s steps IH]; simpl; [reflexivity|].
  rewrite length_app, length_map, IH. reflexivity.
Qed.

Lemma flatTransformations_skip_empty pre s post :
  cols s = [] ->
  flatTransformations (pre ++ s :: post) = flatTransformations (pre ++ post).
Proof.
  intros Hs. rewrite !flatTransformations_app.
  unfold flatTransformations at 2. simpl. rewrite Hs. reflexivity.
Qed.

(** Both submitters read the pipeline through its flattening only. *)
Lemma submitters_read_the_flattening steps n d :
  flatTransformations steps = flatTransformations (pipelineSteps d) ->
  handleBuilderSubmit (setPipelineSteps steps n d) = handleBuilderSubmit d
  /\ handleSaveActiveFeatures (setPipelineSteps steps n d) = handleSaveActiveFeatures d.
Proof.
  intros H. unfold handleBuilderSubmit, handleSaveActiveFeatures.
  cbn [setPipelineSteps selectedVersionId currentFeatureSet pipelineSteps builderVersionTag
       activeFeatureSelection activeTargetCol].
  rewrite H. split; reflexivity.
Qed.

Lemma handleBuilderSubmit_sends d :
  selectedVersionId d <> "" ->
  exists r,
    handleBuilderSubmit d = Some r
    /\ obj_get "transformations" (body r) = objects (flatTransformations (pipelineSteps d)).
Proof.
  intros Hv. apply String.eqb_neq in Hv. unfold handleBuilderSubmit. rewrite Hv.
  destruct (currentFeatureSet d); eexists; split; reflexivity.
Qed.

Lemma handleSaveActiveFeatures_sends d fs :
  currentFeatureSet d = Some fs ->
  exists r,
    handleSaveActiveFeatures d = Some r
    /\ obj_get "transformations" (body r) = objects (flatTransformations (pipelineSteps d)).
Proof.
  intros Hfs. unfold handleSaveActiveFeatures. rewrite Hfs.
  eexists; split; reflexivity.
Qed.

(** C8: the flattening both submitters perform yields one record per
    (step, column) pair, step by step and column by column.  Each submitter
    sends that list whenever it sends a request: [handleBuilderSubmit] once
    a dataset version is chosen, [handleSaveActiveFeatures] once a feature
    set is being edited.  A step without columns yields no record, so the
    request is the one the pipeline without that step gives; the filter step
    that "Add Global Filter" creates is such a step, and both requests are
    what they were before it was added. *)
Theorem flatten_one_record_per_step_column :
  (forall steps,
      flatTransformations steps
      = map (fun p => flat_record (fst p) (snd p)) (step_col_pairs steps)
      /\ List.length (flatTransformations steps)
         = list_sum (map (fun s => List.length (cols s)) steps))
  /\ (forall d,
         selectedVersionId d <> "" ->
         exists r,
           handleBuilderSubmit d = Some r
           /\ obj_get "transformations" (body r)
              = objects (flatTransformations (pipelineSteps d)))
  /\ (forall d fs,
         currentFeatureSet d = Some fs ->
         exists r,
           handleSaveActiveFeatures d = Some r
           /\ obj_get "transformations" (body r)
              = objects (flatTransformations (pipelineSteps d)))
  /\ (forall d pre s post,
         pipelineSteps d = pre ++ s :: post ->
         cols s = [] ->
         flatTransformations (pipelineSteps d) = flatTransformations (pre ++ post)
         /\ handleBuilderSubmit d = handleBuilderSubmit (setPipelineSteps (pre ++ post) 0 d)
         /\ handleSaveActiveFeatures d
            = handleSaveActiveFeatures (setPipelineSteps (pre ++ post) 0 d))
  /\ (forall random_id d,
         findIndex is_filter (pipelineSteps d) = None ->
         exists f,
           pipelineSteps (addGlobalFilter random_id d) = f :: pipelineSteps d
           /\ op f = JStr "filter" /\ cols f = []
           /\ flatTransformations (pipelineSteps (addGlobalFilter random_id d))
              = flatTransformations (pipelineSteps d)
           /\ handleBuilderSubmit (addGlobalFilter random_id d) = handleBuilderSubmit d
           /\ handleSaveActiveFeatures (addGlobalFilter random_id d)
              = handleSaveActiveFeatures d).
Proof.
  split; [|split; [|split; [|split]]].
  - intros steps. split.
    + apply flatTransformations_pairs.
    + apply flatTransformations_length.
  - apply handleBuilderSubmit_sends.
  - apply handleSaveActiveFeatures_sends.
  - intros d pre s post Hsteps Hs.
    assert (H : flatTransformations (pre ++ post) = flatTransformations (pipelineSteps d))
      by (rewrite Hsteps; symmetry; now apply flatTransformations_skip_empty).
    destruct (submitters_read_the_flattening (pre ++ post) 0 d H) as [H1 H2].
    repeat split; congruence.
  - intros random_id d Hnone. unfold addGlobalFilter. rewrite Hnone.
    eexists. split; [reflexivity|]. split; [reflexivity|]. split; [reflexivity|].
    split; [reflexivity|]. now apply submitters_read_the_flattening.
Qed.

(** On a pipeline of one step on two columns, with a feature set being
    edited: "Add Global Filter" then "Save Selection" still sends the two
    records of that step and nothing for the filter. *)
Lemma flatten_one_record_per_step_column_sample :
  exists r,
    handleSaveActiveFeatures
      (addGlobalFilter Samples.random_id Samples.edited_dialog) = Some r
    /\ handleBuilderSubmit
         (addGlobalFilter Samples.random_id Samples.edited_dialog)
       = handleBuilderSubmit Samples.edited_dialog
    /\ obj_get "transformations" (body r)
       = objects [[("op", JStr "log"); ("col", JStr "price")];
                  [("op", JStr "log"); ("col", JStr "volume")]].
Proof.
  destruct flatten_one_record_per_step_column as (_ & _ & Hsave & _ & Hfilter).
  destruct (Hfilter Samples.random_id Samples.edited_dialog eq_refl)
    as (f & _ & _ & _ & _ & Hb & Hs).
  destruct (Hsave Samples.edited_dialog Samples.stored_set eq_refl) as (r & Hr & Ht).
  exists r. split; [now rewrite Hs|]. split; [exact Hb|]. rewrite Ht. reflexivity.
Defined.

Section Grouping.

Variable JSON_stringify : JsObj -> string.
Variable random_id : nat -> string.

(** The flat record of a well-formed step is the two reserved properties
    followed by the arguments. *)
Lemma flat_record_wf s c :
  step_wf s -> flat_record s c = ("op", op s) :: ("col", c) :: args s.
Proof.
  intros (_ & Hwf & Hop & Hcol). unfold flat_record.
  rewrite obj_spread_fresh; [reflexivity | assumption |].
  intros k Hin. apply obj_has_In in Hin.
  change (obj_has k [("op", op s); ("col", c)])
    with (String.eqb "op" k || (String.eqb "col" k || false)).
  rewrite orb_false_r. apply orb_false_iff.
  split; apply String.eqb_neq; intros <-; congruence.
Qed.

Lemma destructure_flat_record s c :
  step_wf s ->
  obj_get "op" (flat_record s c) = op s
  /\ obj_get "col" (flat_record s c) = c
  /\ obj_remove "col" (obj_remove "op" (flat_record s c)) = args s.
Proof.
  intros Hwf. rewrite (flat_record_wf s c Hwf).
  destruct Hwf as (_ & _ & Hop & Hcol).
  repeat split; try reflexivity.
  simpl. rewrite (obj_remove_absent "op") by assumption.
  simpl. now rewrite (obj_remove_absent "col").
Qed.

Lemma group_step_joins grouped g n t :
  isMatch JSON_stringify (Some g) (obj_get "op" t)
    (obj_remove "col" (obj_remove "op" t)) = true ->
  group_step JSON_stringify random_id (grouped, Some g, n) t
  = (grouped, Some (mkStep (id g) (op g) (cols g ++ [obj_get "col" t]) (args g)), n).
Proof. intros H. unfold group_step. rewrite H. reflexivity. Qed.

Lemma group_step_opens grouped cur n t :
  isMatch JSON_stringify cur (obj_get "op" t)
    (obj_remove "col" (obj_remove "op" t)) = false ->
  group_step JSON_stringify random_id (grouped, cur, n) t
  = (close_group grouped cur,
     Some (mkStep (random_id n) (obj_get "op" t) [obj_get "col" t]
             (obj_remove "col" (obj_remove "op" t))),
     S n).
Proof. intros H. unfold group_step. rewrite H. reflexivity. Qed.

(** The records of one step, met while a group with its [op] and [args] is
    open, all join that group. *)
Lemma group_step_same s : step_wf s ->
  forall cs g grouped n,
    op g = op s -> args g = args s ->
    fold_left (group_step JSON_stringify random_id) (map (flat_record s) cs)
      (grouped, Some g, n)
    = (grouped, Some (mkStep (id g) (op g) (cols g ++ cs) (args g)), n).
Proof.
  intros Hwf. induction cs as [|c cs IH]; intros g grouped n Hop Hargs.
  - cbn [map fold_left]. rewrite app_nil_r. destruct g; reflexivity.
  - cbn [map fold_left].
    destruct (destructure_flat_record s c Hwf) as (E1 & E2 & E3).
    rewrite group_step_joins.
    + rewrite IH by assumption. cbn [id op cols args].
      rewrite E2, <- app_assoc. reflexivity.
    + rewrite E1, E3. unfold isMatch. rewrite Hop, Hargs, String.eqb_refl.
      destruct Hwf as ((o & ->) & _). now rewrite js_strict_eq_string.
Qed.

Lemma group_steps steps :
  Forall step_wf steps ->
  Forall (fun s => cols s <> []) steps ->
  adjacent_distinct JSON_stringify steps = true ->
  forall grouped cur n,
    match cur, steps with
    | Some g, s :: _ => isMatch JSON_stringify (Some g) (op s) (args s) = false
    | _, _ => True
    end ->
    exists grouped' cur',
      fold_left (group_step JSON_stringify random_id) (flatTransformations steps)
        (grouped, cur, n)
      = (grouped', cur', n + List.length steps)
      /\ map content (close_group grouped' cur')
         = map content (close_group grouped cur) ++ map content steps.
Proof.
  induction steps as [|s rest IH]; intros Hwf Hne Hadj grouped cur n Hcur.
  - exists grouped, cur. simpl. rewrite Nat.add_0_r, app_nil_r. auto.
  - inversion Hwf as [|? ? Hs Hrest]; subst.
    inversion Hne as [|? ? Hcs Hnerest]; subst.
    destruct (cols s) as [|c cs] eqn:Ecols; [congruence|].
    change (flatTransformations (s :: rest))
      with (map (flat_record s) (cols s) ++ flatTransformations rest).
    rewrite Ecols, fold_left_app. cbn [map fold_left].
    destruct (destructure_flat_record s c Hs) as (E1 & E2 & E3).
    rewrite group_step_opens.
    2:{ rewrite E1, E3. destruct cur; [exact Hcur | reflexivity]. }
    rewrite E1, E2, E3.
    rewrite (group_step_same s Hs cs) by reflexivity. cbn [id op cols args app].
    set (g1 := mkStep (random_id n) (op s) (c :: cs) (args s)).
    destruct (IH Hrest Hnerest) with (grouped := close_group grouped cur)
                                     (cur := Some g1) (n := S n)
      as (grouped' & cur' & Hfold & Hcontent).
    + simpl in Hadj. destruct rest; [reflexivity|].
      apply andb_true_iff in Hadj. tauto.
    + destruct rest as [|s2 rest']; [exact I|].
      simpl in Hadj. apply andb_true_iff in Hadj as [Hadj _].
      apply negb_true_iff in Hadj. exact Hadj.
    + exists grouped', cur'. split.
      * rewrite Hfold. f_equal. simpl. lia.
      * rewrite Hcontent. cbn [close_group]. rewrite map_app, <- app_assoc.
        cbn [map app]. unfold content. cbn [op cols args g1].
        rewrite Ecols. reflexivity.
Qed.

(** C9: grouping undoes flattening.  For steps that each have a column, such
    that no step is followed by one with the same [op] and JSON-equal [args],
    [groupTransformations] applied to the flattened list gives back steps
    with the same [op], [cols] and [args] in the same order; only the ids
    are new. *)
Theorem groupTransformations_inverts_flattening (n : nat) (steps : list Step) :
  Forall step_wf steps ->
  Forall (fun s => cols s <> []) steps ->
  adjacent_distinct JSON_stringify steps = true ->
  map content
    (groupTransformations JSON_stringify random_id n (Some (flatTransformations steps)))
  = map content steps.
Proof.
  intros Hwf Hne Hadj.
  destruct (group_steps steps Hwf Hne Hadj [] None n I)
    as (grouped' & cur' & Hfold & Hcontent).
  unfold groupTransformations, groupTransformations_from.
  rewrite Hfold. simpl. exact Hcontent.
Qed.

Lemma obj_has_remove k k' o :
  obj_has k (obj_remove k' o) = negb (String.eqb k' k) && obj_has k o.
Proof.
  induction o as [|[k0 v0] o IH]; simpl.
  - now rewrite andb_false_r.
  - destruct (String.eqb k0 k') eqn:E; simpl.
    + apply String.eqb_eq in E; subst k0. rewrite IH.
      destruct (String.eqb k' k); reflexivity.
    + rewrite IH. destruct (String.eqb k0 k) eqn:E2; simpl.
      * apply String.eqb_eq in E2; subst k0.
        rewrite String.eqb_sym, E. reflexivity.
      * reflexivity.
Qed.

Lemma obj_wf_remove k o : obj_wf o -> obj_wf (obj_remove k o).
Proof.
  unfold obj_wf, keys. induction o as [|[k0 v0] o IH]; simpl; intros Hwf.
  - constructor.
  - inversion Hwf as [|? ? Hk Hrest]; subst.
    destruct (negb (String.eqb k0 k)); simpl; [|auto].
    constructor; [|auto].
    intros Hin. apply Hk. apply in_map_iff in Hin as ((k1 & v1) & <- & Hin).
    apply filter_In in Hin as [Hin _]. apply in_map_iff. now exists (k1, v1).
Qed.

(** The steps the dialog gets from a stored list are well formed when the
    stored records are objects with a string [op]. *)
Lemma groupTransformations_steps_wf n ts :
  Forall (fun t => obj_wf t /\ is_string (obj_get "op" t)) ts ->
  Forall step_wf (groupTransformations JSON_stringify random_id n (Some ts)).
Proof.
  intros Hts. unfold groupTransformations, groupTransformations_from.
  assert (Hinv : forall acc,
             (let '(grouped, cur, _) := acc in
              Forall step_wf (close_group grouped cur)) ->
             let '(grouped, cur, _) :=
               fold_left (group_step JSON_stringify random_id) ts acc in
             Forall step_wf (close_group grouped cur)).
  { induction Hts as [|t ts [Hwf Hop] _ IH]; intros acc Hacc; [exact Hacc|].
    cbn [fold_left]. apply IH. destruct acc as [[grouped cur] k].
    unfold group_step.
    destruct (isMatch JSON_stringify cur (obj_get "op" t)
                (obj_remove "col" (obj_remove "op" t))) eqn:Em.
    - destruct cur as [g|]; [|discriminate]. cbn [close_group] in *.
      apply Forall_app in Hacc as [Hg Hcur]. apply Forall_app. split; [assumption|].
      inversion Hcur; subst. constructor; [|constructor]. assumption.
    - cbn [close_group]. apply Forall_app. split; [exact Hacc|].
      constructor; [|constructor]. unfold step_wf. cbn [op args].
      repeat split.
      + assumption.
      + now apply obj_wf_remove, obj_wf_remove.
      + rewrite !obj_has_remove. reflexivity.
      + rewrite !obj_has_remove. reflexivity. }
  specialize (Hinv ([], None, n) (Forall_nil _)).
  destruct (fold_left (group_step JSON_stringify random_id) ts ([], None, n))
    as [[grouped cur] k].
  exact Hinv.
Qed.

End Grouping.

Lemma sample_steps_wf : Forall step_wf [Samples.log_step; Samples.lag_step].
Proof.
  repeat constructor; try (eexists; reflexivity); simpl; intuition congruence.
Defined.

Lemma sample_steps_have_columns :
  Forall (fun s => cols s <> []) [Samples.log_step; Samples.lag_step].
Proof. repeat constructor; discriminate. Defined.

Lemma groupTransformations_inverts_flattening_sample :
  map content
    (groupTransformations Samples.JSON_stringify Samples.random_id 0
       (Some (flatTransformations [Samples.log_step; Samples.lag_step])))
  = map content [Samples.log_step; Samples.lag_step].
Proof.
  apply (groupTransformations_inverts_flattening
           Samples.JSON_stringify Samples.random_id 0
           [Samples.log_step; Samples.lag_step]
           sample_steps_wf sample_steps_have_columns).
  vm_compute. reflexivity.
Defined.

End FlattenFacts.

(* ===================================================================== *)
(** ** Adding steps in the builder *)
(* ===================================================================== *)

Module AddStepFacts.
Import Js Api Workflow JsFacts.

Lemma obj_wf_set k v o : obj_wf o -> obj_wf (obj_set k v o).
Proof.
  unfold obj_wf, keys. induction o as [|[k' v'] o IH]; simpl; intros Hwf.
  - constructor; [intros []| constructor].
  - inversion Hwf as [|? ? Hk Hrest]; subst.
    destruct (String.eqb k' k) eqn:E; simpl.
    + constructor; assumption.
    + constructor; [|auto].
      intros Hin. apply Hk. clear -Hin E.
      induction o as [|[k0 v0] o IH]; simpl in *.
      * destruct Hin as [->|[]]. now rewrite String.eqb_refl in E.
      * destruct (String.eqb k0 k); simpl in Hin; tauto.
Qed.

Lemma not_serialized_after_clearing k o :
  obj_wf o -> ~ In k (serialized_keys (obj_set k JUndefined o)).
Proof.
  unfold obj_wf, serialized_keys, keys.
  induction o as [|[k' v'] o IH]; simpl; intros Hwf.
  - tauto.
  - inversion Hwf as [|? ? Hk Hrest]; subst.
    destruct (String.eqb k' k) eqn:E; simpl.
    + apply String.eqb_eq in E; subst k'.
      intros Hin. apply Hk. apply in_map_iff in Hin as ((k1 & v1) & <- & Hin).
      apply filter_In in Hin as [Hin _]. apply in_map_iff. now exists (k1, v1).
    + apply String.eqb_neq in E.
      destruct v'; simpl; try (intros [?|?]; [congruence | now apply IH]).
      now apply IH.
Qed.

Lemma obj_wf_spread ext : forall base, obj_wf base -> obj_wf (obj_spread base ext).
Proof.
  unfold obj_spread. induction ext as [|[k v] ext IH]; intros base Hwf; simpl.
  - assumption.
  - apply IH. now apply obj_wf_set.
Qed.

Lemma obj_has_set k k' v o : obj_has k (obj_set k' v o) = String.eqb k' k || obj_has k o.
Proof.
  induction o as [|[k0 v0] o IH]; simpl.
  - reflexivity.
  - destruct (String.eqb k0 k') eqn:E; simpl.
    + apply String.eqb_eq in E; subst k0.
      destruct (String.eqb k' k); reflexivity.
    + rewrite IH. destruct (String.eqb k0 k), (String.eqb k' k); reflexivity.
Qed.

(** Spreading an object that lacks a property leaves what is read under it. *)
Lemma obj_spread_fresh_get k ext : forall base,
  obj_has k ext = false ->
  obj_get k (obj_spread base ext) = obj_get k base.
Proof.
  unfold obj_spread.
  induction ext as [|[k' v'] ext IH]; intros base Hfresh; simpl in *.
  - reflexivity.
  - apply orb_false_iff in Hfresh as [Hne Hfresh].
    rewrite IH by assumption.
    apply obj_get_set_other. now apply String.eqb_neq in Hne.
Qed.

(** A property of the object spread last decides the value read. *)
Lemma obj_get_spread k ext : forall base,
  obj_wf ext -> obj_has k ext = true ->
  obj_get k (obj_spread base ext) = obj_get k ext.
Proof.
  induction ext as [|[k' v'] ext IH]; intros base Hwf Hhas.
  - discriminate.
  - unfold obj_wf in Hwf. simpl in Hwf. inversion Hwf as [|? ? Hk Hrest]; subst.
    change (obj_spread base ((k', v') :: ext))
      with (obj_spread (obj_set k' v' base) ext).
    simpl in Hhas. simpl. destruct (String.eqb k' k) eqn:E.
    + apply String.eqb_eq in E; subst k'.
      rewrite obj_spread_fresh_get by now apply obj_has_false_In.
      apply obj_get_set_same.
    + apply IH; assumption.
Qed.

Lemma serialized_only_if_defined k o :
  obj_wf o -> In k (serialized_keys o) -> obj_get k o <> JUndefined.
Proof.
  unfold obj_wf, serialized_keys, keys.
  induction o as [|[k' v'] o IH]; simpl; intros Hwf Hin; [contradiction|].
  inversion Hwf as [|? ? Hk Hrest]; subst.
  destruct (String.eqb k' k) eqn:E.
  - apply String.eqb_eq in E; subst k'.
    destruct v'; simpl in Hin; try discriminate.
    exfalso. apply Hk. apply in_map_iff in Hin as ((k1 & v1) & <- & Hin).
    apply filter_In in Hin as [Hin _]. apply in_map_iff. now exists (k1, v1).
  - apply String.eqb_neq in E. apply IH; [assumption|].
    destruct v'; simpl in Hin; try (destruct Hin as [?|?]; [congruence|assumption]).
    assumption.
Qed.

(** A property that reads [undefined] in the arguments of a step is not
    serialized with any of its flat records. *)
Lemma not_serialized_in_flat_record s c :
  obj_wf (args s) ->
  obj_get "group_filters" (args s) = JUndefined ->
  ~ In "group_filters" (serialized_keys (flat_record s c)).
Proof.
  intros Hwf Hget Hin.
  apply serialized_only_if_defined in Hin.
  - apply Hin. unfold flat_record.
    destruct (obj_has "group_filters" (args s)) eqn:Hhas.
    + rewrite obj_get_spread by assumption. exact Hget.
    + rewrite obj_spread_fresh_get by assumption. reflexivity.
  - unfold flat_record. apply obj_wf_spread.
    unfold obj_wf; simpl. repeat constructor; simpl; intuition discriminate.
Qed.

Lemma length_lag_steps random_id d maxLag :
  List.length (lag_steps random_id d maxLag)
  = match maxLag with JNum n => Z.to_nat n | _ => 0%nat end.
Proof. unfold lag_steps. now rewrite length_map, length_seq. Qed.

(** X26: the steps [addStep] makes are well formed as long as the
    configured arguments are an object that names neither [op] nor [col]. *)
Lemma addStep_keeps_steps_wf random_id d :
  Forall step_wf (pipelineSteps d) ->
  obj_wf (newOp_args (newOp d)) ->
  obj_has "op" (newOp_args (newOp d)) = false ->
  obj_has "col" (newOp_args (newOp d)) = false ->
  Forall step_wf (pipelineSteps (addStep random_id d)).
Proof.
  intros Hsteps Hwf Hop Hcol. unfold addStep.
  destruct (selectedCols d) as [|c0 cs0]; [assumption|].
  destruct (String.eqb (newOp_op (newOp d)) "lag").
  - cbn. apply Forall_app. split; [assumption|].
    apply Forall_forall. intros s Hin. unfold lag_steps in Hin.
    apply in_map_iff in Hin as (i & <- & _).
    repeat split; cbn; try (eexists; reflexivity).
    unfold obj_wf; cbn. repeat constructor; cbn; intuition discriminate.
  - destruct (String.eqb (newOp_op (newOp d)) "groupby_agg").
    + destruct (finalGroupCol (newOp_args (newOp d))); [|assumption].
      cbn. apply Forall_app. split; [assumption|].
      constructor; [|constructor]. unfold step_wf. cbn [op args].
      rewrite (obj_spread_nil _ Hwf). repeat split.
      * eexists; reflexivity.
      * now apply obj_wf_set, obj_wf_set.
      * rewrite !obj_has_set, Hop. reflexivity.
      * rewrite !obj_has_set, Hcol. reflexivity.
    + cbn. apply Forall_app. split; [assumption|].
      constructor; [|constructor]. unfold step_wf. cbn [op args].
      rewrite (obj_spread_nil _ Hwf). repeat split; try assumption.
      eexists; reflexivity.
Qed.

(** An absent [max_lag] counts as ["1"]. *)
Lemma max_lag_defaults_to_1 a :
  obj_get "max_lag" a = JUndefined ->
  parseInt (js_or (obj_get "max_lag" a) (JStr "1")) = JNum 1.
Proof. intros ->. reflexivity. Qed.

(** C10: with columns selected, adding a [lag] whose [max_lag] parses to
    [N >= 1] appends [N] steps with [periods] 1, 2, ..., [N], each on all the
    selected columns and with the configured [group_col] and [sort_col]; an
    op other than [lag] and [groupby_agg] appends one step with the selected
    columns and the configured arguments.  Both clear the selection.  An
    absent [max_lag] parses to 1. *)
Theorem addStep_appends (random_id : nat -> string) (d : Dialog) :
  selectedCols d <> [] ->
  obj_wf (newOp_args (newOp d)) ->
  (newOp_op (newOp d) = "lag" ->
   forall N,
     parseInt (js_or (obj_get "max_lag" (newOp_args (newOp d))) (JStr "1")) = JNum N ->
     (1 <= N)%Z ->
     exists newSteps,
       pipelineSteps (addStep random_id d) = pipelineSteps d ++ newSteps
       /\ List.length newSteps = Z.to_nat N
       /\ map content newSteps
          = map (fun i =>
                   (JStr "lag", map JStr (selectedCols d),
                    [("group_col", obj_get "group_col" (newOp_args (newOp d)));
                     ("sort_col", obj_get "sort_col" (newOp_args (newOp d)));
                     ("periods", JNum (Z.of_nat i))]))
                (seq 1 (Z.to_nat N))
       /\ selectedCols (addStep random_id d) = [])
  /\ (newOp_op (newOp d) <> "lag" ->
      newOp_op (newOp d) <> "groupby_agg" ->
      exists s,
        pipelineSteps (addStep random_id d) = pipelineSteps d ++ [s]
        /\ content s
           = (JStr (newOp_op (newOp d)), map JStr (selectedCols d), newOp_args (newOp d))
        /\ selectedCols (addStep random_id d) = [])
  /\ (obj_get "max_lag" (newOp_args (newOp d)) = JUndefined ->
      parseInt (js_or (obj_get "max_lag" (newOp_args (newOp d))) (JStr "1")) = JNum 1).
Proof.
  intros Hsel Hwf. unfold addStep.
  destruct (selectedCols d) as [|c0 cs0] eqn:Esel; [congruence|].
  split; [|split; [|apply max_lag_defaults_to_1]].
  - intros Hop N Hparse HN. rewrite Hop, String.eqb_refl, Hparse.
    exists (lag_steps random_id d (JNum N)). repeat split.
    + apply length_lag_steps.
    + unfold lag_steps. rewrite map_map, Esel. reflexivity.
  - intros Hlag Hgb.
    apply String.eqb_neq in Hlag. apply String.eqb_neq in Hgb.
    rewrite Hlag, Hgb. eexists. repeat split.
    unfold content. cbn [op cols args]. now rewrite obj_spread_nil.
Qed.

Lemma addStep_appends_samples :
  (exists newSteps,
      pipelineSteps (addStep Samples.random_id Samples.lag_dialog)
      = pipelineSteps Samples.lag_dialog ++ newSteps
      /\ List.length newSteps = 3%nat
      /\ map content newSteps
         = map (fun i =>
                  (JStr "lag", [JStr "price"],
                   [("group_col", JStr "shop"); ("sort_col", JStr "day");
                    ("periods", JNum (Z.of_nat i))]))
               [1; 2; 3]%nat
      /\ selectedCols (addStep Samples.random_id Samples.lag_dialog) = [])
  /\ (exists s,
         pipelineSteps (addStep Samples.random_id Samples.clip_dialog)
         = pipelineSteps Samples.clip_dialog ++ [s]
         /\ content s
            = (JStr "clip", [JStr "price"; JStr "volume"],
               [("lower", JStr "-3"); ("upper", JStr "3")])
         /\ selectedCols (addStep Samples.random_id Samples.clip_dialog) = []).
Proof.
  split.
  - refine (proj1 (addStep_appends Samples.random_id Samples.lag_dialog _ _)
                  eq_refl 3%Z eq_refl _).
    + discriminate.
    + unfold obj_wf; simpl. repeat constructor; simpl; intuition discriminate.
    + vm_compute. discriminate.
  - refine (proj1 (proj2 (addStep_appends Samples.random_id Samples.clip_dialog _ _)) _ _).
    + discriminate.
    + unfold obj_wf; simpl. repeat constructor; simpl; intuition discriminate.
    + discriminate.
    + discriminate.
Defined.

(** X8: choosing filter columns one after the other lists them in the order
    they were chosen. *)
Lemma addGroupFilter_keeps_selection_order chosen : forall d current,
  obj_wf (newOp_args (newOp d)) ->
  js_or (obj_get "group_filters" (newOp_args (newOp d))) (JArr []) = JArr (map JStr current) ->
  NoDup (current ++ chosen) ->
  ~ In "" chosen ->
  let d' := fold_left (fun d f => addGroupFilter f d) chosen d in
  obj_wf (newOp_args (newOp d'))
  /\ js_or (obj_get "group_filters" (newOp_args (newOp d'))) (JArr [])
     = JArr (map JStr (current ++ chosen))
  /\ obj_get "group_col" (newOp_args (newOp d')) = obj_get "group_col" (newOp_args (newOp d))
  /\ newOp_op (newOp d') = newOp_op (newOp d)
  /\ selectedCols d' = selectedCols d
  /\ pipelineSteps d' = pipelineSteps d.
Proof.
  induction chosen as [|f chosen IH]; intros d current Hwf Hgf Hnd Hne; cbn zeta.
  - cbn [fold_left]. rewrite app_nil_r. repeat split; auto.
  - cbn [fold_left].
    assert (Hf : f <> "") by (intros ->; apply Hne; now left).
    assert (Hfresh : existsb (js_strict_eq (JStr f)) (map JStr current) = false).
    { apply not_true_is_false. intros Hex.
      apply existsb_exists in Hex as (x & Hin & Heq).
      apply in_map_iff in Hin as (y & <- & Hin). simpl in Heq.
      apply String.eqb_eq in Heq; subst y.
      apply NoDup_remove_2 in Hnd. apply Hnd, in_or_app. now left. }
    assert (Hstep : addGroupFilter f d
                    = handleArgChange "group_filters" (JArr (map JStr (current ++ [f]))) d).
    { unfold addGroupFilter. apply String.eqb_neq in Hf. rewrite Hf, Hgf, Hfresh.
      now rewrite map_app. }
    rewrite Hstep.
    set (d1 := handleArgChange "group_filters" (JArr (map JStr (current ++ [f]))) d).
    assert (Hargs1 : newOp_args (newOp d1)
                     = obj_set "group_filters" (JArr (map JStr (current ++ [f])))
                         (newOp_args (newOp d))).
    { unfold d1, handleArgChange. cbn. now rewrite obj_spread_nil. }
    destruct (IH d1 (current ++ [f])) as (W & G & C & O & S & P).
    + rewrite Hargs1. now apply obj_wf_set.
    + rewrite Hargs1, obj_get_set_same. reflexivity.
    + now rewrite <- app_assoc.
    + intros Hin. apply Hne. now right.
    + rewrite <- app_assoc in G. cbn [app] in G.
      repeat split; try assumption.
      rewrite C, Hargs1. apply obj_get_set_other. discriminate.
Qed.

(** C6: adding a [groupby_agg] step with filter columns chosen records
    [group_col] as the list made of the primary group column followed by the
    filter columns in their order; with none chosen [group_col] stays the
    primary column.  Either way [group_filters] reads [undefined] in the
    recorded arguments and is not among the properties that are serialized. *)
Theorem addStep_groupby_agg_group_col (random_id : nat -> string) (d : Dialog)
    (filters : list JVal) :
  selectedCols d <> [] ->
  obj_wf (newOp_args (newOp d)) ->
  newOp_op (newOp d) = "groupby_agg" ->
  js_or (obj_get "group_filters" (newOp_args (newOp d))) (JArr []) = JArr filters ->
  exists s,
    pipelineSteps (addStep random_id d) = pipelineSteps d ++ [s]
    /\ op s = JStr "groupby_agg"
    /\ cols s = map JStr (selectedCols d)
    /\ obj_get "group_col" (args s)
       = match filters with
         | [] => obj_get "group_col" (newOp_args (newOp d))
         | _ :: _ => JArr (obj_get "group_col" (newOp_args (newOp d)) :: filters)
         end
    /\ obj_get "group_filters" (args s) = JUndefined
    /\ ~ In "group_filters" (serialized_keys (args s))
    /\ (forall c, ~ In "group_filters" (serialized_keys (flat_record s c))).
Proof.
  intros Hsel Hwf Hop Hgf. unfold addStep.
  destruct (selectedCols d) as [|c0 cs0] eqn:Esel; [congruence|].
  rewrite Hop. cbn [String.eqb Ascii.eqb Bool.eqb]. cbv iota beta.
  set (a := newOp_args (newOp d)) in *.
  assert (Hfinal : finalGroupCol a
                   = Some (match filters with
                           | [] => obj_get "group_col" a
                           | _ :: _ => JArr (obj_get "group_col" a :: filters)
                           end)).
  { unfold finalGroupCol, js_or in *.
    destruct (obj_get "group_filters" a) as [| |b|z| |str|items|o] eqn:E;
      cbn [js_truthy] in *.
    - inversion Hgf; subst. reflexivity.
    - inversion Hgf; subst. reflexivity.
    - destruct b; [discriminate|]. inversion Hgf; subst. reflexivity.
    - destruct (negb (z =? 0)%Z); [discriminate|]. inversion Hgf; subst. reflexivity.
    - inversion Hgf; subst. reflexivity.
    - destruct (negb (String.eqb str "")); [discriminate|].
      inversion Hgf; subst. reflexivity.
    - inversion Hgf; subst. destruct filters; reflexivity.
    - discriminate. }
  rewrite Hfinal. eexists. split; [reflexivity|]. cbn [op cols args].
  rewrite (obj_spread_nil a Hwf).
  repeat split.
  - rewrite obj_get_set_other by discriminate. apply obj_get_set_same.
  - apply obj_get_set_same.
  - apply not_serialized_after_clearing. now apply obj_wf_set.
  - intros c. apply not_serialized_in_flat_record; cbn [args].
    + now apply obj_wf_set, obj_wf_set.
    + apply obj_get_set_same.
Qed.

Lemma addStep_groupby_agg_group_col_sample :
  exists s,
    pipelineSteps (addStep Samples.random_id Samples.groupby_dialog) = [s]
    /\ op s = JStr "groupby_agg"
    /\ cols s = [JStr "price"]
    /\ obj_get "group_col" (args s) = JArr [JStr "shop"; JStr "region"; JStr "day"]
    /\ obj_get "group_filters" (args s) = JUndefined
    /\ ~ In "group_filters" (serialized_keys (args s))
    /\ (forall c, ~ In "group_filters" (serialized_keys (flat_record s c))).
Proof.
  refine (addStep_groupby_agg_group_col Samples.random_id Samples.groupby_dialog
            [JStr "region"; JStr "day"] _ _ eq_refl eq_refl).
  - discriminate.
  - unfold obj_wf; simpl. repeat constructor; simpl; intuition discriminate.
Defined.

End AddStepFacts.

(* ===================================================================== *)
(** ** Dragging a column into a formula *)
(* ===================================================================== *)

Module FormulaFacts.
Import Js FormulaBuilder.

Lemma append_assoc (a b c : string) : ((a ++ b) ++ c = a ++ b ++ c)%string.
Proof. induction a as [|x a IH]; simpl; [reflexivity | now rewrite IH]. Qed.

Lemma token_not_empty col : String.eqb (token col) "" = false.
Proof. reflexivity. Qed.

(** C7: whatever the column name, the token a drag carries is the name
    between two backticks, and dropping it puts exactly that token at the
    selection of the text area, so the name stands delimited in the new
    expression; names with white space are no exception. *)
Theorem dragged_column_is_delimited (col : string) (ed : Editor) (start end_ : nat) :
  textArea ed = Some (start, end_) ->
  dataTransfer (handleDragStart col ed) = Some ("`" ++ col ++ "`")%string
  /\ expression (handleDrop (handleDragStart col ed))
     = (js_substring (expression ed) 0 start
        ++ "`" ++ col ++ "`"
        ++ js_substring_from (expression ed) end_)%string
  /\ delimited_in col (expression (handleDrop (handleDragStart col ed))).
Proof.
  intros Hta.
  assert (Hexpr : expression (handleDrop (handleDragStart col ed))
                  = (js_substring (expression ed) 0 start
                     ++ "`" ++ col ++ "`"
                     ++ js_substring_from (expression ed) end_)%string).
  { unfold handleDrop, handleDragStart. cbn [dataTransfer].
    rewrite token_not_empty. unfold insertText. cbn [textArea expression].
    rewrite Hta. cbn [expression]. unfold token.
    now rewrite !append_assoc. }
  split; [reflexivity|]. split; [exact Hexpr|].
  rewrite Hexpr. eexists _, _. reflexivity.
Qed.

Lemma dragged_column_is_delimited_sample :
  expression (handleDrop (handleDragStart "unit price" Samples.editing))
  = "total = `unit price` * 2".
Proof.
  exact (proj1 (proj2 (dragged_column_is_delimited "unit price" Samples.editing 8 8 eq_refl))).
Defined.

End FormulaFacts.

(* ===================================================================== *)
(** ** What "Save Selection" sends *)
(* ===================================================================== *)

Module SaveFacts.
Import Js Api.












End SaveFacts.

(* ===================================================================== *)
(** ** The target column and the active selection *)
(* ===================================================================== *)

Module SelectionFacts.
Import Js Api.

(** "Add All" on the manage tab leaves the target out. *)
Lemma moveAllRight_excludes_target d :
  ~ In (Workflow.activeTargetCol d)
       (Workflow.activeFeatureSelection (Workflow.moveAllRight d)).
Proof.
  unfold Workflow.moveAllRight. cbn. intros Hin.
  apply filter_In in Hin as [_ Hne].
  now rewrite String.eqb_refl in Hne.
Qed.

(** The "Available" box never offers the target. *)
Lemma leftList_excludes_target d :
  ~ In (Workflow.activeTargetCol d) (Workflow.leftList d).
Proof.
  unfold Workflow.leftList. intros Hin.
  apply filter_In in Hin as [_ Hne].
  rewrite String.eqb_refl, andb_false_r in Hne. discriminate.
Qed.

(** The analysis dialog starts without the stored target among the selected
    columns. *)
Lemma fetchColumns_excludes_stored_target cols d fs t :
  Analysis.featureSet d = Some fs ->
  target_column fs = Some t -> t <> "" ->
  ~ In t (Analysis.selectedCols (Analysis.fetchColumns cols d)).
Proof.
  intros Hfs Ht Hne. unfold Analysis.fetchColumns. rewrite Hfs, Ht.
  apply String.eqb_neq in Hne. rewrite Hne. cbn [Analysis.selectedCols].
  intros Hin. apply filter_In in Hin as [_ Hin].
  now rewrite String.eqb_refl in Hin.
Qed.

(** Picking a target on the manage tab leaves the active selection as it
    is. *)
Lemma SelectTarget_keeps_selection random_id d c :
  Workflow.activeFeatureSelection (Workflow.perform random_id d (Workflow.SelectTarget c))
  = Workflow.activeFeatureSelection d.
Proof.
  unfold Workflow.perform. destruct (Workflow.enabled d (Workflow.SelectTarget c)); reflexivity.
Qed.

(** C2 at its failing inputs: on a feature set saved without active features,
    the manage tab starts with every column active, and picking [sales] as
    target then saving sends [sales] both as target and as an active
    feature; in the analysis dialog, picking as target a column that is
    selected and saving does the same. *)
Theorem save_can_send_target_as_active_feature :
  (exists r,
      Workflow.handleSaveActiveFeatures
        (Workflow.run Samples.random_id Samples.fresh_dialog [Workflow.SelectTarget "sales"])
      = Some r
      /\ obj_get "active_features" (body r) = strings ["price"; "sales"]
      /\ obj_get "target_column" (body r) = JStr "sales")
  /\ (exists r,
         Analysis.handleSaveFeatures Samples.analysed_dialog = Some r
         /\ obj_get "active_features" (body r) = strings ["price"; "sales"]
         /\ obj_get "target_column" (body r) = JStr "sales").
Proof.
  split; eexists; repeat split.
Qed.

(** X13: any active column can be made the target, and is then saved as
    both target and active feature. *)
Lemma target_picked_among_active_is_saved_as_both random_id d fs c :
  Workflow.currentFeatureSet d = Some fs ->
  In c (Workflow.columns d) -> c <> "" ->
  In c (Workflow.activeFeatureSelection d) ->
  exists r,
    Workflow.handleSaveActiveFeatures
      (Workflow.perform random_id d (Workflow.SelectTarget c)) = Some r
    /\ obj_get "target_column" (body r) = JStr c
    /\ obj_get "active_features" (body r) = strings (Workflow.activeFeatureSelection d).
Proof.
  intros Hfs Hcol Hne Hact.
  assert (Hen : Workflow.enabled d (Workflow.SelectTarget c) = true).
  { cbn. apply orb_true_iff. right. unfold includes.
    apply existsb_exists. exists c. split; [assumption | apply String.eqb_refl]. }
  unfold Workflow.perform. rewrite Hen.
  unfold Workflow.handleSaveActiveFeatures. cbn. rewrite Hfs.
  eexists. split; [reflexivity|]. cbn. split; [|reflexivity].
  unfold js_or. cbn. apply String.eqb_neq in Hne. now rewrite Hne.
Qed.

End SelectionFacts.

(* ===================================================================== *)
(** ** The executor commits all of a pipeline or nothing *)
(* ===================================================================== *)

Module ExecutorFacts.
Import Engine.

Section Executor.

Variables (Table Step Reason : Type).
Variable apply_step : Table -> Step -> Table + Reason.

Lemma execute_from_app pre : forall i t t' rest,
  run_steps apply_step t pre = Some t' ->
  execute_from apply_step i t (pre ++ rest)
  = execute_from apply_step (i + List.length pre) t' rest.
Proof.
  induction pre as [|s pre IH]; intros i t t' rest Hrun; simpl in *.
  - inversion Hrun; subst. now rewrite Nat.add_0_r.
  - destruct (apply_step t s) as [t1|r]; [|discriminate].
    rewrite (IH (S i) t1 t' rest Hrun). f_equal. lia.
Qed.

(** Execution ends in a materialization exactly when every step succeeds in
    turn. *)
Lemma execute_materializes snapshot steps m :
  execute apply_step snapshot steps = Materialization m
  <-> run_steps apply_step snapshot steps = Some m.
Proof.
  unfold execute. generalize 0%nat as i. revert snapshot.
  induction steps as [|s steps IH]; intros t i; simpl.
  - split; intros H; inversion H; reflexivity.
  - destruct (apply_step t s) as [t1|r]; [apply IH|].
    split; discriminate.
Qed.

(** An error names a step that was reached and failed. *)
Lemma execute_error_is_first_failure snapshot steps i reason :
  execute apply_step snapshot steps = Error i reason ->
  exists pre s post t,
    steps = pre ++ s :: post /\ List.length pre = i
    /\ run_steps apply_step snapshot pre = Some t
    /\ apply_step t s = inr reason.
Proof.
  unfold execute.
  assert (H : forall l k t,
             execute_from apply_step k t l = Error i reason ->
             exists pre s post t',
               l = pre ++ s :: post /\ (k + List.length pre = i)%nat
               /\ run_steps apply_step t pre = Some t'
               /\ apply_step t' s = inr reason).
  { clear. intros l. induction l as [|s l IH]; intros k t Hex; simpl in Hex.
    - discriminate.
    - destruct (apply_step t s) as [t1|r] eqn:E.
      + destruct (IH _ _ Hex) as (pre & s' & post & t' & -> & Hlen & Hrun & Hfail).
        exists (s :: pre), s', post, t'. simpl. rewrite E.
        repeat split; auto. lia.
      + inversion Hex; subst. exists [], s, l, t. simpl.
        repeat split; auto. }
  intros Hex. destruct (H _ _ _ Hex) as (pre & s & post & t & ? & ? & ? & ?).
  exists pre, s, post, t. auto.
Qed.

(** C3: when the steps before [s] succeed and [s] fails on the table they
    produce, execution of the whole list stops there and reports the index of
    [s] with its reason, whatever follows; the registry then commits
    nothing: the feature set, and with it the materialization it held, stays
    as it was. *)
Theorem failed_step_aborts_and_commits_nothing
    (fs : FeatureSet Table Step) (pre : list Step) (s : Step) (post : list Step)
    (t : Table) (reason : Reason) :
  run_steps apply_step (dataset_snapshot fs) pre = Some t ->
  apply_step t s = inr reason ->
  execute apply_step (dataset_snapshot fs) (pre ++ s :: post)
  = Error (List.length pre) reason
  /\ update_steps apply_step fs (pre ++ s :: post)
     = (fs, Some (List.length pre, reason))
  /\ materialization (fst (update_steps apply_step fs (pre ++ s :: post)))
     = materialization fs.
Proof.
  intros Hrun Hfail.
  assert (Hex : execute apply_step (dataset_snapshot fs) (pre ++ s :: post)
                = Error (List.length pre) reason).
  { unfold execute. rewrite (execute_from_app pre 0 _ t _ Hrun).
    simpl. now rewrite Hfail. }
  unfold update_steps. rewrite Hex. auto.
Qed.

End Executor.

Lemma failed_step_aborts_and_commits_nothing_sample :
  execute apply_op Samples.prices [Samples.fill_prices; Samples.clip_volume]
  = Error 1 (MissingColumn "volume")
  /\ update_steps apply_op Samples.materialized_set
       [Samples.fill_prices; Samples.clip_volume]
     = (Samples.materialized_set, Some (1%nat, MissingColumn "volume"))
  /\ materialization
       (fst (update_steps apply_op Samples.materialized_set
               [Samples.fill_prices; Samples.clip_volume]))
     = materialization Samples.materialized_set.
Proof.
  exact (failed_step_aborts_and_commits_nothing
           Table TransformationStep Reason apply_op
           Samples.materialized_set [Samples.fill_prices] Samples.clip_volume []
           _ (MissingColumn "volume") eq_refl eq_refl).
Defined.

End ExecutorFacts.

(* ===================================================================== *)
(** ** groupby_agg with a date column looks only at the past *)
(* ===================================================================== *)

Module GroupByFacts.
Import Engine.

Lemma Qlt_bool_asym a b : Qlt_bool a b = true -> Qlt_bool b a = false.
Proof.
  unfold Qlt_bool. intros H. apply negb_true_iff in H.
  apply negb_false_iff, Qle_bool_iff, Qlt_le_weak, Qnot_le_lt.
  intros Hle. apply Qle_bool_iff in Hle. congruence.
Qed.

Lemma strictly_earlier_asym d r x :
  strictly_earlier d r x = true -> strictly_earlier d x r = false.
Proof.
  unfold strictly_earlier.
  destruct (cell r d), (cell x d); try discriminate.
  apply Qlt_bool_asym.
Qed.

Lemma Qlt_bool_lt a b : Qlt_bool a b = true <-> (a < b)%Q.
Proof.
  unfold Qlt_bool. rewrite negb_true_iff. split.
  - intros H. apply Qnot_le_lt. intros Hle. apply Qle_bool_iff in Hle. congruence.
  - intros H. apply not_true_is_false. intros Hle.
    apply Qle_bool_iff in Hle. now apply (Qlt_not_le _ _ H).
Qed.

(** The engine's tests decide the relations the spec names. *)
Lemma cell_eqb_iff a b : cell_eqb a b = true <-> same_cell a b.
Proof.
  destruct a, b; cbn; try (split; [discriminate|contradiction]).
  - tauto.
  - apply Qeq_bool_iff.
  - apply String.eqb_eq.
Qed.

Lemma same_group_iff group_col r r' :
  same_group group_col r r' = true <-> in_same_group group_col r r'.
Proof.
  unfold same_group, in_same_group. rewrite forallb_forall.
  split; intros H g Hg; apply cell_eqb_iff; auto.
Qed.

Lemma strictly_earlier_iff d r' r :
  strictly_earlier d r' r = true <-> dated_before d r' r.
Proof.
  unfold strictly_earlier, dated_before. split.
  - destruct (cell r' d) as [|a|]; try discriminate.
    destruct (cell r d) as [|b|]; try discriminate.
    intros H. exists a, b. repeat split. now apply Qlt_bool_lt.
  - intros (a & b & -> & -> & H). now apply Qlt_bool_lt.
Qed.

Lemma nth_error_insert_row (i j : nat) (x r : Row) (table : list Row) :
  nth_error table j = Some r ->
  nth_error (insert_row i x table) (shifted i j) = Some r.
Proof.
  intros Hj. unfold insert_row, shifted.
  assert (Hlt : (j < List.length table)%nat)
    by (apply nth_error_Some; congruence).
  destruct (j <? i)%nat eqn:E.
  - apply Nat.ltb_lt in E.
    rewrite nth_error_app1 by (rewrite length_firstn; lia).
    rewrite nth_error_firstn.
    apply Nat.ltb_lt in E. now rewrite E.
  - apply Nat.ltb_ge in E.
    rewrite nth_error_app2 by (rewrite length_firstn; lia).
    rewrite length_firstn, Nat.min_l by lia.
    replace (S j - i)%nat with (S (j - i)) by lia. cbn [nth_error].
    rewrite nth_error_skipn. replace (i + (j - i))%nat with j by lia. exact Hj.
Qed.

Section GroupByAgg.

Variable aggregate : string -> list Q -> Cell.

(** A row that is not strictly earlier than [r] is outside [r]'s window, so
    putting it into the table leaves the window as it was. *)
Lemma window_insert_row group_col d table i x r :
  strictly_earlier d x r = false ->
  window group_col (Some d) (insert_row i x table) r
  = window group_col (Some d) table r.
Proof.
  intros Hx. unfold window, insert_row.
  rewrite filter_app. cbn [filter]. rewrite Hx, andb_false_r.
  rewrite <- filter_app, firstn_skipn. reflexivity.
Qed.

(** C4: with a date column, the cell [groupby_agg] computes for a row is the
    aggregate of the values observed, in table order, in exactly the rows of
    the table that are in the row's group and dated strictly before it;
    neither the row itself nor a row of another group nor a later row is
    among them.  So a row dated after it that is put anywhere into the table
    leaves that cell as it was, whatever group and values the new row
    has. *)
Theorem groupby_agg_ignores_later_rows
    (col : string) (group_col : list string) (func : string) (date_col : string)
    (threshold_min threshold_max : option Q)
    (table : list Row) (j : nat) (r : Row) :
  nth_error table j = Some r ->
  (forall earlier : Row -> bool,
      (forall r', earlier r' = true
                  <-> in_same_group group_col r r' /\ dated_before date_col r' r) ->
      nth_error
        (groupby_agg aggregate col group_col func (Some date_col)
           threshold_min threshold_max table)
        j
      = Some (aggregate func
                (observed_values threshold_min threshold_max col
                   (filter earlier table))))
  /\ (forall (i : nat) (x : Row),
         dated_before date_col r x ->
         nth_error
           (groupby_agg aggregate col group_col func (Some date_col)
              threshold_min threshold_max (insert_row i x table))
           (shifted i j)
         = nth_error
             (groupby_agg aggregate col group_col func (Some date_col)
                threshold_min threshold_max table)
             j).
Proof.
  intros Hj. split.
  - intros earlier Hearlier. unfold groupby_agg. rewrite nth_error_map, Hj.
    cbn [option_map]. unfold row_aggregate, window. do 3 f_equal.
    apply filter_ext. intros r'.
    apply eq_true_iff_eq. rewrite Hearlier, andb_true_iff.
    now rewrite same_group_iff, strictly_earlier_iff.
  - intros i x Hearlier. unfold groupby_agg. rewrite !nth_error_map.
    rewrite (nth_error_insert_row i j x r table Hj), Hj. cbn [option_map].
    unfold row_aggregate.
    rewrite window_insert_row
      by now apply strictly_earlier_asym, strictly_earlier_iff.
    reflexivity.
Qed.

End GroupByAgg.

(** In [prices], the mean for the north shop's row of day 3 is taken over its
    rows of days 1 and 2, and the mean for its row of day 2 is still that of
    day 1 alone after a north row of day 9 with an extreme price was put
    in. *)
Lemma groupby_agg_ignores_later_rows_sample :
  nth_error
    (groupby_agg Samples.aggregate "price" ["shop"] "mean" (Some "day") None None
       (rows Samples.prices))
    3
  = Some (Num 15)
  /\ nth_error
       (groupby_agg Samples.aggregate "price" ["shop"] "mean" (Some "day") None None
          (insert_row 1 Samples.future_row (rows Samples.prices)))
       3
     = Some (Num 10).
Proof.
  split.
  - refine (eq_trans
              (proj1 (groupby_agg_ignores_later_rows Samples.aggregate
                        "price" ["shop"] "mean" "day" None None
                        (rows Samples.prices) 3 _ eq_refl)
                 (fun r' =>
                    same_group ["shop"]
                      [("shop", Text "north"); ("day", Num 3); ("price", Num 30)] r'
                    && strictly_earlier "day" r'
                         [("shop", Text "north"); ("day", Num 3); ("price", Num 30)])
                 _)
              _).
    + intros r'. rewrite andb_true_iff.
      now rewrite same_group_iff, strictly_earlier_iff.
    + vm_compute. reflexivity.
  - refine (eq_trans
              (proj2 (groupby_agg_ignores_later_rows Samples.aggregate
                        "price" ["shop"] "mean" "day" None None
                        (rows Samples.prices) 2 _ eq_refl)
                 1%nat Samples.future_row _)
              _).
    + exists 2%Q, 9%Q. repeat split.
    + vm_compute. reflexivity.
Defined.

End GroupByFacts.

(* ===================================================================== *)
(** ** Pruning of generated columns *)
(* ===================================================================== *)

Module PruningFacts.
Import Engine.


Section Pruning.

Variable Column : Type.
Variable variance : Column -> Q.
Variable abs_correlation : Column -> Column -> Q.

Local Abbreviation correlated := (correlated Column abs_correlation).
Local Abbreviation correlation_pass := (correlation_pass Column abs_correlation).
Local Abbreviation keeps_variance := (keeps_variance Column variance).
Local Abbreviation prune := (prune Column variance abs_correlation).












End Pruning.


(** At a correlation threshold of 1 no correlation exceeds the threshold,
    and the correlation pass drops nothing: a pair with correlation exactly
    1 survives whole. *)
Lemma correlated_pair_survives_threshold_1 :
  (Samples.abs_correlation "base" "doubled" == 1)%Q
  /\ prune string Samples.variance Samples.abs_correlation 0 1 ["base"; "doubled"]
     = ["base"; "doubled"].
Proof. split; reflexivity. Qed.

End PruningFacts.

(* ===================================================================== *)
(** ** More on grouping a stored list *)
(* ===================================================================== *)

Module GroupingFacts.
Import Js Api Workflow JsFacts Notions.

Lemma js_strict_eq_true a b : js_strict_eq a b = true -> a = b.
Proof.
  destruct a, b; simpl; try discriminate; intros H; try reflexivity.
  - now apply Bool.eqb_prop in H; subst.
  - now apply Z.eqb_eq in H; subst.
  - now apply String.eqb_eq in H; subst.
Qed.

Section Grouping.

Variable JSON_stringify : JsObj -> string.
Variable random_id : nat -> string.

Local Abbreviation group_step := (group_step JSON_stringify random_id).
Local Abbreviation groupTransformations := (groupTransformations JSON_stringify random_id).
Local Abbreviation isMatch := (isMatch JSON_stringify).
Local Abbreviation same_group := (same_group JSON_stringify).
Local Abbreviation adjacent_distinct := (adjacent_distinct JSON_stringify).

Lemma groupTransformations_fold n ts :
  groupTransformations n (Some ts) = groups_of (fold_left group_step ts ([], None, n)).
Proof.
  unfold Workflow.groupTransformations, groupTransformations_from, groups_of.
  destruct (fold_left group_step ts ([], None, n)) as [[grouped cur] k]. reflexivity.
Qed.

(** A property of the groups that holds at the start and that each record
    keeps holds of the result. *)
Lemma fold_group_invariant (P : list JsObj -> GroupAcc -> Prop) :
  (forall seen acc t, P seen acc -> P (seen ++ [t]) (group_step acc t)) ->
  forall ts seen acc, P seen acc -> P (seen ++ ts) (fold_left group_step ts acc).
Proof.
  intros Hstep. induction ts as [|t ts IH]; intros seen acc HP; simpl.
  - now rewrite app_nil_r.
  - replace (seen ++ t :: ts) with ((seen ++ [t]) ++ ts)
      by (rewrite <- app_assoc; reflexivity).
    apply IH, Hstep, HP.
Qed.

Lemma group_step_cases acc t :
  let '(grouped, cur, n) := acc in
  (exists g, cur = Some g
             /\ isMatch (Some g) (obj_get "op" t) (rest_of t) = true
             /\ group_step acc t
                = (grouped,
                   Some (mkStep (id g) (op g) (cols g ++ [obj_get "col" t]) (args g)), n))
  \/ (isMatch cur (obj_get "op" t) (rest_of t) = false
      /\ group_step acc t
         = (close_group grouped cur,
            Some (mkStep (random_id n) (obj_get "op" t) [obj_get "col" t] (rest_of t)),
            S n)).
Proof.
  destruct acc as [[grouped cur] n]. unfold Workflow.group_step, rest_of.
  destruct (isMatch cur (obj_get "op" t) (obj_remove "col" (obj_remove "op" t))) eqn:E.
  - left. destruct cur as [g|]; [|discriminate]. exists g. auto.
  - right. auto.
Qed.

(** *** No column is lost and no group is empty *)

Lemma group_keeps_columns ts : forall n,
  flat_map cols (groupTransformations n (Some ts)) = map (obj_get "col") ts
  /\ Forall (fun s => cols s <> []) (groupTransformations n (Some ts)).
Proof.
  intros n. rewrite groupTransformations_fold.
  pose (P := fun (seen : list JsObj) (acc : GroupAcc) =>
               flat_map cols (groups_of acc) = map (obj_get "col") seen
               /\ Forall (fun s => cols s <> []) (groups_of acc)).
  apply (fold_group_invariant P) with (seen := []) (acc := ([], None, n)).
  - clear. intros seen acc t [Hcols Hne]. unfold P.
    pose proof (group_step_cases acc t) as Hc.
    destruct acc as [[grouped cur] n].
    destruct Hc as [(g & -> & _ & ->)|(_ & ->)]; cbn [groups_of close_group] in *.
    + rewrite flat_map_app in *. cbn [flat_map] in *. rewrite app_nil_r in *.
      rewrite map_app, <- Hcols, <- app_assoc. split; [reflexivity|].
      apply Forall_app in Hne as [Hg _]. apply Forall_app. split; [assumption|].
      constructor; [|constructor]. cbn. now destruct (cols g).
    + rewrite flat_map_app, map_app, Hcols. split; [reflexivity|].
      apply Forall_app. split; [assumption|].
      constructor; [discriminate|constructor].
  - split; [reflexivity|constructor].
Qed.

(** X1: grouping keeps every record's column, in order: read group after
    group, the columns of the groups are the [col] values of the records;
    no group is without a column, and a missing list gives no group. *)
Theorem groupTransformations_keeps_every_column (n : nat) (ts : list JsObj) :
  flat_map cols (groupTransformations n (Some ts)) = map (obj_get "col") ts
  /\ Forall (fun s => cols s <> []) (groupTransformations n (Some ts))
  /\ groupTransformations n None = [].
Proof.
  destruct (group_keeps_columns ts n). repeat split; assumption.
Qed.

(** *** Neighbouring groups never match *)

Lemma adjacent_distinct_snoc l : forall g x,
  adjacent_distinct (l ++ [g]) = true ->
  same_group g x = false ->
  adjacent_distinct ((l ++ [g]) ++ [x]) = true.
Proof.
  induction l as [|a l IH]; intros g x Hadj Hdiff.
  - cbn. now rewrite Hdiff.
  - destruct l as [|b l].
    + cbn in *. apply andb_true_iff in Hadj as [H1 _]. now rewrite H1, Hdiff.
    + change (adjacent_distinct (a :: (b :: l) ++ [g]) = true) in Hadj.
      cbn [Workflow.adjacent_distinct app] in Hadj.
      apply andb_true_iff in Hadj as [H1 H2].
      cbn [Workflow.adjacent_distinct app]. rewrite H1. cbn [andb].
      apply (IH g x); assumption.
Qed.

Lemma adjacent_distinct_same_content l : forall g g',
  op g' = op g -> args g' = args g ->
  adjacent_distinct (l ++ [g]) = true ->
  adjacent_distinct (l ++ [g']) = true.
Proof.
  induction l as [|a l IH]; intros g g' Hop Hargs Hadj.
  - reflexivity.
  - destruct l as [|b l].
    + cbn in *. unfold Workflow.same_group in *. now rewrite Hop, Hargs.
    + cbn [Workflow.adjacent_distinct app] in *.
      apply andb_true_iff in Hadj as [H1 H2]. rewrite H1. cbn [andb].
      now apply (IH g g').
Qed.

Lemma group_is_maximal ts : forall n,
  adjacent_distinct (groupTransformations n (Some ts)) = true.
Proof.
  intros n. rewrite groupTransformations_fold.
  pose (P := fun (seen : list JsObj) (acc : GroupAcc) =>
               adjacent_distinct (groups_of acc) = true
               /\ (snd (fst acc) = None -> fst (fst acc) = [])).
  apply (fold_group_invariant P) with (seen := []) (acc := ([], None, n)).
  - clear. intros seen acc t [Hadj Hnone]. unfold P.
    pose proof (group_step_cases acc t) as Hc.
    destruct acc as [[grouped cur] n]. cbn [fst snd] in *.
    destruct Hc as [(g & -> & _ & ->)|(Hm & ->)]; cbn [groups_of close_group fst snd] in *.
    + split; [|discriminate].
      now apply (adjacent_distinct_same_content grouped g).
    + split; [|discriminate].
      destruct cur as [g|]; cbn [close_group] in *.
      * apply adjacent_distinct_snoc; [assumption|]. exact Hm.
      * rewrite (Hnone eq_refl). reflexivity.
  - split; [reflexivity|auto].
Qed.

(** X2: the groups are maximal: no group that [groupTransformations]
    returns is followed by one with the same [op] and JSON-equal [args]. *)
Theorem groupTransformations_groups_are_maximal (n : nat) (ts : list JsObj) :
  adjacent_distinct (groupTransformations n (Some ts)) = true.
Proof. apply group_is_maximal. Qed.

(** *** Saving an unedited pipeline *)

Lemma flat_record_args_ok s c :
  args_ok s -> flat_record s c = ("op", op s) :: ("col", c) :: args s.
Proof.
  intros (Hwf & Hop & Hcol). unfold flat_record.
  rewrite obj_spread_fresh; [reflexivity | assumption |].
  intros k Hin. apply obj_has_In in Hin.
  change (obj_has k [("op", op s); ("col", c)])
    with (String.eqb "op" k || (String.eqb "col" k || false)).
  rewrite orb_false_r. apply orb_false_iff.
  split; apply String.eqb_neq; intros <-; congruence.
Qed.

Lemma rest_of_flat_record s c : args_ok s -> rest_of (flat_record s c) = args s.
Proof.
  intros Hok. rewrite (flat_record_args_ok s c Hok).
  destruct Hok as (_ & Hop & Hcol). unfold rest_of.
  simpl. rewrite (obj_remove_absent "op") by assumption.
  simpl. now rewrite (obj_remove_absent "col").
Qed.

Lemma rest_of_args_ok t n c :
  obj_wf t -> args_ok (mkStep n (obj_get "op" t) c (rest_of t)).
Proof.
  intros Hwf. unfold args_ok, rest_of. cbn [args]. repeat split.
  - now apply FlattenFacts.obj_wf_remove, FlattenFacts.obj_wf_remove.
  - rewrite !FlattenFacts.obj_has_remove. reflexivity.
  - rewrite !FlattenFacts.obj_has_remove. reflexivity.
Qed.

Local Abbreviation reading := (reading JSON_stringify).

Lemma flatTransformations_snoc l g :
  flatTransformations (l ++ [g]) = flatTransformations l ++ map (flat_record g) (cols g).
Proof.
  rewrite FlattenFacts.flatTransformations_app. unfold flatTransformations at 2.
  cbn [flat_map]. now rewrite app_nil_r.
Qed.

Lemma reading_flat_record s c :
  args_ok s -> reading (flat_record s c) = (op s, c, JSON_stringify (args s)).
Proof.
  intros Hok. unfold Notions.reading. rewrite (rest_of_flat_record s c Hok).
  rewrite (flat_record_args_ok s c Hok). reflexivity.
Qed.

Lemma regroup_reads_the_same ts : forall n,
  Forall obj_wf ts ->
  map reading (flatTransformations (groupTransformations n (Some ts)))
  = map reading ts.
Proof.
  intros n Hts. rewrite groupTransformations_fold.
  pose (P := fun (seen : list JsObj) (acc : GroupAcc) =>
               Forall obj_wf seen ->
               Forall args_ok (groups_of acc)
               /\ map reading (flatTransformations (groups_of acc)) = map reading seen).
  assert (HP : P ([] ++ ts) (fold_left group_step ts ([], None, n))).
  { apply (fold_group_invariant P).
    - clear. intros seen acc t IH Hwf. unfold P in IH.
      apply Forall_app in Hwf as [Hseen Ht]. inversion Ht as [|? ? Htwf _]; subst.
      destruct (IH Hseen) as [Hok Hread]. clear IH.
      pose proof (group_step_cases acc t) as Hc.
      destruct acc as [[grouped cur] n].
      destruct Hc as [(g & -> & Hm & ->)|(_ & ->)]; cbn [groups_of close_group] in *.
      + apply Forall_app in Hok as [Hgr Hg]. inversion Hg as [|? ? Hgok _]; subst.
        set (g' := mkStep (id g) (op g) (cols g ++ [obj_get "col" t]) (args g)).
        assert (Hg'ok : args_ok g') by exact Hgok.
        split; [apply Forall_app; split; [assumption|constructor; [assumption|constructor]]|].
        rewrite flatTransformations_snoc in *.
        replace (map (flat_record g') (cols g'))
          with (map (flat_record g) (cols g) ++ [flat_record g' (obj_get "col" t)])
          by (unfold g'; cbn [cols]; now rewrite map_app).
        rewrite app_assoc, map_app, Hread, map_app. f_equal. cbn [map].
        rewrite (reading_flat_record g' _ Hg'ok). unfold Notions.reading.
        cbn [op args g'].
        apply andb_true_iff in Hm as [Hop Hjson].
        apply js_strict_eq_true in Hop. apply String.eqb_eq in Hjson.
        now rewrite Hop, Hjson.
      + set (g' := mkStep (random_id n) (obj_get "op" t) [obj_get "col" t] (rest_of t)).
        assert (Hg'ok : args_ok g') by now apply rest_of_args_ok.
        split; [apply Forall_app; split; [assumption|constructor; [assumption|constructor]]|].
        rewrite flatTransformations_snoc, !map_app, Hread. f_equal.
        cbn [cols g' map].
        now rewrite (reading_flat_record g' _ Hg'ok).
    - intros _. split; [constructor|reflexivity]. }
  exact (proj2 (HP Hts)).
Qed.

(** X3: opening a stored list and flattening the groups again, with no
    edit in between, gives as many records as were stored, each with the
    [op] and [col] of the stored one and remaining arguments of the same
    JSON text, in the same order. *)
Theorem unedited_pipeline_is_resent_as_stored (n : nat) (ts : list JsObj) :
  Forall obj_wf ts ->
  map reading (flatTransformations (groupTransformations n (Some ts))) = map reading ts
  /\ List.length (flatTransformations (groupTransformations n (Some ts)))
     = List.length ts.
Proof.
  intros Hts. pose proof (regroup_reads_the_same ts n Hts) as H.
  split; [exact H|].
  apply (f_equal (@List.length _)) in H. now rewrite !length_map in H.
Qed.

(** X4: grouping is stable: flattening the groups of a stored list and
    grouping again gives the same groups, ids aside. *)
Theorem regrouping_gives_the_same_groups (n m : nat) (ts : list JsObj) :
  Forall (fun t => obj_wf t /\ is_string (obj_get "op" t)) ts ->
  map content
    (groupTransformations m
       (Some (flatTransformations (groupTransformations n (Some ts)))))
  = map content (groupTransformations n (Some ts)).
Proof.
  intros Hts.
  set (steps := groupTransformations n (Some ts)).
  assert (Hwf : Forall step_wf steps)
    by now apply FlattenFacts.groupTransformations_steps_wf.
  destruct (group_keeps_columns ts n) as [_ Hne].
  pose proof (group_is_maximal ts n) as Hadj.
  destruct (FlattenFacts.group_steps JSON_stringify random_id steps Hwf Hne Hadj [] None m I)
    as (grouped' & cur' & Hfold & Hcontent).
  unfold Workflow.groupTransformations, groupTransformations_from.
  rewrite Hfold. exact Hcontent.
Qed.

End Grouping.

Lemma stored_list_wf : Forall obj_wf MoreSamples.stored_list.
Proof.
  repeat constructor; cbn; intuition discriminate.
Defined.

Lemma unedited_pipeline_is_resent_as_stored_sample :
  map (Notions.reading Samples.JSON_stringify)
    (flatTransformations
       (groupTransformations Samples.JSON_stringify Samples.random_id 0
          (Some MoreSamples.stored_list)))
  = map (Notions.reading Samples.JSON_stringify) MoreSamples.stored_list.
Proof.
  exact (proj1 (unedited_pipeline_is_resent_as_stored
                  Samples.JSON_stringify Samples.random_id 0
                  MoreSamples.stored_list stored_list_wf)).
Defined.

Lemma stored_list_wf_with_ops :
  Forall (fun t => obj_wf t /\ is_string (obj_get "op" t)) MoreSamples.stored_list.
Proof.
  repeat constructor; cbn; try (eexists; reflexivity); intuition discriminate.
Defined.

Lemma regrouping_gives_the_same_groups_sample :
  map content
    (groupTransformations Samples.JSON_stringify Samples.random_id 5
       (Some (flatTransformations
                (groupTransformations Samples.JSON_stringify Samples.random_id 0
                   (Some MoreSamples.stored_list)))))
  = [(JStr "log", [JStr "price"; JStr "volume"], []);
     (JStr "lag", [JStr "price"], [("periods", JNum 1)])].
Proof.
  exact (regrouping_gives_the_same_groups Samples.JSON_stringify Samples.random_id
           0 5 MoreSamples.stored_list stored_list_wf_with_ops).
Defined.

End GroupingFacts.

(* ===================================================================== *)
(** ** More on the builder *)
(* ===================================================================== *)

Module BuilderFacts.
Import Js Api Workflow JsFacts Notions.

(** X5: a lag whose count does not parse to a number of at least 1 adds no
    step, yet the column selection is cleared all the same. *)
Theorem addStep_lag_without_count (random_id : nat -> string) (d : Dialog) :
  selectedCols d <> [] ->
  newOp_op (newOp d) = "lag" ->
  (forall N,
      parseInt (js_or (obj_get "max_lag" (newOp_args (newOp d))) (JStr "1")) = JNum N ->
      (N <= 0)%Z) ->
  pipelineSteps (addStep random_id d) = pipelineSteps d
  /\ selectedCols (addStep random_id d) = []
  /\ ids_drawn (addStep random_id d) = ids_drawn d.
Proof.
  intros Hsel Hop Hcount. unfold addStep.
  destruct (selectedCols d) as [|c0 cs0] eqn:Esel; [congruence|].
  rewrite Hop, String.eqb_refl.
  set (maxLag := parseInt (js_or (obj_get "max_lag" (newOp_args (newOp d))) (JStr "1"))) in *.
  assert (Hnone : lag_steps random_id d maxLag = []).
  { unfold lag_steps. destruct maxLag as [| | | N | | | |]; try reflexivity.
    specialize (Hcount N eq_refl). now replace (Z.to_nat N) with 0%nat by lia. }
  rewrite Hnone. cbn. rewrite app_nil_r, Nat.add_0_r. auto.
Qed.

Lemma addStep_lag_without_count_sample :
  pipelineSteps (addStep Samples.random_id MoreSamples.lag_0_dialog) = [Samples.log_step]
  /\ selectedCols (addStep Samples.random_id MoreSamples.lag_0_dialog) = []
  /\ ids_drawn (addStep Samples.random_id MoreSamples.lag_0_dialog) = 1%nat.
Proof.
  refine (addStep_lag_without_count Samples.random_id MoreSamples.lag_0_dialog _ eq_refl _).
  - discriminate.
  - intros N HN. vm_compute in HN. inversion HN. lia.
Defined.

Lemma filter_keeps_all {A} (p : A -> bool) (l : list A) :
  (forall x, In x l -> p x = true) -> filter p l = l.
Proof.
  induction l as [|x l IH]; intros H; simpl; [reflexivity|].
  rewrite (H x) by now left. f_equal. apply IH. intros y Hy. apply H. now right.
Qed.

(** X6: removing the step that was just added gives back the pipeline, as
    long as no older step carries the id the new step drew. *)
Theorem removeStep_undoes_addStep (random_id : nat -> string) (d : Dialog) :
  selectedCols d <> [] ->
  newOp_op (newOp d) <> "lag" ->
  newOp_op (newOp d) <> "groupby_agg" ->
  Forall (fun s => id s <> random_id (ids_drawn d)) (pipelineSteps d) ->
  pipelineSteps (removeStep (random_id (ids_drawn d)) (addStep random_id d))
  = pipelineSteps d.
Proof.
  intros Hsel Hlag Hgb Hfresh. unfold addStep.
  destruct (selectedCols d) as [|c0 cs0] eqn:Esel; [congruence|].
  apply String.eqb_neq in Hlag. apply String.eqb_neq in Hgb. rewrite Hlag, Hgb.
  unfold removeStep. cbn. rewrite filter_app. cbn. rewrite String.eqb_refl. cbn.
  rewrite app_nil_r. apply filter_keeps_all.
  intros s Hs. rewrite Forall_forall in Hfresh.
  apply negb_true_iff, String.eqb_neq. now apply Hfresh.
Qed.

Lemma removeStep_undoes_addStep_sample :
  pipelineSteps
    (removeStep (Samples.random_id 1) (addStep Samples.random_id Samples.clip_dialog))
  = [Samples.log_step].
Proof.
  refine (removeStep_undoes_addStep Samples.random_id Samples.clip_dialog _ _ _ _).
  - discriminate.
  - discriminate.
  - discriminate.
  - repeat constructor. vm_compute. discriminate.
Defined.

(** X7: [handleArgChange(key, value)] makes the argument [key] read [value]
    and leaves every other argument, the op, the pipeline and the column
    selection as they were; the arguments stay a proper object. *)
Theorem handleArgChange_sets_one_argument (key : string) (value : JVal) (d : Dialog) :
  obj_wf (newOp_args (newOp d)) ->
  obj_get key (newOp_args (newOp (handleArgChange key value d))) = value
  /\ (forall k, k <> key ->
                obj_get k (newOp_args (newOp (handleArgChange key value d)))
                = obj_get k (newOp_args (newOp d)))
  /\ obj_wf (newOp_args (newOp (handleArgChange key value d)))
  /\ newOp_op (newOp (handleArgChange key value d)) = newOp_op (newOp d)
  /\ pipelineSteps (handleArgChange key value d) = pipelineSteps d
  /\ selectedCols (handleArgChange key value d) = selectedCols d.
Proof.
  intros Hwf. unfold handleArgChange. cbn. rewrite (obj_spread_nil _ Hwf).
  repeat split.
  - apply obj_get_set_same.
  - intros k Hk. apply obj_get_set_other. congruence.
  - now apply AddStepFacts.obj_wf_set.
Qed.

Lemma handleArgChange_sets_one_argument_sample :
  obj_get "upper" (newOp_args (newOp (handleArgChange "upper" (JStr "5") Samples.clip_dialog)))
  = JStr "5".
Proof.
  refine (proj1 (handleArgChange_sets_one_argument "upper" (JStr "5") Samples.clip_dialog _)).
  unfold obj_wf; cbn. repeat constructor; cbn; intuition discriminate.
Defined.

Lemma addGroupFilter_keeps_selection_order_sample :
  js_or (obj_get "group_filters"
           (newOp_args
              (newOp (fold_left (fun d f => addGroupFilter f d) ["region"; "day"]
                        MoreSamples.groupby_form))))
    (JArr [])
  = JArr [JStr "region"; JStr "day"].
Proof.
  refine (proj1 (proj2 (AddStepFacts.addGroupFilter_keeps_selection_order
                          ["region"; "day"] MoreSamples.groupby_form [] _ eq_refl _ _))).
  - unfold obj_wf; cbn. repeat constructor; cbn; intuition discriminate.
  - repeat constructor; cbn; intuition discriminate.
  - cbn; intuition discriminate.
Defined.

Lemma filter_out_last (current : list string) (f : string) :
  ~ In f current ->
  filter (fun c => negb (js_strict_eq c (JStr f))) (map JStr current ++ [JStr f])
  = map JStr current.
Proof.
  intros Hnot. rewrite filter_app. cbn. rewrite String.eqb_refl. cbn.
  rewrite app_nil_r. apply filter_keeps_all.
  intros x Hx. apply in_map_iff in Hx as (y & <- & Hy). cbn.
  apply negb_true_iff, String.eqb_neq. intros ->. contradiction.
Qed.

(** X9: the "x" of a filter column undoes its choice: after choosing a column
    that was not yet among the filters and removing it again, the filters
    are the ones there were before; and choosing a column that is already a
    filter changes nothing. *)
Theorem removeGroupFilter_undoes_addGroupFilter (d : Dialog) (current : list string)
    (f : string) :
  obj_wf (newOp_args (newOp d)) ->
  js_or (obj_get "group_filters" (newOp_args (newOp d))) (JArr [])
  = JArr (map JStr current) ->
  f <> "" ->
  (~ In f current ->
   obj_get "group_filters"
     (newOp_args (newOp (GroupFilters.removeGroupFilter f (addGroupFilter f d))))
   = JArr (map JStr current))
  /\ (In f current -> addGroupFilter f d = d).
Proof.
  intros Hwf Hgf Hne. apply String.eqb_neq in Hne. split.
  - intros Hnot.
    assert (Hfresh : existsb (js_strict_eq (JStr f)) (map JStr current) = false).
    { apply not_true_is_false. intros Hex.
      apply existsb_exists in Hex as (x & Hin & Heq).
      apply in_map_iff in Hin as (y & <- & Hin). cbn in Heq.
      apply String.eqb_eq in Heq; subst y. contradiction. }
    unfold addGroupFilter. rewrite Hne, Hgf, Hfresh.
    set (d1 := handleArgChange "group_filters" (JArr (map JStr current ++ [JStr f])) d).
    assert (Hargs1 : newOp_args (newOp d1)
                     = obj_set "group_filters" (JArr (map JStr current ++ [JStr f]))
                         (newOp_args (newOp d))).
    { unfold d1, handleArgChange. cbn. now rewrite obj_spread_nil. }
    unfold GroupFilters.removeGroupFilter. rewrite Hargs1, obj_get_set_same.
    cbn [js_or js_truthy]. rewrite (filter_out_last current f Hnot).
    unfold handleArgChange. cbn [newOp newOp_args setNewOp].
    rewrite Hargs1, obj_spread_nil by now apply AddStepFacts.obj_wf_set.
    apply obj_get_set_same.
  - intros Hin. unfold addGroupFilter. rewrite Hne, Hgf.
    assert (Hex : existsb (js_strict_eq (JStr f)) (map JStr current) = true).
    { apply existsb_exists. exists (JStr f). split; [now apply in_map|].
      cbn. apply String.eqb_refl. }
    now rewrite Hex.
Qed.

Lemma removeGroupFilter_undoes_addGroupFilter_sample :
  obj_get "group_filters"
    (newOp_args
       (newOp (GroupFilters.removeGroupFilter "region"
                 (addGroupFilter "region" MoreSamples.groupby_form))))
  = JArr [].
Proof.
  refine (proj1 (removeGroupFilter_undoes_addGroupFilter
                   MoreSamples.groupby_form [] "region" _ eq_refl _) _).
  - unfold obj_wf; cbn. repeat constructor; cbn; intuition discriminate.
  - discriminate.
  - intros [].
Defined.

Lemma addStep_keeps_steps_wf_sample :
  Forall step_wf (pipelineSteps (addStep Samples.random_id Samples.lag_dialog)).
Proof.
  refine (AddStepFacts.addStep_keeps_steps_wf Samples.random_id Samples.lag_dialog _ _ _ _).
  - repeat constructor; try (eexists; reflexivity).
  - unfold obj_wf; cbn. repeat constructor; cbn; intuition discriminate.
  - reflexivity.
  - reflexivity.
Defined.

End BuilderFacts.

(* ===================================================================== *)
(** ** Transfer lists *)
(* ===================================================================== *)

Module TransferFacts.
Import Js Api Notions.

Lemma includes_In xs x : includes xs x = true <-> In x xs.
Proof.
  unfold includes. rewrite existsb_exists. split.
  - intros (y & Hin & Heq). apply String.eqb_eq in Heq. now subst.
  - intros Hin. exists x. split; [assumption | apply String.eqb_refl].
Qed.

Lemma includes_false xs x : includes xs x = false <-> ~ In x xs.
Proof.
  rewrite <- includes_In. destruct (includes xs x); split; congruence.
Qed.

Lemma filter_none {A} (p : A -> bool) (l : list A) :
  (forall x, In x l -> p x = false) -> filter p l = [].
Proof.
  induction l as [|x l IH]; intros H; simpl; [reflexivity|].
  rewrite (H x) by now left. apply IH. intros y Hy. apply H. now right.
Qed.

Lemma toggle_In item prev x :
  In x (Workflow.toggle item prev) -> x = item \/ In x prev.
Proof.
  unfold Workflow.toggle. destruct (includes prev item).
  - intros H. apply filter_In in H. tauto.
  - intros H. apply in_app_or in H as [H|[H|[]]]; auto.
Qed.

Lemma toggle_NoDup item prev : NoDup prev -> NoDup (Workflow.toggle item prev).
Proof.
  intros Hnd. unfold Workflow.toggle. destruct (includes prev item) eqn:E.
  - now apply NoDup_filter.
  - apply includes_false in E. apply NoDup_app; [assumption|repeat constructor; auto|].
    intros a Ha [<-|[]]. contradiction.
Qed.

(** Clicking an item flips whether it is marked, and touches no other. *)
Lemma toggle_flips item prev x :
  In x (Workflow.toggle item prev)
  <-> (x = item /\ ~ In item prev) \/ (x <> item /\ In x prev).
Proof.
  unfold Workflow.toggle. destruct (includes prev item) eqn:E.
  - apply includes_In in E. rewrite filter_In, negb_true_iff, String.eqb_neq.
    split.
    + intros [Hin Hne]. right. auto.
    + intros [[-> Hnot]|[Hne Hin]]; [contradiction|auto].
  - apply includes_false in E. rewrite in_app_iff. cbn. split.
    + intros [Hin|[<-|[]]].
      * right. split; [intros ->; contradiction|assumption].
      * left. auto.
    + intros [[-> _]|[_ Hin]]; auto.
Qed.

(** The moves of a transfer list keep it in good order. *)
Lemma move_right_ok columns selected marked :
  transfer_ok columns selected marked -> transfer_ok columns (selected ++ marked) [].
Proof.
  intros (Hc & Hs & Hincl & Hm & Hmarked). repeat split; try assumption.
  - apply NoDup_app; try assumption.
    intros a Ha Hma. now apply (proj2 (Hmarked a Hma)).
  - apply incl_app; [assumption|]. intros x Hx. now apply Hmarked.
  - constructor.
  - destruct H.
  - destruct H.
Qed.

Lemma move_left_ok columns selected marked (p : string -> bool) :
  transfer_ok columns selected marked -> transfer_ok columns (filter p selected) marked.
Proof.
  intros (Hc & Hs & Hincl & Hm & Hmarked). repeat split; try assumption.
  - now apply NoDup_filter.
  - intros x Hx. apply Hincl. now apply filter_In in Hx.
  - now apply Hmarked.
  - intros Hin. apply filter_In in Hin as [Hin _]. now apply (proj2 (Hmarked x H)).
Qed.

Lemma move_all_ok columns selected marked (visible : list string) :
  transfer_ok columns selected marked ->
  NoDup visible -> incl visible columns -> (forall x, In x visible -> ~ In x selected) ->
  transfer_ok columns (selected ++ visible) [].
Proof.
  intros (Hc & Hs & Hincl & Hm & Hmarked) Hv Hvc Hvs. repeat split; try assumption.
  - apply NoDup_app; try assumption. intros a Ha Hva. now apply (Hvs a Hva).
  - now apply incl_app.
  - constructor.
  - destruct H.
  - destruct H.
Qed.

Lemma clear_ok columns selected marked :
  transfer_ok columns selected marked -> transfer_ok columns [] marked.
Proof.
  intros (Hc & Hs & Hincl & Hm & Hmarked). repeat split; try assumption.
  - constructor.
  - intros x [].
  - now apply Hmarked.
  - intros [].
Qed.

Lemma mark_ok columns selected marked item :
  transfer_ok columns selected marked ->
  In item columns -> ~ In item selected ->
  transfer_ok columns selected (Workflow.toggle item marked).
Proof.
  intros (Hc & Hs & Hincl & Hm & Hmarked) Hic His. repeat split; try assumption.
  - now apply toggle_NoDup.
  - apply toggle_In in H as [->|H]; [assumption|now apply Hmarked].
  - apply toggle_In in H as [->|H]; [assumption|now apply Hmarked].
Qed.

(** *** The manage tab *)

Lemma addGlobalFilter_leaves_selection random_id d :
  Workflow.columns (Workflow.addGlobalFilter random_id d) = Workflow.columns d
  /\ Workflow.activeFeatureSelection (Workflow.addGlobalFilter random_id d)
     = Workflow.activeFeatureSelection d
  /\ Workflow.leftSelection (Workflow.addGlobalFilter random_id d)
     = Workflow.leftSelection d.
Proof.
  unfold Workflow.addGlobalFilter.
  destruct (Workflow.findIndex Workflow.is_filter (Workflow.pipelineSteps d));
    [|repeat split].
  destruct (nth_error (Workflow.pipelineSteps d) n); [|repeat split].
  destruct (spread_items _); repeat split.
Qed.

Lemma perform_keeps_transfer_ok random_id d a :
  transfer_ok (Workflow.columns d) (Workflow.activeFeatureSelection d)
    (Workflow.leftSelection d) ->
  transfer_ok (Workflow.columns (Workflow.perform random_id d a))
    (Workflow.activeFeatureSelection (Workflow.perform random_id d a))
    (Workflow.leftSelection (Workflow.perform random_id d a)).
Proof.
  intros Hok. unfold Workflow.perform.
  destruct (Workflow.enabled d a) eqn:Hen; [|assumption].
  destruct a as [item [|]| | | | |c|]; cbn [Workflow.enabled] in Hen.
  - cbn. apply includes_In in Hen. unfold Workflow.leftList in Hen.
    apply filter_In in Hen as [Hcol Hp]. apply andb_true_iff in Hp as [Hp _].
    apply negb_true_iff, includes_false in Hp. now apply mark_ok.
  - exact Hok.
  - cbn. now apply move_right_ok.
  - cbn. now apply move_left_ok.
  - cbn. destruct Hok as (Hc & Hs & Hincl & Hm & Hmarked). repeat split.
    + assumption.
    + now apply NoDup_filter.
    + apply incl_filter.
    + constructor.
    + destruct H.
    + destruct H.
  - cbn. now apply (clear_ok _ (Workflow.activeFeatureSelection d)).
  - exact Hok.
  - destruct (addGlobalFilter_leaves_selection random_id d) as (-> & -> & ->).
    exact Hok.
Qed.

(** X10: a transfer list in good order stays in good order under whatever
    is done on the manage tab, and its columns stay the same: the active
    selection remains free of duplicates and within the loaded columns.
    Good order includes the marks of the "Available" box, which [moveRight]
    appends as they are: they are distinct columns that are not active. *)
Theorem manage_tab_keeps_selection_in_order
    (random_id : nat -> string) (d : Workflow.Dialog) (actions : list Workflow.Action) :
  transfer_ok (Workflow.columns d) (Workflow.activeFeatureSelection d)
    (Workflow.leftSelection d) ->
  transfer_ok (Workflow.columns (Workflow.run random_id d actions))
    (Workflow.activeFeatureSelection (Workflow.run random_id d actions))
    (Workflow.leftSelection (Workflow.run random_id d actions))
  /\ Workflow.columns (Workflow.run random_id d actions) = Workflow.columns d.
Proof.
  unfold Workflow.run. revert d.
  induction actions as [|a actions IH]; intros d Hok; cbn [fold_left].
  - auto.
  - destruct (IH (Workflow.perform random_id d a)
                (perform_keeps_transfer_ok random_id d a Hok)) as [H1 H2].
    split; [assumption|]. rewrite H2. clear.
    unfold Workflow.perform. destruct (Workflow.enabled d a); [|reflexivity].
    destruct a as [item [|]| | | | |c|]; try reflexivity.
    apply addGlobalFilter_leaves_selection.
Qed.

(** X11: "Add All" makes active exactly the columns other than the target and
    leaves the "Available" box empty; "Remove All" puts every column but
    the target back into it. *)
Theorem moveAllRight_takes_all_but_target (d : Workflow.Dialog) :
  (forall c, In c (Workflow.activeFeatureSelection (Workflow.moveAllRight d))
             <-> In c (Workflow.columns d) /\ c <> Workflow.activeTargetCol d)
  /\ Workflow.leftList (Workflow.moveAllRight d) = []
  /\ Workflow.leftList (Workflow.moveAllLeft d)
     = filter (fun c => negb (String.eqb c (Workflow.activeTargetCol d)))
         (Workflow.columns d).
Proof.
  repeat split.
  - cbn in H. now apply filter_In in H.
  - cbn in H. apply filter_In in H as [_ H].
    now apply negb_true_iff, String.eqb_neq in H.
  - intros [Hin Hne]. cbn. apply filter_In. split; [assumption|].
    now apply negb_true_iff, String.eqb_neq.
  - unfold Workflow.leftList. cbn. apply filter_none. intros c Hc.
    destruct (String.eqb c (Workflow.activeTargetCol d)) eqn:E.
    + apply andb_false_r.
    + apply andb_false_iff. left. apply negb_false_iff.
      apply (proj2 (includes_In _ c)).
      apply filter_In. split; [assumption|]. now rewrite E.
Qed.

(** X12: moving marked columns to the right and then the same columns back
    to the left restores the active selection, when none of them was active
    before. *)
Theorem moveLeft_undoes_moveRight (d : Workflow.Dialog) (marked_right : list string) :
  (forall x, In x (Workflow.leftSelection d) -> ~ In x (Workflow.activeFeatureSelection d)) ->
  (forall x, In x marked_right <-> In x (Workflow.leftSelection d)) ->
  Workflow.activeFeatureSelection
    (Workflow.moveLeft (Workflow.setRightSelection marked_right (Workflow.moveRight d)))
  = Workflow.activeFeatureSelection d.
Proof.
  intros Hdisj Hsame. cbn. rewrite filter_app.
  rewrite BuilderFacts.filter_keeps_all, filter_none.
  - apply app_nil_r.
  - intros x Hx. apply negb_false_iff, includes_In. now apply Hsame.
  - intros x Hx. apply negb_true_iff, includes_false. intros Hin.
    apply Hsame in Hin. now apply (Hdisj x).
Qed.

Lemma fresh_dialog_ok :
  transfer_ok (Workflow.columns Samples.fresh_dialog)
    (Workflow.activeFeatureSelection Samples.fresh_dialog)
    (Workflow.leftSelection Samples.fresh_dialog).
Proof.
  cbn. repeat split.
  - repeat constructor; cbn; intuition discriminate.
  - repeat constructor; cbn; intuition discriminate.
  - intros x Hx. exact Hx.
  - constructor.
  - destruct H.
  - destruct H.
Defined.

(** On the dialog first opened on [fresh_set], where nothing is marked:
    after "Remove All", a click on [price], "Add" and the choice of a
    target, the active selection is [price] alone. *)
Lemma manage_tab_keeps_selection_in_order_sample :
  NoDup (Workflow.activeFeatureSelection
           (Workflow.run Samples.random_id Samples.fresh_dialog
              [Workflow.MoveAllLeft; Workflow.ToggleSelection "price" Workflow.left;
               Workflow.MoveRight; Workflow.SelectTarget "sales"]))
  /\ incl (Workflow.activeFeatureSelection
             (Workflow.run Samples.random_id Samples.fresh_dialog
                [Workflow.MoveAllLeft; Workflow.ToggleSelection "price" Workflow.left;
                 Workflow.MoveRight; Workflow.SelectTarget "sales"]))
       ["price"; "sales"]
  /\ Workflow.activeFeatureSelection
       (Workflow.run Samples.random_id Samples.fresh_dialog
          [Workflow.MoveAllLeft; Workflow.ToggleSelection "price" Workflow.left;
           Workflow.MoveRight; Workflow.SelectTarget "sales"])
     = ["price"].
Proof.
  destruct (manage_tab_keeps_selection_in_order Samples.random_id Samples.fresh_dialog
              [Workflow.MoveAllLeft; Workflow.ToggleSelection "price" Workflow.left;
               Workflow.MoveRight; Workflow.SelectTarget "sales"]
              fresh_dialog_ok) as [(_ & Hnd & Hincl & _) Hcols].
  split; [exact Hnd|]. split; [|reflexivity].
  rewrite Hcols in Hincl. exact Hincl.
Defined.

Lemma moveLeft_undoes_moveRight_sample :
  Workflow.activeFeatureSelection
    (Workflow.moveLeft
       (Workflow.setRightSelection ["price"] (Workflow.moveRight MoreSamples.marked_dialog)))
  = [].
Proof.
  refine (moveLeft_undoes_moveRight MoreSamples.marked_dialog ["price"] _ _).
  - intros x _ [].
  - intros x. cbn. tauto.
Defined.

Lemma target_picked_among_active_is_saved_as_both_sample :
  exists r,
    Workflow.handleSaveActiveFeatures
      (Workflow.perform Samples.random_id Samples.fresh_dialog (Workflow.SelectTarget "price"))
    = Some r
    /\ obj_get "target_column" (body r) = JStr "price"
    /\ obj_get "active_features" (body r) = strings ["price"; "sales"].
Proof.
  refine (SelectionFacts.target_picked_among_active_is_saved_as_both
            Samples.random_id Samples.fresh_dialog Samples.fresh_set "price" eq_refl _ _ _).
  - cbn. auto.
  - discriminate.
  - cbn. auto.
Defined.

(** *** The builder tab *)

Section Builder.

Variable toLowerCase : string -> string.

Local Abbreviation leftList := (BuilderTab.leftList toLowerCase).
Local Abbreviation perform := (BuilderTab.perform toLowerCase).
Local Abbreviation run := (BuilderTab.run toLowerCase).
Local Abbreviation moveBuilderAllRight := (BuilderTab.moveBuilderAllRight toLowerCase).

Lemma builder_leftList_spec b c :
  In c (leftList b)
  <-> In c (BuilderTab.columns b) /\ ~ In c (BuilderTab.selectedCols b)
      /\ str_includes (toLowerCase c) (toLowerCase (BuilderTab.colFilter b)) = true.
Proof.
  unfold BuilderTab.leftList. rewrite filter_In, andb_true_iff, negb_true_iff.
  now rewrite includes_false.
Qed.

Lemma builder_perform_keeps_transfer_ok b a :
  transfer_ok (BuilderTab.columns b) (BuilderTab.selectedCols b)
    (BuilderTab.builderLeftSelection b) ->
  transfer_ok (BuilderTab.columns (perform b a))
    (BuilderTab.selectedCols (perform b a))
    (BuilderTab.builderLeftSelection (perform b a)).
Proof.
  intros Hok. unfold BuilderTab.perform.
  destruct (BuilderTab.enabled toLowerCase b a) eqn:Hen; [|assumption].
  destruct a as [item [|]| | | | |text]; cbn [BuilderTab.enabled] in Hen.
  - cbn. apply includes_In, builder_leftList_spec in Hen as (Hc & Hs & _).
    now apply mark_ok.
  - exact Hok.
  - cbn. now apply move_right_ok.
  - cbn. now apply move_left_ok.
  - cbn. apply (move_all_ok _ _ (BuilderTab.builderLeftSelection b)); [assumption| | |].
    + apply NoDup_filter. apply Hok.
    + apply incl_filter.
    + intros x Hx. now apply builder_leftList_spec in Hx.
  - cbn. now apply (clear_ok _ (BuilderTab.selectedCols b)).
  - exact Hok.
Qed.

(** X14: the builder's transfer list stays in good order under whatever is
    done on it, whatever the host's [toLowerCase] is, and its columns stay
    the same: the selected columns remain free of duplicates and within the
    loaded columns, so a step never names a column twice.  Good order
    includes the marks of the "Available" box, which [moveBuilderRight]
    appends as they are. *)
Theorem builder_selection_stays_in_order (b : BuilderTab.Cells)
    (actions : list BuilderTab.Action) :
  transfer_ok (BuilderTab.columns b) (BuilderTab.selectedCols b)
    (BuilderTab.builderLeftSelection b) ->
  transfer_ok (BuilderTab.columns (run b actions))
    (BuilderTab.selectedCols (run b actions))
    (BuilderTab.builderLeftSelection (run b actions))
  /\ BuilderTab.columns (run b actions) = BuilderTab.columns b.
Proof.
  unfold BuilderTab.run. revert b.
  induction actions as [|a actions IH]; intros b Hok; cbn [fold_left].
  - auto.
  - destruct (IH (perform b a) (builder_perform_keeps_transfer_ok b a Hok)) as [H1 H2].
    split; [assumption|]. rewrite H2. clear.
    unfold BuilderTab.perform. destruct (BuilderTab.enabled toLowerCase b a); [|reflexivity].
    destruct a as [item [|]| | | | |text]; reflexivity.
Qed.

(** X15: "Add All Visible" adds the loaded columns whose lower-cased name
    contains the lower-cased filter text, and no other; after it the
    "Available" box is empty.  This holds whatever the host's [toLowerCase]
    is. *)
Theorem moveBuilderAllRight_adds_the_visible (b : BuilderTab.Cells) :
  (forall c, In c (BuilderTab.selectedCols (moveBuilderAllRight b))
             <-> In c (BuilderTab.selectedCols b)
                 \/ (In c (BuilderTab.columns b)
                     /\ str_includes (toLowerCase c)
                          (toLowerCase (BuilderTab.colFilter b)) = true))
  /\ leftList (moveBuilderAllRight b) = [].
Proof.
  split.
  - intros c. cbn. rewrite in_app_iff, builder_leftList_spec. split.
    + intros [H|(H1 & _ & H3)]; auto.
    + intros [H|[H1 H2]]; [auto|].
      destruct (includes (BuilderTab.selectedCols b) c) eqn:E.
      * left. now apply includes_In.
      * right. repeat split; try assumption. now apply includes_false.
  - unfold BuilderTab.leftList at 1. apply filter_none. intros c Hc.
    cbn [BuilderTab.selectedCols BuilderTab.colFilter BuilderTab.moveBuilderAllRight].
    destruct (str_includes (toLowerCase c) (toLowerCase (BuilderTab.colFilter b))) eqn:Ef;
      [|apply andb_false_r].
    rewrite andb_true_r. apply negb_false_iff, includes_In, in_or_app.
    destruct (includes (BuilderTab.selectedCols b) c) eqn:E.
    + left. now apply includes_In.
    + right. apply builder_leftList_spec. repeat split; try assumption.
      now apply includes_false.
Qed.

End Builder.

Lemma builder_cells_ok :
  transfer_ok (BuilderTab.columns MoreSamples.builder_cells)
    (BuilderTab.selectedCols MoreSamples.builder_cells)
    (BuilderTab.builderLeftSelection MoreSamples.builder_cells).
Proof.
  cbn. repeat split.
  - repeat constructor; cbn; intuition discriminate.
  - repeat constructor; cbn; intuition discriminate.
  - intros x [<-|[]]. cbn. auto.
  - constructor.
  - destruct H.
  - destruct H.
Defined.

(** With [day] selected and the filter [PRICE] typed: "Add All Visible",
    a click on [volume] once the filter is cleared, then "Add". *)
Lemma builder_selection_stays_in_order_sample :
  NoDup (BuilderTab.selectedCols
           (BuilderTab.run MoreSamples.toLowerCase MoreSamples.builder_cells
              [BuilderTab.MoveAllRight; BuilderTab.TypeFilter "";
               BuilderTab.Toggle "volume" Workflow.left; BuilderTab.MoveRight]))
  /\ BuilderTab.selectedCols
       (BuilderTab.run MoreSamples.toLowerCase MoreSamples.builder_cells
          [BuilderTab.MoveAllRight; BuilderTab.TypeFilter "";
           BuilderTab.Toggle "volume" Workflow.left; BuilderTab.MoveRight])
     = ["day"; "price"; "Price_eur"; "volume"].
Proof.
  destruct (builder_selection_stays_in_order MoreSamples.toLowerCase
              MoreSamples.builder_cells
              [BuilderTab.MoveAllRight; BuilderTab.TypeFilter "";
               BuilderTab.Toggle "volume" Workflow.left; BuilderTab.MoveRight]
              builder_cells_ok) as [(_ & Hnd & _) _].
  split; [exact Hnd|reflexivity].
Defined.

(** With the filter [PRICE] typed, "Add All Visible" takes [price] and
    [Price_eur] and leaves [volume]. *)
Lemma moveBuilderAllRight_adds_the_visible_sample :
  In "Price_eur"
    (BuilderTab.selectedCols
       (BuilderTab.moveBuilderAllRight MoreSamples.toLowerCase MoreSamples.builder_cells))
  /\ ~ In "volume"
         (BuilderTab.selectedCols
            (BuilderTab.moveBuilderAllRight MoreSamples.toLowerCase
               MoreSamples.builder_cells))
  /\ BuilderTab.leftList MoreSamples.toLowerCase
       (BuilderTab.moveBuilderAllRight MoreSamples.toLowerCase MoreSamples.builder_cells)
     = [].
Proof.
  destruct (moveBuilderAllRight_adds_the_visible MoreSamples.toLowerCase
              MoreSamples.builder_cells) as [Hiff Hempty].
  split; [|split; [|exact Hempty]].
  - apply Hiff. right. split; [cbn; auto 6|reflexivity].
  - intros Hin. apply Hiff in Hin as [Hin|[_ Hin]].
    + destruct Hin as [Hin|[]]. discriminate.
    + discriminate.
Defined.

End TransferFacts.

(* ===================================================================== *)
(** ** The auto-generation request *)
(* ===================================================================== *)

Module AutoFacts.
Import Js Api.

Lemma serialized_keys_In k o :
  In k (serialized_keys o) <-> exists v, In (k, v) o /\ v <> JUndefined.
Proof.
  unfold serialized_keys, keys. rewrite in_map_iff. split.
  - intros ((k' & v) & Hk & Hin). cbn in Hk. subst k'.
    apply filter_In in Hin as [Hin Hv]. exists v. split; [assumption|].
    intros ->. discriminate.
  - intros (v & Hin & Hv). exists (k, v). split; [reflexivity|].
    apply filter_In. split; [assumption|]. destruct v; cbn; congruence.
Qed.

(** X16: the auto-generation request is a POST that goes out only when a
    version is chosen; it names [source_columns] exactly when input columns
    are selected, [target_column] exactly when a target is chosen, and
    [feature_set_id] only when a feature set is being edited; left out,
    they leave the choice to the server. *)
Theorem handleAutoSubmit_leaves_out_what_is_unset
    (parseFloat : string -> JVal) (a : AutoTab.Cells) (r : Request) :
  AutoTab.handleAutoSubmit parseFloat a = Some r ->
  AutoTab.selectedVersionId a <> ""
  /\ method r = POST /\ url r = "/features/auto-generate"
  /\ (In "source_columns" (serialized_keys (body r)) <-> AutoTab.autoSelectedCols a <> [])
  /\ (In "target_column" (serialized_keys (body r)) <-> AutoTab.autoTargetCol a <> "")
  /\ (In "feature_set_id" (serialized_keys (body r)) -> AutoTab.currentFeatureSet a <> None)
  /\ obj_get "source_columns" (body r)
     = match AutoTab.autoSelectedCols a with
       | [] => JUndefined
       | _ :: _ => strings (AutoTab.autoSelectedCols a)
       end.
Proof.
  unfold AutoTab.handleAutoSubmit.
  destruct (String.eqb (AutoTab.selectedVersionId a) "") eqn:Ev; [discriminate|].
  intros H. inversion H; subst; clear H. cbn [method url body].
  apply String.eqb_neq in Ev.
  repeat split; try assumption; try reflexivity.
  - intros Hin Hnil. apply serialized_keys_In in Hin as (v & Hin & Hv).
    cbn in Hin. rewrite Hnil in Hin.
    repeat (destruct Hin as [Hin|Hin];
            [inversion Hin; subst; try congruence; try (now apply Hv)|]).
    destruct Hin.
  - intros Hne. apply serialized_keys_In.
    destruct (AutoTab.autoSelectedCols a) as [|c cs] eqn:E; [congruence|].
    exists (strings (c :: cs)). split; [|discriminate]. cbn. tauto.
  - intros Hin Hnil. apply serialized_keys_In in Hin as (v & Hin & Hv).
    cbn in Hin. rewrite Hnil in Hin.
    repeat (destruct Hin as [Hin|Hin];
            [inversion Hin; subst; try congruence; try (now apply Hv)|]).
    destruct Hin.
  - intros Hne. apply serialized_keys_In.
    exists (JStr (AutoTab.autoTargetCol a)). split; [|discriminate].
    cbn. apply String.eqb_neq in Hne. unfold js_or. cbn. rewrite Hne. cbn. tauto.
  - intros Hin Hnone. apply serialized_keys_In in Hin as (v & Hin & Hv).
    cbn in Hin. rewrite Hnone in Hin.
    repeat (destruct Hin as [Hin|Hin];
            [inversion Hin; subst; try congruence; try (now apply Hv)|]).
    destruct Hin.
Qed.

Lemma handleAutoSubmit_leaves_out_what_is_unset_sample :
  exists r,
    AutoTab.handleAutoSubmit parseInt_string MoreSamples.auto_cells = Some r
    /\ ~ In "source_columns" (serialized_keys (body r))
    /\ In "target_column" (serialized_keys (body r)).
Proof.
  eexists. split; [reflexivity|].
  destruct (handleAutoSubmit_leaves_out_what_is_unset
              parseInt_string MoreSamples.auto_cells _ eq_refl)
    as (_ & _ & _ & Hsource & Htarget & _).
  split.
  - intros Hin. now apply Hsource in Hin.
  - apply Htarget. discriminate.
Defined.

End AutoFacts.

(* ===================================================================== *)
(** ** More on the analysis dialog *)
(* ===================================================================== *)

Module AnalysisFacts.
Import Js Api Analysis.

Lemma validCreated_incl cols created c :
  In c (validCreated cols created) -> In c cols.
Proof.
  induction created as [|v created IH]; simpl; [intros []|].
  destruct v; auto.
  destruct (includes cols s) eqn:E; [|assumption].
  intros [<-|H]; [|auto]. now apply TransferFacts.includes_In.
Qed.

(** X17: after the columns are fetched, every selected column is one of the
    fetched columns, whatever the stored feature set lists as active or as
    created, and a stored target is not among them. *)
Theorem fetchColumns_selects_fetched_columns
    (cols : list string) (d : Dialog) (fs : FeatureSet) :
  featureSet d = Some fs ->
  incl (selectedCols (fetchColumns cols d)) cols
  /\ availableColumns (fetchColumns cols d) = cols
  /\ (forall t, target_column fs = Some t -> t <> "" ->
                ~ In t (selectedCols (fetchColumns cols d))).
Proof.
  intros Hfs. split; [|split].
  - unfold fetchColumns. rewrite Hfs. cbn [selectedCols].
    assert (Hsel : forall sel, incl sel cols ->
              incl (match target_column fs with
                    | Some t => if String.eqb t "" then sel
                                else filter (fun c => negb (String.eqb c t)) sel
                    | None => sel
                    end) cols).
    { intros sel Hsel. destruct (target_column fs) as [t|]; [|assumption].
      destruct (String.eqb t ""); [assumption|].
      intros x Hx. apply Hsel. now apply filter_In in Hx. }
    apply Hsel.
    destruct (active_features fs) as [[|a af]|].
    + destruct (validCreated cols _) eqn:E; [intros x Hx; exact Hx|].
      rewrite <- E. intros x Hx. now apply validCreated_incl in Hx.
    + intros x Hx. apply filter_In in Hx as [_ Hx].
      now apply TransferFacts.includes_In.
    + destruct (validCreated cols _) eqn:E; [intros x Hx; exact Hx|].
      rewrite <- E. intros x Hx. now apply validCreated_incl in Hx.
  - unfold fetchColumns. rewrite Hfs. reflexivity.
  - intros t Ht Hne. now apply (SelectionFacts.fetchColumns_excludes_stored_target cols d fs t).
Qed.

Lemma fetchColumns_selects_fetched_columns_sample :
  incl (selectedCols
          (fetchColumns ["price"; "sales"]
             (openDialog Samples.stored_set (mkDialog None "" [] [] "" []))))
    ["price"; "sales"].
Proof.
  exact (proj1 (fetchColumns_selects_fetched_columns ["price"; "sales"]
                  (openDialog Samples.stored_set (mkDialog None "" [] [] "" []))
                  Samples.stored_set eq_refl)).
Defined.

Section Visible.

Variable toLowerCase : string -> string.

Local Abbreviation getVisibleColumns := (getVisibleColumns toLowerCase).
Local Abbreviation toggleAll := (toggleAll toLowerCase).

Lemma getVisibleColumns_spec d c :
  In c (getVisibleColumns d)
  <-> In c (availableColumns d) /\ c <> targetCol d
      /\ (colFilter d = ""
          \/ str_includes (toLowerCase c) (toLowerCase (colFilter d)) = true).
Proof.
  unfold Analysis.getVisibleColumns. destruct (String.eqb (colFilter d) "") eqn:E.
  - apply String.eqb_eq in E. rewrite filter_In, negb_true_iff, String.eqb_neq.
    tauto.
  - apply String.eqb_neq in E.
    rewrite !filter_In, negb_true_iff, String.eqb_neq. tauto.
Qed.

(** X18: "All" selects exactly the columns shown: the available columns
    other than the target whose lower-cased name contains the lower-cased
    filter text, whatever the host's [toLowerCase] is.  With a feature set
    loaded and a column shown, a save right after "All" is sent and lists
    the shown columns, the target never among them; a save right after
    "None" sends nothing. *)
Theorem toggleAll_selects_what_is_shown (d : Dialog) :
  (forall c, In c (selectedCols (toggleAll true d))
             <-> In c (availableColumns d) /\ c <> targetCol d
                 /\ (colFilter d = ""
                     \/ str_includes (toLowerCase c) (toLowerCase (colFilter d)) = true))
  /\ (forall fs,
         featureSet d = Some fs -> getVisibleColumns d <> [] ->
         exists r,
           handleSaveFeatures (toggleAll true d) = Some r
           /\ obj_get "active_features" (body r) = strings (getVisibleColumns d)
           /\ obj_get "target_column" (body r) = JStr (targetCol d)
           /\ ~ In (targetCol d) (getVisibleColumns d))
  /\ handleSaveFeatures (toggleAll false d) = None.
Proof.
  split; [|split].
  - intros c. cbn. apply getVisibleColumns_spec.
  - intros fs Hfs Hshown. unfold handleSaveFeatures. cbn. rewrite Hfs.
    destruct (Analysis.getVisibleColumns toLowerCase d) as [|c0 cs] eqn:E; [congruence|].
    eexists. split; [reflexivity|].
    cbn [body obj_get String.eqb Ascii.eqb Bool.eqb].
    split; [reflexivity|]. split; [reflexivity|]. rewrite <- E. intros Hin.
    apply getVisibleColumns_spec in Hin. tauto.
  - unfold handleSaveFeatures. cbn. now destruct (featureSet d).
Qed.

End Visible.

(** With [sales] the target and the filter [PRICE] typed, "All" selects
    [price] and [Price_eur], and the save lists those two. *)
Lemma toggleAll_selects_what_is_shown_sample :
  exists r,
    handleSaveFeatures (toggleAll MoreSamples.toLowerCase true MoreSamples.filtered_analysis)
    = Some r
    /\ obj_get "active_features" (body r) = strings ["price"; "Price_eur"]
    /\ obj_get "target_column" (body r) = JStr "sales".
Proof.
  destruct (toggleAll_selects_what_is_shown MoreSamples.toLowerCase
              MoreSamples.filtered_analysis) as (_ & Hsave & _).
  destruct (Hsave Samples.stored_set eq_refl) as (r & Hr & Ha & Ht & _).
  - discriminate.
  - exists r. split; [exact Hr|]. split; [|exact Ht]. rewrite Ha. reflexivity.
Defined.

(** X19: ticking a column flips whether it is selected and touches no other
    column; ticking it twice restores the selection when it was not
    selected. *)
Theorem toggleCol_flips_one_column (col : string) (d : Dialog) :
  (forall x, In x (selectedCols (toggleCol col d))
             <-> (x = col /\ ~ In col (selectedCols d))
                 \/ (x <> col /\ In x (selectedCols d)))
  /\ (~ In col (selectedCols d) ->
      selectedCols (toggleCol col (toggleCol col d)) = selectedCols d).
Proof.
  split.
  - intros x. cbn. apply (TransferFacts.toggle_flips col (selectedCols d) x).
  - intros Hnot. unfold toggleCol. cbn.
    apply TransferFacts.includes_false in Hnot. rewrite Hnot.
    assert (Hin : includes (selectedCols d ++ [col]) col = true).
    { apply TransferFacts.includes_In, in_or_app. right. now left. }
    unfold includes in Hin. rewrite Hin, filter_app. cbn. rewrite String.eqb_refl. cbn.
    rewrite app_nil_r. apply BuilderFacts.filter_keeps_all.
    intros x Hx. apply negb_true_iff, String.eqb_neq. intros ->.
    apply TransferFacts.includes_false in Hnot. contradiction.
Qed.

End AnalysisFacts.

(* ===================================================================== *)
(** ** The row-filter editor *)
(* ===================================================================== *)

Module RowFilterFacts.
Import Js Api Workflow JsFacts Notions RowFilter.

Lemma findIndex_None {A} (p : A -> bool) (l : list A) :
  findIndex p l = None -> filter p l = [].
Proof.
  induction l as [|x l IH]; simpl; [reflexivity|].
  destruct (p x); [discriminate|].
  destruct (findIndex p l); [discriminate|]. auto.
Qed.

Lemma findIndex_Some {A} (p : A -> bool) (l : list A) i :
  findIndex p l = Some i -> exists x, nth_error l i = Some x /\ p x = true.
Proof.
  revert i. induction l as [|x l IH]; simpl; intros i H; [discriminate|].
  destruct (p x) eqn:E.
  - inversion H; subst. exists x. auto.
  - destruct (findIndex p l) as [j|]; [|discriminate].
    inversion H; subst. now apply IH.
Qed.

Lemma filter_replace_at {A} (p : A -> bool) (l : list A) : forall i x y,
  nth_error l i = Some x -> p y = p x ->
  List.length (filter p (replace_at i y l)) = List.length (filter p l).
Proof.
  induction l as [|a l IH]; intros i x y Hi Hp; [destruct i; discriminate|].
  destruct i as [|i]; simpl in *.
  - inversion Hi; subst. rewrite Hp. now destruct (p x).
  - destruct (p a); simpl; now rewrite (IH i x y).
Qed.

Lemma length_replace_at {A} (l : list A) : forall i x,
  List.length (replace_at i x l) = List.length l.
Proof.
  induction l as [|a l IH]; intros [|i] x; simpl; auto.
Qed.

Lemma nth_error_replace_at {A} (l : list A) : forall i j x,
  nth_error (replace_at i x l) j
  = if Nat.eqb i j then (if (i <? List.length l)%nat then Some x else None)
    else nth_error l j.
Proof.
  induction l as [|a l IH]; intros i j x.
  - cbn. destruct (Nat.eqb i j); destruct i, j; reflexivity.
  - destruct i as [|i], j as [|j]; try reflexivity.
    cbn [replace_at nth_error]. rewrite IH. reflexivity.
Qed.

Lemma findIndex_replace_at {A} (p : A -> bool) (l : list A) : forall i y,
  findIndex p l = Some i -> p y = true -> findIndex p (replace_at i y l) = Some i.
Proof.
  induction l as [|a l IH]; intros i y Hi Hy; [discriminate|].
  simpl in Hi. destruct (p a) eqn:E.
  - inversion Hi; subst. simpl. now rewrite Hy.
  - destruct (findIndex p l) as [j|] eqn:Ej; [|discriminate].
    inversion Hi; subst. simpl. rewrite E. now rewrite (IH j y eq_refl Hy).
Qed.

(** X20: "+ Add Global Filter" never makes a second filter step: a pipeline
    without one gets one, any other keeps the number it has. *)
Theorem addGlobalFilter_keeps_one_filter_step (random_id : nat -> string) (d : Dialog) :
  count_filters (pipelineSteps (addGlobalFilter random_id d))
  = Nat.max 1 (count_filters (pipelineSteps d)).
Proof.
  unfold addGlobalFilter, count_filters.
  destruct (findIndex is_filter (pipelineSteps d)) as [i|] eqn:Ei.
  - destruct (findIndex_Some _ _ _ Ei) as (step & Hnth & Hp). rewrite Hnth.
    assert (Hpos : (1 <= List.length (filter is_filter (pipelineSteps d)))%nat).
    { assert (Hin : In step (filter is_filter (pipelineSteps d))).
      { apply filter_In. split; [now apply nth_error_In in Hnth|assumption]. }
      destruct (filter is_filter (pipelineSteps d)); [destruct Hin|cbn; lia]. }
    destruct (spread_items _); cbn [pipelineSteps setPipelineSteps].
    + rewrite (filter_replace_at is_filter _ i step) by (assumption || exact Hp || reflexivity).
      lia.
    + lia.
  - cbn. rewrite (findIndex_None _ _ Ei). reflexivity.
Qed.

(** X21: deleting the condition that "+ Add Global Filter" just made, on a
    pipeline that had no filter step, gives back the pipeline. *)
Theorem removeCondition_undoes_addGlobalFilter (random_id : nat -> string) (d : Dialog) :
  findIndex is_filter (pipelineSteps d) = None ->
  pipelineSteps (removeCondition 0 (addGlobalFilter random_id d)) = pipelineSteps d.
Proof.
  intros Hnone. unfold addGlobalFilter. rewrite Hnone.
  unfold removeCondition. cbn. reflexivity.
Qed.

Lemma removeCondition_undoes_addGlobalFilter_sample :
  pipelineSteps (removeCondition 0 (addGlobalFilter Samples.random_id Samples.clip_dialog))
  = [Samples.log_step].
Proof.
  exact (removeCondition_undoes_addGlobalFilter Samples.random_id Samples.clip_dialog eq_refl).
Defined.

Lemma nth_of_nth_error {A} (l : list A) i x dflt :
  nth_error l i = Some x -> nth i l dflt = x.
Proof.
  revert i. induction l as [|a l IH]; intros [|i] H; try discriminate; simpl in *.
  - now inversion H.
  - now apply IH.
Qed.

(** X22: typing into an input of condition [idx] changes that property of
    that condition and nothing else: the other properties of the condition,
    the other conditions, the other steps and the length of the pipeline
    stay. *)
Theorem updateCondition_edits_one_property
    (idx : nat) (key value : string) (d : Dialog)
    (fIdx : nat) (step : Step) (conds : list JVal) (o : JsObj) :
  findIndex is_filter (pipelineSteps d) = Some fIdx ->
  nth_error (pipelineSteps d) fIdx = Some step ->
  obj_get "conditions" (args step) = JArr conds ->
  nth_error conds idx = Some (JObj o) ->
  obj_wf o ->
  exists step',
    nth_error (pipelineSteps (updateCondition idx key value d)) fIdx = Some step'
    /\ (id step', op step', cols step') = (id step, op step, cols step)
    /\ obj_get "conditions" (args step')
       = JArr (replace_at idx (JObj (obj_set key (JStr value) o)) conds)
    /\ obj_get key (obj_set key (JStr value) o) = JStr value
    /\ (forall k, k <> key -> obj_get k (obj_set key (JStr value) o) = obj_get k o)
    /\ (forall j, j <> fIdx ->
                  nth_error (pipelineSteps (updateCondition idx key value d)) j
                  = nth_error (pipelineSteps d) j)
    /\ List.length (pipelineSteps (updateCondition idx key value d))
       = List.length (pipelineSteps d).
Proof.
  intros Hf Hstep Hconds Hcond Hwf.
  assert (Hidx : (idx < List.length conds)%nat)
    by (apply nth_error_Some; congruence).
  assert (HfIdx : (fIdx < List.length (pipelineSteps d))%nat)
    by (apply nth_error_Some; congruence).
  unfold updateCondition. rewrite Hf, Hstep, Hconds. cbn [spread_items].
  rewrite (nth_of_nth_error conds idx (JObj o) JUndefined Hcond).
  cbn [spread_props]. rewrite (obj_spread_nil o Hwf).
  unfold array_set. apply Nat.ltb_lt in Hidx. rewrite Hidx.
  cbn [pipelineSteps setPipelineSteps].
  eexists. split.
  - rewrite nth_error_replace_at, Nat.eqb_refl.
    apply Nat.ltb_lt in HfIdx. rewrite HfIdx. reflexivity.
  - cbn [id op cols args]. repeat split.
    + apply obj_get_set_same.
    + apply obj_get_set_same.
    + intros k Hk. apply obj_get_set_other. congruence.
    + intros j Hj. rewrite nth_error_replace_at.
      apply Nat.eqb_neq in Hj. rewrite Nat.eqb_sym in Hj. now rewrite Hj.
    + apply length_replace_at.
Qed.

Lemma updateCondition_edits_one_property_sample :
  exists step',
    nth_error (pipelineSteps (updateCondition 1 "val" "3" MoreSamples.filtering_dialog)) 1
    = Some step'
    /\ obj_get "conditions" (args step')
       = JArr [JObj [("col", JStr "shop"); ("op", JStr "eq"); ("val", JStr "north")];
               JObj [("col", JStr "day"); ("op", JStr "gte"); ("val", JStr "3")]].
Proof.
  destruct (updateCondition_edits_one_property 1 "val" "3" MoreSamples.filtering_dialog
              1 MoreSamples.filter_step _ _ eq_refl eq_refl eq_refl eq_refl)
    as (step' & Hnth & _ & Hc & _).
  - unfold obj_wf; cbn. repeat constructor; cbn; intuition discriminate.
  - exists step'. split; [exact Hnth | exact Hc].
Defined.

End RowFilterFacts.

(* ===================================================================== *)
(** ** Inserting text into the formula *)
(* ===================================================================== *)

Module InsertFacts.
Import Js FormulaBuilder.

Lemma substring_whole s : String.substring 0 (String.length s) s = s.
Proof. induction s as [|c s IH]; simpl; [reflexivity | now rewrite IH]. Qed.

Lemma substring_0_add m1 : forall s m2,
  String.substring 0 (m1 + m2) s
  = (String.substring 0 m1 s ++ String.substring m1 m2 s)%string.
Proof.
  induction m1 as [|m1 IH]; intros s m2.
  - cbn [Nat.add]. now destruct s, m2.
  - destruct s as [|c s]; cbn [Nat.add String.substring].
    + reflexivity.
    + rewrite IH. reflexivity.
Qed.

Lemma substring_add a : forall s m1 m2,
  String.substring a (m1 + m2) s
  = (String.substring a m1 s ++ String.substring (a + m1) m2 s)%string.
Proof.
  induction a as [|a IH]; intros s m1 m2.
  - apply substring_0_add.
  - destruct s as [|c s]; cbn [Nat.add String.substring].
    + reflexivity.
    + apply IH.
Qed.

Lemma length_substring a : forall s m,
  (a + m <= String.length s)%nat -> String.length (String.substring a m s) = m.
Proof.
  induction a as [|a IH]; intros s m H.
  - revert s H. induction m as [|m IHm]; intros s H.
    + now destruct s.
    + destruct s as [|c s]; cbn in *; [lia|]. rewrite IHm; [reflexivity|lia].
  - destruct s as [|c s]; cbn in *; [lia|]. apply IH. lia.
Qed.

(** X23: inserting a text replaces exactly the selection of the text area:
    what stood before the selection and what stood after it are kept as
    they are, on either side of the inserted text. *)
Theorem insertText_replaces_the_selection
    (text : string) (ed : Editor) (start end_ : nat) :
  textArea ed = Some (start, end_) ->
  (start <= end_)%nat ->
  (end_ <= String.length (expression ed))%nat ->
  exists before selected after,
    expression ed = (before ++ selected ++ after)%string
    /\ String.length before = start
    /\ String.length selected = (end_ - start)%nat
    /\ expression (insertText text ed) = (before ++ text ++ after)%string.
Proof.
  intros Hta Hse Hel.
  set (s := expression ed) in *. set (len := String.length s) in *.
  exists (String.substring 0 start s), (String.substring start (end_ - start) s),
         (String.substring end_ (len - end_) s).
  repeat split.
  - rewrite <- (substring_whole s) at 1. fold len.
    replace len with (start + ((end_ - start) + (len - end_)))%nat at 1 by lia.
    rewrite substring_0_add, substring_add.
    replace (start + (end_ - start))%nat with end_ by lia. reflexivity.
  - apply length_substring. fold len. lia.
  - apply length_substring. fold len. lia.
  - unfold insertText. rewrite Hta. cbn [expression]. fold s.
    unfold js_substring_from, js_substring. fold len.
    rewrite !Nat.min_0_l, Nat.max_0_l, Nat.sub_0_r.
    rewrite (Nat.min_l start len), (Nat.min_l end_ len), Nat.min_id by lia.
    rewrite (Nat.min_l end_ len), (Nat.max_r end_ len) by lia.
    reflexivity.
Qed.

Lemma insertText_replaces_the_selection_sample :
  exists before selected after,
    "a + old + b" = (before ++ selected ++ after)%string
    /\ String.length before = 4%nat
    /\ String.length selected = 3%nat
    /\ expression (insertText "`new`" MoreSamples.selecting)
       = (before ++ "`new`" ++ after)%string.
Proof.
  refine (insertText_replaces_the_selection "`new`" MoreSamples.selecting 4 7 eq_refl _ _).
  - lia.
  - cbn. lia.
Defined.

End InsertFacts.

(* ===================================================================== *)
(** ** Opening the workflow dialog and submitting the pipeline *)
(* ===================================================================== *)

Module OpenFacts.
Import Js Api Workflow.

Lemma openDialog_edit_cells JSON_stringify random_id fs d0 :
  activeFeatureSelection (openDialog JSON_stringify random_id (Some fs) d0)
  = match active_features fs with Some stored => stored | None => [] end
  /\ featuresInitialized (openDialog JSON_stringify random_id (Some fs) d0)
     = match active_features fs with Some _ => true | None => false end
  /\ activeTargetCol (openDialog JSON_stringify random_id (Some fs) d0)
     = match target_column fs with Some t => t | None => "" end
  /\ currentFeatureSet (openDialog JSON_stringify random_id (Some fs) d0) = Some fs.
Proof.
  unfold openDialog.
  destruct (groupTransformations_from JSON_stringify random_id (ids_drawn d0) _)
    as [steps n']. repeat split.
Qed.

Lemma columnsLoaded_cells cols d :
  activeFeatureSelection (columnsLoaded cols d)
  = (if featuresInitialized d then activeFeatureSelection d else cols)
  /\ featuresInitialized (columnsLoaded cols d) = true
  /\ columns (columnsLoaded cols d) = cols.
Proof.
  unfold columnsLoaded. cbn. destruct (featuresInitialized d) eqn:E; cbn; auto.
Qed.

Lemma loaded_selection JSON_stringify random_id fs d0 cols :
  activeFeatureSelection
    (columnsLoaded cols (openDialog JSON_stringify random_id (Some fs) d0))
  = match active_features fs with Some stored => stored | None => cols end
  /\ columns (columnsLoaded cols (openDialog JSON_stringify random_id (Some fs) d0)) = cols.
Proof.
  destruct (openDialog_edit_cells JSON_stringify random_id fs d0) as (Ha & Hi & _ & _).
  destruct (columnsLoaded_cells cols (openDialog JSON_stringify random_id (Some fs) d0))
    as (Hact & _ & Hcols).
  split; [|exact Hcols].
  rewrite Hact, Hi, Ha. destruct (active_features fs); reflexivity.
Qed.

(** X24: on opening a feature set, the loaded columns all become active only
    when the feature set stores no active list; a stored list, be it empty,
    is taken as it is.  Once columns were loaded, loading again (after an
    auto-generation, say) replaces the columns and leaves the active
    selection alone. *)
Theorem loaded_columns_are_active_by_default_only
    (JSON_stringify : JsObj -> string) (random_id : nat -> string)
    (fs : FeatureSet) (d0 : Dialog) (cols cols' : list string) :
  activeFeatureSelection
    (columnsLoaded cols (openDialog JSON_stringify random_id (Some fs) d0))
  = match active_features fs with Some stored => stored | None => cols end
  /\ activeFeatureSelection
       (columnsLoaded cols'
          (columnsLoaded cols (openDialog JSON_stringify random_id (Some fs) d0)))
     = activeFeatureSelection
         (columnsLoaded cols (openDialog JSON_stringify random_id (Some fs) d0))
  /\ columns
       (columnsLoaded cols'
          (columnsLoaded cols (openDialog JSON_stringify random_id (Some fs) d0)))
     = cols'.
Proof.
  destruct (openDialog_edit_cells JSON_stringify random_id fs d0) as (Ha & Hi & _ & _).
  generalize dependent (openDialog JSON_stringify random_id (Some fs) d0).
  intros d Ha Hi.
  destruct (columnsLoaded_cells cols d) as (Hact & Hinit & _).
  destruct (columnsLoaded_cells cols' (columnsLoaded cols d)) as (Hact' & _ & Hcols').
  repeat split.
  - rewrite Hact, Hi, Ha. destruct (active_features fs); reflexivity.
  - rewrite Hact', Hinit. reflexivity.
  - exact Hcols'.
Qed.

(** X25: the builder's submit goes out only with a version chosen, as an
    update when a feature set is being edited and as a creation otherwise;
    it carries the flattened pipeline and never names the active features
    or the target column. *)
Theorem handleBuilderSubmit_sends_the_pipeline_only (d : Dialog) (r : Request) :
  handleBuilderSubmit d = Some r ->
  selectedVersionId d <> ""
  /\ (method r = PUT <-> currentFeatureSet d <> None)
  /\ (method r = POST <-> currentFeatureSet d = None)
  /\ obj_get "dataset_version_id" (body r) = parseInt_string (selectedVersionId d)
  /\ obj_get "transformations" (body r) = objects (flatTransformations (pipelineSteps d))
  /\ obj_has "active_features" (body r) = false
  /\ obj_has "target_column" (body r) = false.
Proof.
  unfold handleBuilderSubmit.
  destruct (String.eqb (selectedVersionId d) "") eqn:Ev; [discriminate|].
  apply String.eqb_neq in Ev.
  destruct (currentFeatureSet d) as [fs|]; intros H; inversion H; subst; clear H;
    cbn [method body]; repeat split; try assumption; try reflexivity;
    try discriminate; try congruence.
Qed.

Lemma handleBuilderSubmit_sends_the_pipeline_only_sample :
  exists r,
    handleBuilderSubmit Samples.clip_dialog = Some r
    /\ method r = POST
    /\ obj_get "dataset_version_id" (body r) = JNum 7
    /\ obj_has "active_features" (body r) = false.
Proof.
  eexists. split; [reflexivity|].
  destruct (handleBuilderSubmit_sends_the_pipeline_only Samples.clip_dialog _ eq_refl)
    as (_ & _ & Hpost & Hv & _ & Ha & _).
  split; [now apply Hpost|]. split; [exact Hv | exact Ha].
Defined.

(** The open effect and the column loader write neither list of marks. *)
Lemma opening_keeps_marks JSON_stringify random_id efs cols d :
  leftSelection (columnsLoaded cols (openDialog JSON_stringify random_id efs d))
  = leftSelection d
  /\ rightSelection (columnsLoaded cols (openDialog JSON_stringify random_id efs d))
     = rightSelection d.
Proof.
  unfold columnsLoaded, openDialog. destruct efs as [fs|].
  - destruct (groupTransformations_from JSON_stringify random_id (ids_drawn d) _)
      as [steps n'].
    cbn. destruct (active_features fs); split; reflexivity.
  - split; reflexivity.
Qed.

(** X27: when the dialog is opened for the first time on a feature set and
    its columns are loaded, the manage tab's transfer list is in good order,
    provided the loaded columns are distinct and the stored active features,
    if any, are distinct loaded columns: nothing is marked yet. *)
Theorem first_opening_is_in_good_order
    (JSON_stringify : JsObj -> string) (random_id : nat -> string)
    (fs : FeatureSet) (cols : list string) :
  NoDup cols ->
  (forall stored, active_features fs = Some stored -> NoDup stored /\ incl stored cols) ->
  Notions.transfer_ok
    (columns
       (columnsLoaded cols (openDialog JSON_stringify random_id (Some fs) initialDialog)))
    (activeFeatureSelection
       (columnsLoaded cols (openDialog JSON_stringify random_id (Some fs) initialDialog)))
    (leftSelection
       (columnsLoaded cols (openDialog JSON_stringify random_id (Some fs) initialDialog))).
Proof.
  intros Hcols Hstored.
  destruct (opening_keeps_marks JSON_stringify random_id (Some fs) cols initialDialog)
    as [-> _].
  destruct (loaded_selection JSON_stringify random_id fs initialDialog cols) as [-> ->].
  unfold Notions.transfer_ok. cbn [leftSelection initialDialog].
  destruct (active_features fs) as [stored|].
  - destruct (Hstored stored eq_refl) as [Hnd Hincl].
    repeat split; try assumption; try constructor; destruct H.
  - repeat split; try assumption; try constructor; try (destruct H).
    intros x Hx. exact Hx.
Qed.

Lemma first_opening_is_in_good_order_sample :
  Notions.transfer_ok ["price"; "volume"; "sales"] ["price"] [].
Proof.
  refine (first_opening_is_in_good_order Samples.JSON_stringify Samples.random_id
            Samples.stored_set ["price"; "volume"; "sales"] _ _).
  - repeat constructor; cbn; intuition discriminate.
  - intros stored H. inversion H; subst. split.
    + repeat constructor. intros [].
    + intros x [<-|[]]. now left.
Defined.

(** X28: the marks of the "Available" box outlive the dialog: opening it
    again, on any feature set, keeps them, and "Add" then appends them to
    the stored active features as they are, so a marked column that is among
    the stored active features is active twice. *)
Theorem marks_survive_reopening
    (JSON_stringify : JsObj -> string) (random_id : nat -> string)
    (d : Dialog) (fs : FeatureSet) (stored cols : list string) (x : string) :
  active_features fs = Some stored ->
  In x stored -> In x (leftSelection d) ->
  leftSelection (columnsLoaded cols (openDialog JSON_stringify random_id (Some fs) d))
  = leftSelection d
  /\ activeFeatureSelection
       (run random_id
          (columnsLoaded cols (openDialog JSON_stringify random_id (Some fs) d))
          [MoveRight])
     = stored ++ leftSelection d
  /\ ~ NoDup (activeFeatureSelection
                (run random_id
                   (columnsLoaded cols (openDialog JSON_stringify random_id (Some fs) d))
                   [MoveRight])).
Proof.
  intros Hfs Hstored Hmarked.
  destruct (opening_keeps_marks JSON_stringify random_id (Some fs) cols d) as [Hl _].
  destruct (loaded_selection JSON_stringify random_id fs d cols) as [Ha _].
  rewrite Hfs in Ha.
  assert (Hrun : activeFeatureSelection
                   (run random_id
                      (columnsLoaded cols (openDialog JSON_stringify random_id (Some fs) d))
                      [MoveRight])
                 = stored ++ leftSelection d).
  { unfold run. cbn [fold_left]. unfold perform. cbn [enabled]. rewrite Hl.
    destruct (leftSelection d) as [|m ms] eqn:E; [destruct Hmarked|].
    cbn [List.length Nat.eqb negb]. cbn [moveRight setLeftSelection
      setActiveFeatureSelection activeFeatureSelection].
    now rewrite Ha, Hl. }
  split; [exact Hl|]. split; [exact Hrun|].
  rewrite Hrun. intros Hnd.
  apply in_split in Hmarked as (m1 & m2 & Hm). rewrite Hm, app_assoc in Hnd.
  apply NoDup_remove_2 in Hnd. apply Hnd, in_or_app. left. apply in_or_app. now left.
Qed.

(** [price] was marked when the dialog was last used; reopened on
    [stored_set], whose active feature is [price], "Add" makes it active
    twice. *)
Lemma marks_survive_reopening_sample :
  activeFeatureSelection
    (run Samples.random_id
       (columnsLoaded ["price"; "volume"; "sales"]
          (openDialog Samples.JSON_stringify Samples.random_id (Some Samples.stored_set)
             MoreSamples.marked_dialog))
       [MoveRight])
  = ["price"; "price"].
Proof.
  exact (proj1 (proj2 (marks_survive_reopening Samples.JSON_stringify Samples.random_id
                         MoreSamples.marked_dialog Samples.stored_set ["price"]
                         ["price"; "volume"; "sales"] "price" eq_refl
                         (or_introl eq_refl) (or_introl eq_refl)))).
Defined.

End OpenFacts.
